(** * Stabl: stability selection with FDR control (src/stabl/stabl.py)

    A shallow embedding of the [STABL] selector: the bootstrap resampler,
    the synthetic feature generator, the stability path loop of [fit], the
    FDR controller [_compute_FDRc] and the selection interface
    ([get_support], [transform]).

    Conventions.
    - Python floats are read as exact rationals ([Q]); equality of numeric
      results is [Qeq] where a value is computed, Leibniz where two runs
      perform the same computation.
    - A NumPy 2-d array is the list of its rows.
    - A Python exception is a value of [exn]; a call that may raise
      returns a [result].
    - The instance dictionary of a [STABL] object is a finite map from
      attribute names to Python values, so that "attribute exists" and
      "attribute is None" stay different things.
    - NumPy's generators, knockpy's sampler and the scikit-learn base
      estimator are outside the repository: they are the fields of the
      class [Externals]. A generator is a state that each draw advances;
      the knockoff sampler, which is handed no generator, draws from the
      process-wide random state; the estimator is a function of its
      parameters and of the data it is fitted on.
    - The loop of [fit] returns, beside its effect on the object, the
      values of its locals at each grid point (the index sets drawn and
      the masks obtained), so that statements can speak about them. *)

From Stdlib Require Import QArith Qminmax Qround ZArith List Sorted Lia Bool String.
From stdpp Require Import base gmap strings pretty.
Import ListNotations.

Local Open Scope string_scope.
Local Open Scope nat_scope.

(** ** Exceptions and results *)

(** The exception classes that the modelled code can raise. [AxisError] is
    NumPy's (in Python a subclass of [ValueError] and [IndexError]),
    [NotFittedError] is scikit-learn's (a subclass of [ValueError] and
    [AttributeError]); they are kept apart here. *)
Inductive exn : Type :=
| ValueError
| TypeError
| AxisError
| IndexError
| RecursionError
| AttributeError
| NotFittedError.

Inductive result (A : Type) : Type :=
| Ok (a : A)
| Raise (e : exn).
Arguments Ok {A} a.
Arguments Raise {A} e.

Definition rbind {A B} (r : result A) (k : A -> result B) : result B :=
  match r with
  | Ok a => k a
  | Raise e => Raise e
  end.

Fixpoint rmap {A B} (f : A -> result B) (l : list A) : result (list B) :=
  match l with
  | [] => Ok []
  | a :: l' =>
      rbind (f a) (fun b => rbind (rmap f l') (fun bs => Ok (b :: bs)))
  end.

(** ** NumPy helpers *)

(** [x > t] on floats. *)
Definition Qgtb (x t : Q) : bool := negb (Qle_bool x t).

(** [a[indices]] (fancy indexing along the first axis); an index past the
    end raises [IndexError]. *)
Definition take_indices {A} (a : list A) (indices : list nat) : result (list A) :=
  rmap (fun i => match nth_error a i with
                 | Some x => Ok x
                 | None => Raise IndexError
                 end) indices.

(** [np.unique(v)]: the distinct values of [v]. The source only takes the
    length of the result, so the values are not sorted here. *)
Fixpoint np_unique (v : list Q) : list Q :=
  match v with
  | [] => []
  | x :: r => if existsb (Qeq_bool x) r then np_unique r else x :: np_unique r
  end.

(** ** External collaborators *)

Class Externals : Type := {
  (** state of a [numpy.random.Generator] *)
  generator : Type;
  (** process-wide random state: the entropy pool read by
      [default_rng(None)] and NumPy's legacy global stream *)
  global_state : Type;
  (** [np.random.default_rng(seed)] for an integer seed *)
  default_rng_seeded : Z -> generator;
  (** [np.random.default_rng(None)] *)
  default_rng_entropy : global_state -> generator * global_state;
  (** [rng.choice(a=a, size=size, replace=replace)] *)
  choice : generator -> nat -> nat -> bool -> list nat * generator;
  (** [rng.shuffle(v)] on a one-dimensional view *)
  shuffle : generator -> list Q -> list Q * generator;
  (** [GaussianSampler(X, method='equicorrelated').sample_knockoffs()]:
      receives no seed and no generator *)
  sample_knockoffs :
    list (list Q) -> global_state -> result (list (list Q)) * global_state;
  (** a scikit-learn estimator object *)
  estimator : Type;
  (** the constructor argument [base_estimator] of [STABL] *)
  base_estimator : estimator;
  (** [sklearn.base.clone(estimator)] *)
  clone : estimator -> estimator;
  (** [estimator.get_params().keys()] *)
  get_params_keys : estimator -> list string;
  (** [estimator.set_params] with the single keyword [name=value] *)
  set_params : estimator -> string -> Q -> result estimator;
  (** [estimator.fit(X, y)] *)
  estimator_fit : estimator -> list (list Q) -> list Q -> result estimator;
  (** [SelectFromModel(estimator=estimator, threshold=threshold,
      prefit=True).get_support()] *)
  select_from_model : estimator -> Q -> result (list bool)
}.

(** ** The resampler *)

Section Resampler.
Context {E : Externals}.

(** [bootstrap]: [depth] is the number of Python frames still available;
    the redraw is a recursive call, so an outcome vector that never
    yields two distinct values ends in [RecursionError]. *)
Fixpoint bootstrap (depth : nat) (y : list Q) (n_subsamples : nat)
    (replace : bool) (rng : generator) : result (list nat) * generator :=
  match depth with
  | O => (Raise RecursionError, rng)
  | S depth' =>
      let n_samples := length y in
      if (n_samples <? n_subsamples) && negb replace
      then (Raise ValueError, rng)
      else
        let '(sampled_indices, rng1) :=
          choice rng n_samples n_subsamples replace in
        match take_indices y sampled_indices with
        | Raise e => (Raise e, rng1)
        | Ok ys =>
            if length (np_unique ys) <? 2
            then bootstrap depth' y n_subsamples replace rng1
            else (Ok sampled_indices, rng1)
        end
  end.

(** The loop of [_bootstraps_generator] once its generator is created.
    ([bootstrap] returns an array, never a tuple, so the tuple branch of
    the source is not taken.) *)
Fixpoint draw_bootstraps (n : nat) (depth : nat) (y : list Q)
    (n_subsamples : nat) (replace : bool) (rng : generator)
    : result (list (list nat)) :=
  match n with
  | O => Ok []
  | S n' =>
      match bootstrap depth y n_subsamples replace rng with
      | (Raise e, _) => Raise e
      | (Ok subsample, rng1) =>
          rbind (draw_bootstraps n' depth y n_subsamples replace rng1)
                (fun rest => Ok (subsample :: rest))
      end
  end.

(** [np.random.default_rng(random_state)] *)
Definition default_rng (random_state : option Z) (g : global_state)
    : generator * global_state :=
  match random_state with
  | Some seed => (default_rng_seeded seed, g)
  | None => default_rng_entropy g
  end.

(** [_bootstraps_generator], with the generator it yields read out as a
    list. *)
Definition _bootstraps_generator (n_bootstraps : Z) (y : list Q)
    (n_subsamples : nat) (replace : bool) (random_state : option Z)
    (depth : nat) (g : global_state)
    : result (list (list nat)) * global_state :=
  let '(rng, g1) := default_rng random_state g in
  (draw_bootstraps (Z.to_nat n_bootstraps) depth y n_subsamples replace rng,
   g1).

End Resampler.

(** ** Arrays *)

(** [np.zeros((n, m))] *)
Definition zeros (n m : nat) : list (list Q) := repeat (repeat 0%Q m) n.

(** [X.shape[1]] of an array with at least one row *)
Definition shape1 {A} (X : list (list A)) : nat :=
  match X with
  | [] => 0
  | row :: _ => length row
  end.

(** [X[:, indices]] *)
Definition take_columns {A} (X : list (list A)) (indices : list nat)
    : result (list (list A)) :=
  rmap (fun row => take_indices row indices) X.

(** the columns of an array, as [X[:, i]] for [i] in [range(n_cols)] *)
Definition columns_of (n_cols : nat) (X : list (list Q)) : list (list Q) :=
  map (fun i => map (fun row => nth i row 0%Q) X) (seq 0 n_cols).

(** the array of [n_rows] rows whose columns are [cols] *)
Definition rows_of (n_rows : nat) (cols : list (list Q)) : list (list Q) :=
  map (fun r => map (fun col => nth r col 0%Q) cols) (seq 0 n_rows).

(** [np.concatenate([A, B], axis=1)] *)
Definition concatenate1 (A B : list (list Q)) : result (list (list Q)) :=
  if length A =? length B
  then Ok (map (fun ab => (fst ab ++ snd ab)%list) (combine A B))
  else Raise ValueError.

(** [M[:, idx] = v]. NumPy would also broadcast a [v] of length one; the
    vectors assigned by [fit] have one entry per row of [M]. *)
Definition set_column (M : list (list Q)) (idx : nat) (v : list Q)
    : result (list (list Q)) :=
  if negb (forallb (fun row => idx <? length row) M) then Raise IndexError
  else if length v =? length M
  then Ok (map (fun rx => <[idx := snd rx]> (fst rx)) (combine M v))
  else Raise ValueError.

(** [np.vstack(masks)] *)
Definition vstack (masks : list (list bool)) : result (list (list bool)) :=
  match masks with
  | [] => Raise ValueError
  | m :: _ =>
      if forallb (fun r => length r =? length m) masks
      then Ok masks
      else Raise ValueError
  end.

(** number of [True] in a boolean vector, [np.sum(mask)] *)
Fixpoint count_true (mask : list bool) : nat :=
  match mask with
  | [] => 0
  | b :: r => (if b then 1 else 0) + count_true r
  end.

(** [B.mean(axis=0)] of a stacked boolean array *)
Definition mean_axis0 (B : list (list bool)) : list Q :=
  map (fun j =>
         (inject_Z (Z.of_nat (count_true (map (fun row => nth j row false) B)))
          / inject_Z (Z.of_nat (length B)))%Q)
      (seq 0 (shape1 B)).

(** [np.max(v)] of a non-empty vector *)
Definition vector_max (v : list Q) : result Q :=
  match v with
  | [] => Raise ValueError
  | x :: r => Ok (fold_left Qmax r x)
  end.

(** [np.min(v)] *)
Definition np_min (v : list Q) : result Q :=
  match v with
  | [] => Raise ValueError
  | x :: r => Ok (fold_left Qmin r x)
  end.

(** [np.argmin(v)]: the first index holding the minimum *)
Fixpoint argmin_from (best : Q) (best_i i : nat) (v : list Q) : nat :=
  match v with
  | [] => best_i
  | x :: r =>
      if Qgtb best x then argmin_from x i (S i) r
      else argmin_from best best_i (S i) r
  end.

Definition np_argmin (v : list Q) : result nat :=
  match v with
  | [] => Raise ValueError
  | x :: r => Ok (argmin_from x 0 1 r)
  end.

(** ** Python values and the [STABL] object *)

Inductive pyval : Type :=
| PyNone
| PyInt (n : Z)
| PyFloat (x : Q)
| PyList (l : list Q)
| PyArray2 (rows : list (list Q)).

(** [np.max(a, axis=1)]: on [None] (a 0-d object array once converted) and
    on anything with fewer than two axes the axis is out of bounds; a
    reduction over an empty axis has no identity. *)
Definition np_max_axis1 (a : pyval) : result (list Q) :=
  match a with
  | PyArray2 rows => rmap vector_max rows
  | _ => Raise AxisError
  end.

(** [scores > cutoff], elementwise; comparing an array with [None] is a
    [TypeError]. *)
Definition greater_than (scores : list Q) (cutoff : pyval) : result (list bool) :=
  match cutoff with
  | PyFloat t => Ok (map (fun s => Qgtb s t) scores)
  | PyInt n => Ok (map (fun s => Qgtb s (inject_Z n)) scores)
  | _ => Raise TypeError
  end.

(** The constructor arguments of [STABL] ([base_estimator] is in
    [Externals]). *)
Record params : Type := {
  lambda_name : string;
  lambda_grid : list Q;
  n_bootstraps : Z;
  artificial_type : option string;
  artificial_proportion : Q;
  sample_fraction : Q;
  replace : bool;
  threshold : option Q;
  fdr_threshold_range : list Q;
  bootstrap_threshold : Q;
  verbose : Z;
  n_jobs : Z;
  random_state : option Z
}.

(** [STABL.__init__]: the fitted attributes exist from construction on, and
    hold [None]. ([X_artificial_] and [n_features_in_] do not exist yet.) *)
Definition __init__ : gmap string pyval :=
  <["fdr_min_threshold_" := PyNone]>
  (<["min_fdr_" := PyNone]>
  (<["FDRs_" := PyNone]>
  (<["intercepts_" := PyNone]>
  (<["coefs_" := PyNone]>
  (<["stability_scores_artificial_" := PyNone]>
  (<["stability_scores_" := PyNone]> ∅)))))).

(** [sklearn.utils.validation.check_is_fitted(self, attribute)]: the
    estimator counts as fitted when [hasattr(self, attribute)]. *)
Definition check_is_fitted (self : gmap string pyval) (attribute : string)
    : result unit :=
  match self !! attribute with
  | Some _ => Ok tt
  | None => Raise NotFittedError
  end.

(** ** State: the instance dictionary and the process-wide random state *)

Section Estimator.
Context {E : Externals}.

Record heap : Type := {
  attrs : gmap string pyval;
  glob : global_state
}.

(** A method body: it reads and writes the heap and may raise; what was
    written before the exception stays written. *)
Definition M (A : Type) : Type := heap -> result A * heap.

Definition ret {A} (a : A) : M A := fun h => (Ok a, h).

Definition raise {A} (e : exn) : M A := fun h => (Raise e, h).

Definition bind {A B} (c : M A) (k : A -> M B) : M B :=
  fun h =>
    match c h with
    | (Ok a, h1) => k a h1
    | (Raise e, h1) => (Raise e, h1)
    end.

Definition lift {A} (r : result A) : M A := fun h => (r, h).

Definition setattr (name : string) (v : pyval) : M unit :=
  fun h => (Ok tt, {| attrs := <[name := v]> (attrs h); glob := glob h |}).

Definition lookup_attr (self : gmap string pyval) (name : string) : result pyval :=
  match self !! name with
  | Some v => Ok v
  | None => Raise AttributeError
  end.

Definition getattr (name : string) : M pyval :=
  fun h => (lookup_attr (attrs h) name, h).

Definition with_global {A} (f : global_state -> A * global_state) : M A :=
  fun h => let '(a, g) := f (glob h) in (Ok a, {| attrs := attrs h; glob := g |}).

Definition with_global_result {A} (f : global_state -> result A * global_state)
    : M A :=
  fun h => let '(r, g) := f (glob h) in (r, {| attrs := attrs h; glob := g |}).

End Estimator.

Notation "x <- c ;; k" := (bind c (fun x => k))
  (at level 100, c at next level, right associativity).
Notation "c ;;; k" := (bind c (fun _ => k))
  (at level 100, right associativity).

Section Fit.
Context {E : Externals}.

(** ** Validation *)

Definition in_unit_interval (t : Q) : bool := Qgtb t 0 && Qle_bool t 1.

(** [STABL._validate_input]. (The [isinstance] tests are the types of the
    fields.) *)
Definition _validate_input (self : params) : result unit :=
  if (n_bootstraps self <=? 0)%Z then Raise ValueError
  else if negb (Qgtb (sample_fraction self) 0) then Raise ValueError
  else if match threshold self with
          | Some t => negb (in_unit_interval t)
          | None => false
          end then Raise ValueError
  else if match threshold self, artificial_type self with
          | None, None => true
          | _, _ => false
          end then Raise ValueError
  else if match artificial_type self with
          | Some _ => negb (in_unit_interval (artificial_proportion self))
          | None => false
          end then Raise ValueError
  else if negb (existsb (String.eqb (lambda_name self))
                       (get_params_keys base_estimator))
  then Raise ValueError
  else Ok tt.

(** scikit-learn's array check: two axes, at least one row and one column. *)
Definition well_shaped (X : list (list Q)) : bool :=
  match X with
  | [] => false
  | row :: _ => (1 <=? length row) && forallb (fun r => length r =? length row) X
  end.

(** [self._validate_data(X=X, y=y, reset=True)]: checks [X] and [y] and
    records the column count. *)
Definition _validate_data_fit (X : list (list Q)) (y : list Q) : M unit :=
  if well_shaped X && (length y =? length X)
  then setattr "n_features_in_" (PyInt (Z.of_nat (shape1 X)))
  else raise ValueError.

(** ** Synthetic features *)

(** [for i in range(X_artificial.shape[1]): rng.shuffle(X_artificial[:, i])] *)
Fixpoint shuffle_columns (rng : generator) (cols : list (list Q))
    : list (list Q) * generator :=
  match cols with
  | [] => ([], rng)
  | c :: rest =>
      let '(c', rng1) := shuffle rng c in
      let '(rest', rng2) := shuffle_columns rng1 rest in
      (c' :: rest', rng2)
  end.

(** [STABL._make_artificial_features] *)
Definition _make_artificial_features (X : list (list Q))
    (artificial_type : string) (nb_noise : nat) (random_state : option Z)
    : M (list (list Q)) :=
  rng <- with_global (default_rng random_state) ;;
  if String.eqb artificial_type "random_permutation" then
    let '(indices, rng1) := choice rng (shape1 X) nb_noise false in
    X_artificial <- lift (take_columns X indices) ;;
    let '(cols, _) :=
      shuffle_columns rng1 (columns_of (shape1 X_artificial) X_artificial) in
    let X_artificial := rows_of (length X_artificial) cols in
    setattr "X_artificial_" (PyArray2 X_artificial) ;;;
    lift (concatenate1 X X_artificial)
  else if String.eqb artificial_type "knockoff" then
    X_artificial <- with_global_result (sample_knockoffs X) ;;
    let '(indices, _) := choice rng (shape1 X_artificial) nb_noise false in
    X_artificial <- lift (take_columns X_artificial indices) ;;
    setattr "X_artificial_" (PyArray2 X_artificial) ;;;
    lift (concatenate1 X X_artificial)
  else raise ValueError.

(** ** The FDR controller *)

(** [np.sum(v)] *)
Definition np_sum (v : list Q) : Q := fold_left Qplus v 0%Q.

Definition bool_to_Q (b : bool) : Q := if b then 1%Q else 0%Q.

(** One pass of the loop body of [_compute_FDRc]. *)
Definition FDP_at (artificial_proportion : Q)
    (max_scores max_scores_artificial : list Q) (thresh : Q) : Q :=
  let num :=
    (np_sum (map (fun s => (1 / artificial_proportion) * bool_to_Q (Qgtb s thresh))
                 max_scores_artificial) + 1)%Q in
  let denum :=
    Nat.max 1 (count_true (map (fun s => Qgtb s thresh) max_scores)) in
  (num / inject_Z (Z.of_nat denum))%Q.

Definition as_array2 (v : pyval) : result (list (list Q)) :=
  match v with
  | PyArray2 rows => Ok rows
  | _ => Raise TypeError
  end.

(** [STABL._compute_FDRc]. Its four arguments are shadowed by attribute
    reads in the first lines of the body, so they do not appear here. *)
Definition _compute_FDRc (self : params) : M unit :=
  let artificial_proportion := artificial_proportion self in
  a <- getattr "stability_scores_artificial_" ;;
  max_scores_artificial <- lift (np_max_axis1 a) ;;
  s <- getattr "stability_scores_" ;;
  max_scores <- lift (np_max_axis1 s) ;;
  let FDPs :=
    map (FDP_at artificial_proportion max_scores max_scores_artificial)
        (fdr_threshold_range self) in
  setattr "FDRs_" (PyList FDPs) ;;;
  min_fdr <- lift (np_min FDPs) ;;
  setattr "min_fdr_" (PyFloat min_fdr) ;;;
  final_cutoff <-
    (if Qgtb min_fdr 1 then ret 1%Q
     else
       i <- lift (np_argmin FDPs) ;;
       t <- lift (match nth_error (fdr_threshold_range self) i with
                  | Some t => Ok t
                  | None => Raise IndexError
                  end) ;;
       ret (Qmin t 1)) ;;
  setattr "fdr_min_threshold_" (PyFloat final_cutoff).

(** ** The stability path *)

(** [fit_bootstrapped_sample] *)
Definition fit_bootstrapped_sample (base_estimator : estimator)
    (X : list (list Q)) (y : list Q) (lambda_name : string) (lambda_value : Q)
    (threshold : Q) : result (list bool) :=
  rbind (set_params base_estimator lambda_name lambda_value) (fun base_estimator =>
  rbind (estimator_fit base_estimator X y) (fun base_estimator =>
  select_from_model base_estimator threshold)).

(** [self.<name>[:, idx] = v] *)
Definition update_column (name : string) (idx : nat) (v : list Q) : M unit :=
  a <- getattr name ;;
  rows <- lift (as_array2 a) ;;
  rows' <- lift (set_column rows idx v) ;;
  setattr name (PyArray2 rows').

(** The [Parallel(...)(delayed(fit_bootstrapped_sample)(...) for ...)] call:
    one task per index set, results in the order of the index sets whatever
    [n_jobs] is. (The index sets are drawn here before the first task runs;
    joblib interleaves drawing and running, which only changes which of two
    exceptions is seen first.) *)
Definition Parallel (n_jobs : Z) {A B} (task : A -> result B) (inputs : list A)
    : result (list B) :=
  rmap task inputs.

(** One iteration of the loop of [fit] over [enumerate(self.lambda_grid)];
    it returns the values of its locals [bootstrap_indices] and
    [selected_variables]. ([fit] keeps [clone(self.base_estimator)] in its
    local [base_estimator], and every task receives a clone of that.) *)
Definition fit_iteration (self : params) (depth : nat) (X : list (list Q))
    (y : list Q) (n_features n_subsamples : nat) (idx : nat) (lambda_value : Q)
    : M (list (list nat) * list (list bool)) :=
  bootstrap_indices <-
    with_global_result
      (_bootstraps_generator (n_bootstraps self) y n_subsamples (replace self)
                             (random_state self) depth) ;;
  selected_variables <-
    lift (Parallel (n_jobs self)
            (fun subsample_indices =>
               rbind (take_indices X subsample_indices) (fun X_sub =>
               rbind (take_indices y subsample_indices) (fun y_sub =>
               fit_bootstrapped_sample (clone (clone base_estimator)) X_sub y_sub
                                       (lambda_name self) lambda_value
                                       (bootstrap_threshold self))))
            bootstrap_indices) ;;
  (match artificial_type self with
   | Some _ =>
       v <- lift (rbind (vstack selected_variables) (fun stacked =>
                  Ok (mean_axis0 (map (skipn n_features) stacked)))) ;;
       update_column "stability_scores_artificial_" idx v
   | None => ret tt
   end) ;;;
  v <- lift (rbind (vstack selected_variables) (fun stacked =>
             Ok (mean_axis0 (map (firstn n_features) stacked)))) ;;
  update_column "stability_scores_" idx v ;;;
  ret (bootstrap_indices, selected_variables).

Definition enumerate {A} (l : list A) : list (nat * A) :=
  combine (seq 0 (length l)) l.

Fixpoint fit_loop (self : params) (depth : nat) (X : list (list Q))
    (y : list Q) (n_features n_subsamples : nat) (grid : list (nat * Q))
    : M (list (list (list nat) * list (list bool))) :=
  match grid with
  | [] => ret []
  | (idx, lambda_value) :: rest =>
      t <- fit_iteration self depth X y n_features n_subsamples idx lambda_value ;;
      ts <- fit_loop self depth X y n_features n_subsamples rest ;;
      ret (t :: ts)
  end.

(** [STABL.fit], up to the end of the loop: the result is the list, one
    entry per grid point, of the index sets drawn and the masks obtained. *)
Definition fit_path (self : params) (depth : nat) (X : list (list Q))
    (y : list Q) : M (list (list (list nat) * list (list bool))) :=
  lift (_validate_input self) ;;;
  _validate_data_fit X y ;;;
  let n_samples := length X in
  let n_features := shape1 X in
  let n_subsamples :=
    Z.to_nat (Qfloor (sample_fraction self * inject_Z (Z.of_nat n_samples))) in
  let n_lambdas := length (lambda_grid self) in
  let n_injected_noise :=
    Z.to_nat (Qfloor (inject_Z (Z.of_nat (shape1 X)) * artificial_proportion self)) in
  setattr "stability_scores_" (PyArray2 (zeros n_features n_lambdas)) ;;;
  X <- (match artificial_type self with
        | Some artificial_type =>
            setattr "stability_scores_artificial_"
                    (PyArray2 (zeros n_injected_noise n_lambdas)) ;;;
            _make_artificial_features X artificial_type n_injected_noise
                                      (random_state self)
        | None => ret X
        end) ;;
  fit_loop self depth X y n_features n_subsamples (enumerate (lambda_grid self)).

(** [STABL.fit] *)
Definition fit (self : params) (depth : nat) (X : list (list Q)) (y : list Q)
    : M unit :=
  fit_path self depth X y ;;;
  s <- getattr "stability_scores_" ;;
  max_scores <- lift (np_max_axis1 s) ;;
  match artificial_type self with
  | Some _ =>
      a <- getattr "stability_scores_artificial_" ;;
      max_scores_artificial <- lift (np_max_axis1 a) ;;
      _compute_FDRc self
  | None => ret tt
  end.

(** ** The selection interface *)

(** [STABL._get_support_mask] *)
Definition _get_support_mask (self : params) (dict : gmap string pyval)
    (new_threshold : option Q) : result (list bool) :=
  rbind (check_is_fitted dict "stability_scores_") (fun _ =>
  let new_threshold :=
    match new_threshold with
    | None => threshold self
    | Some t => Some t
    end in
  rbind (match new_threshold with
         | None => lookup_attr dict "fdr_min_threshold_"
         | Some t => Ok (PyFloat t)
         end) (fun final_cutoff =>
  rbind (lookup_attr dict "stability_scores_") (fun s =>
  rbind (np_max_axis1 s) (fun max_scores =>
  greater_than max_scores final_cutoff)))).

(** [np.where(mask)[0]] *)
Fixpoint where_true (i : nat) (mask : list bool) : list nat :=
  match mask with
  | [] => []
  | b :: r => if b then i :: where_true (S i) r else where_true (S i) r
  end.

Inductive support : Type :=
| Mask (mask : list bool)
| Indices (indices : list nat).

(** [STABL.get_support] *)
Definition get_support (self : params) (dict : gmap string pyval)
    (indices : bool) (new_threshold : option Q) : result support :=
  rbind (_get_support_mask self dict new_threshold) (fun mask =>
  Ok (if negb indices then Mask mask else Indices (where_true 0 mask))).

(** [X[:, mask]] for a boolean [mask] of the width of [X] *)
Fixpoint select_by_mask {A} (mask : list bool) (row : list A) : list A :=
  match mask, row with
  | b :: m, x :: r => if b then x :: select_by_mask m r else select_by_mask m r
  | _, _ => []
  end.

(** [self._validate_data(X, reset=False)]: checks [X]; the column count is
    compared with [n_features_in_] when that attribute exists. *)
Definition _validate_data_transform (dict : gmap string pyval)
    (X : list (list Q)) : result unit :=
  if negb (well_shaped X) then Raise ValueError
  else match dict !! "n_features_in_" with
       | Some (PyInt n) =>
           if (n =? Z.of_nat (shape1 X))%Z then Ok tt else Raise ValueError
       | _ => Ok tt
       end.

(** [STABL.transform]; its call [get_support(indices=False, ...)] is
    [_get_support_mask]. (The [UserWarning] of the empty selection is not
    recorded.) *)
Definition transform (self : params) (dict : gmap string pyval)
    (X : list (list Q)) (new_threshold : option Q) : result (list (list Q)) :=
  rbind (_validate_data_transform dict X) (fun _ =>
  rbind (_get_support_mask self dict new_threshold) (fun mask =>
  if negb (length mask =? shape1 X) then Raise ValueError
  else if negb (existsb (fun b => b) mask) then Ok (map (fun _ => []) X)
  else Ok (map (select_by_mask mask) X))).

End Fit.

(** ** Feature names *)

Section FeatureNames.

(** [sklearn.utils.validation._check_feature_names_in(self, input_features)]
    for an estimator fitted on arrays, which carry no column names (so that
    [feature_names_in_] is not set): given names are checked against
    [n_features_in_] when that is known, missing names are generated as
    ["x0"], ["x1"], ... and cannot be generated without [n_features_in_]. *)
Definition _check_feature_names_in (dict : gmap string pyval)
    (input_features : option (list string)) : result (list string) :=
  match input_features with
  | Some names =>
      match dict !! "n_features_in_" with
      | Some (PyInt n) =>
          if (Z.of_nat (length names) =? n)%Z then Ok names else Raise ValueError
      | _ => Ok names
      end
  | None =>
      match dict !! "n_features_in_" with
      | Some (PyInt n) =>
          Ok (map (fun i => "x" +:+ pretty i) (seq 0 (Z.to_nat n)))
      | _ => Raise ValueError
      end
  end.

(** [a[mask]] for a boolean [mask]: the lengths must agree *)
Definition index_by_mask {A} (a : list A) (mask : list bool) : result (list A) :=
  if length mask =? length a then Ok (select_by_mask mask a)
  else Raise IndexError.

(** [STABL.get_feature_names_out]; its call [get_support(new_threshold=...)]
    is [_get_support_mask]. *)
Definition get_feature_names_out (self : params) (dict : gmap string pyval)
    (input_features : option (list string)) (new_threshold : option Q)
    : result (list string) :=
  rbind (_check_feature_names_in dict input_features) (fun input_features =>
  rbind (_get_support_mask self dict new_threshold) (fun mask =>
  index_by_mask input_features mask)).

End FeatureNames.

(** ** The plotting helpers that choose or check a threshold *)

Section Plots.
Context {E : Externals}.

(** [plot_fdr_graph]: the position of the vertical line and whether its
    label is "No optimal threshold". *)
Definition plot_fdr_graph (self : params) (dict : gmap string pyval)
    : result (Q * bool) :=
  rbind (check_is_fitted dict "stability_scores_") (fun _ =>
  let thresh_grid := fdr_threshold_range self in
  rbind (lookup_attr dict "min_fdr_") (fun m =>
  match m with
  | PyFloat min_fdr =>
      if Qgtb min_fdr (1 # 2) then Ok (1%Q, true)
      else
        rbind (lookup_attr dict "FDRs_") (fun f =>
        match f with
        | PyList FDRs =>
            rbind (np_argmin FDRs) (fun i =>
            match nth_error thresh_grid i with
            | Some t => Ok (t, false)
            | None => Raise IndexError
            end)
        | _ => Raise TypeError
        end)
  | _ => Raise TypeError
  end)).

(** [plot_stabl_path], up to [paths_to_highlight]. *)
Definition plot_stabl_path (self : params) (dict : gmap string pyval)
    (new_threshold : option Q) : result support :=
  rbind (check_is_fitted dict "stability_scores_") (fun _ =>
  let threshold :=
    match new_threshold with
    | None => threshold self
    | Some t => Some t
    end in
  if match threshold with
     | Some t => negb (in_unit_interval t)
     | None => false
     end
  then Raise ValueError
  else get_support self dict false threshold).

End Plots.

(** ** Reference definitions for the statements *)

(** fraction of the masks in which column [j] is set *)
Definition selection_fraction (masks : list (list bool)) (j : nat) : Q :=
  (inject_Z (Z.of_nat (count_true (map (fun m => nth j m false) masks)))
   / inject_Z (Z.of_nat (length masks)))%Q.

(** the estimate of the false discovery proportion at threshold [t], as a
    closed formula *)
Definition FDP_formula (artificial_proportion : Q)
    (real_max_score synthetic_max_score : list Q) (t : Q) : Q :=
  (((1 / artificial_proportion)
    * inject_Z (Z.of_nat (count_true (map (fun s => Qgtb s t) synthetic_max_score)))
    + 1)
   / inject_Z (Z.max 1 (Z.of_nat (count_true (map (fun s => Qgtb s t) real_max_score)))))%Q.

(** [m2] selects a subset of what [m1] selects *)
Definition mask_subset (m2 m1 : list bool) : Prop :=
  length m2 = length m1 /\
  forall j, nth j m2 false = true -> nth j m1 false = true.

(** the row of feature [off + j] after the column writes [ups] of the loop,
    each write given by its grid index and the masks of that grid point *)
Definition column_writes (off j : nat) (ups : list (nat * list (list bool)))
    (row : list Q) : list Q :=
  fold_left (fun row u => <[fst u := selection_fraction (snd u) (off + j)]> row)
            ups row.

(** the process-wide state after one more generator has been created from
    [random_state] *)
Definition next_global {E : Externals} (random_state : option Z)
    (g : global_state) : global_state :=
  snd (default_rng random_state g).

(** [rows] holds, for each of its rows [j] and each grid point [k], the
    fraction of the masks of grid point [k] in which column [off + j] is
    set *)
Definition scores_of_trace (off : nat)
    (trace : list (list (list nat) * list (list bool)))
    (rows : list (list Q)) : Prop :=
  forall j row,
    rows !! j = Some row ->
    length row = length trace /\
    forall k batch masks,
      trace !! k = Some (batch, masks) ->
      row !! k = Some (selection_fraction masks (off + j)).

(** [m] is the largest entry of [v] *)
Definition is_maximum (m : Q) (v : list Q) : Prop :=
  In m v /\ forall s, In s v -> (s <= m)%Q.

(** [m] is the smallest entry of [v] *)
Definition is_minimum (m : Q) (v : list Q) : Prop :=
  In m v /\ forall s, In s v -> (m <= s)%Q.

(** [i] is the first position of [v] that holds its smallest entry *)
Definition first_argmin (v : list Q) (i : nat) : Prop :=
  exists f,
    v !! i = Some f /\
    (forall g, In g v -> (f <= g)%Q) /\
    (forall i' g, i' < i -> v !! i' = Some g -> (f < g)%Q).

(** Two heaps agree on the attributes named in [N]; with [G] set they
    also have the same process-wide random state. *)
Definition agree {E : Externals} (G : bool) (N : list string) (h1 h2 : heap)
    : Prop :=
  (G = true -> glob h1 = glob h2) /\
  forall name, In name N -> attrs h1 !! name = attrs h2 !! name.

(** A method body run from two heaps that agree on [N] raises or returns
    the same, and where it returns the heaps agree on [N']. *)
Definition respects {E : Externals} {A} (G : bool) (N N' : list string)
    (c : M A) : Prop :=
  forall h1 h2,
    agree G N h1 h2 ->
    fst (c h1) = fst (c h2) /\
    forall a, fst (c h1) = Ok a -> agree G N' (snd (c h1)) (snd (c h2)).

(** The randomness of a run is pinned down: either the two runs share the
    process-wide state, or the generators are built from an integer
    seed. *)
Definition pinned (G : bool) (random_state : option Z) : Prop :=
  G = true \/ exists seed, random_state = Some seed.

(** A method body leaves the attribute [name] as it found it, whether it
    returns or raises. *)
Definition preserves {E : Externals} {A} (name : string) (c : M A) : Prop :=
  forall h, attrs (snd (c h)) !! name = attrs h !! name.

(** the attributes that only a fit with synthetic features assigns *)
Definition synthetic_attributes : list string :=
  ["stability_scores_artificial_"; "X_artificial_"; "FDRs_"; "min_fdr_";
   "fdr_min_threshold_"].

(** the attributes assigned by a [fit] that returns *)
Definition fitted_attributes (self : params) : list string :=
  match artificial_type self with
  | Some _ =>
      ["stability_scores_"; "stability_scores_artificial_"; "X_artificial_";
       "FDRs_"; "min_fdr_"; "fdr_min_threshold_"; "n_features_in_"]
  | None => ["stability_scores_"; "n_features_in_"]
  end.

(** ** A small instance of the external collaborators

    Generators are counters, [choice] walks round the population from the
    counter, [shuffle] reverses, the knockoff sampler fills the block with
    the value of the global counter, and the estimator keeps the columns
    whose entry in the first sampled row exceeds its penalty [C] times the
    sum of that row. *)

Definition toy_choice (rng a size : nat) (replace : bool) : list nat * nat :=
  (map (fun i => (rng + i) mod a) (seq 0 size), S rng).

(** The toy estimator is the pair of its penalty and of the first row it
    was fitted on. *)
Definition toy_select (e : Q * list Q) : list bool :=
  map (fun x => Qgtb x (fst e * fold_left Qplus (snd e) 0)%Q) (snd e).

Definition toy : Externals := {|
  generator := nat;
  global_state := nat;
  default_rng_seeded := Z.to_nat;
  default_rng_entropy := fun g => (g, S g);
  choice := toy_choice;
  shuffle := fun rng v => (rev v, S rng);
  sample_knockoffs := fun X g =>
    (Ok (map (map (fun _ => inject_Z (Z.of_nat g))) X), S g);
  estimator := Q * list Q;
  base_estimator := (1%Q, []);
  clone := fun e => e;
  get_params_keys := fun _ => ["C"];
  set_params := fun e name value =>
    if String.eqb name "C" then Ok (value, snd e) else Raise ValueError;
  estimator_fit := fun e X _ => Ok (fst e, hd [] X);
  select_from_model := fun e _ => Ok (toy_select e)
|}.

(** Two samples, one feature; one grid point, one bootstrap. *)
Definition toy_params : params := {|
  lambda_name := "C";
  lambda_grid := [1 # 2]%Q;
  n_bootstraps := 1;
  artificial_type := Some "random_permutation";
  artificial_proportion := 1;
  sample_fraction := 1;
  replace := false;
  threshold := None;
  fdr_threshold_range := [3 # 10]%Q;
  bootstrap_threshold := 1 # 100000;
  verbose := 0;
  n_jobs := 1;
  random_state := Some 0%Z
|}.

Definition toy_X : list (list Q) := [[1]; [0]]%Q.
Definition toy_y : list Q := [0; 1]%Q.

Definition fresh (g : nat) : @heap toy := @Build_heap toy __init__ g.

(** Three samples, two features; two grid points, two bootstraps each. *)
Definition path_params : params := {|
  lambda_name := "C";
  lambda_grid := [1 # 4; 1 # 2]%Q;
  n_bootstraps := 2;
  artificial_type := Some "random_permutation";
  artificial_proportion := 1 # 2;
  sample_fraction := 2 # 3;
  replace := false;
  threshold := None;
  fdr_threshold_range := [3 # 10; 4 # 10; 6 # 10]%Q;
  bootstrap_threshold := 1 # 100000;
  verbose := 0;
  n_jobs := 1;
  random_state := Some 0%Z
|}.

Definition path_X : list (list Q) := [[1; 0]; [0; 1]; [1; 1]]%Q.
Definition path_y : list Q := [0; 1; 1]%Q.

(** [self.set_params(...)] for the parameters varied below *)
Definition set_artificial_type (v : option string) (self : params) : params := {|
  lambda_name := lambda_name self;
  lambda_grid := lambda_grid self;
  n_bootstraps := n_bootstraps self;
  artificial_type := v;
  artificial_proportion := artificial_proportion self;
  sample_fraction := sample_fraction self;
  replace := replace self;
  threshold := threshold self;
  fdr_threshold_range := fdr_threshold_range self;
  bootstrap_threshold := bootstrap_threshold self;
  verbose := verbose self;
  n_jobs := n_jobs self;
  random_state := random_state self
|}.

Definition set_threshold (v : option Q) (self : params) : params := {|
  lambda_name := lambda_name self;
  lambda_grid := lambda_grid self;
  n_bootstraps := n_bootstraps self;
  artificial_type := artificial_type self;
  artificial_proportion := artificial_proportion self;
  sample_fraction := sample_fraction self;
  replace := replace self;
  threshold := v;
  fdr_threshold_range := fdr_threshold_range self;
  bootstrap_threshold := bootstrap_threshold self;
  verbose := verbose self;
  n_jobs := n_jobs self;
  random_state := random_state self
|}.


(** * Properties *)

(** ** Results and lists *)

Lemma rbind_Ok {A B} (r : result A) (k : A -> result B) (b : B) :
  rbind r k = Ok b -> exists a, r = Ok a /\ k a = Ok b.
Proof. destruct r as [a|e]; simpl; [eauto | discriminate]. Qed.

Lemma rmap_Ok_cons {A B} (f : A -> result B) a l bs :
  rmap f (a :: l) = Ok bs ->
  exists b bs', bs = b :: bs' /\ f a = Ok b /\ rmap f l = Ok bs'.
Proof.
  simpl. intros H.
  apply rbind_Ok in H as (b & Hb & H).
  apply rbind_Ok in H as (bs' & Hbs & H).
  inversion H; subst. eauto.
Qed.

Lemma rmap_length {A B} (f : A -> result B) l bs :
  rmap f l = Ok bs -> length bs = length l.
Proof.
  revert bs. induction l as [|a l IH]; intros bs H.
  - inversion H. reflexivity.
  - apply rmap_Ok_cons in H as (b & bs' & -> & _ & H).
    simpl. f_equal. auto.
Qed.

Lemma rmap_lookup {A B} (f : A -> result B) l bs i a :
  rmap f l = Ok bs -> l !! i = Some a ->
  exists b, bs !! i = Some b /\ f a = Ok b.
Proof.
  revert bs i. induction l as [|a0 l IH]; intros bs i H Hi.
  - destruct i; discriminate.
  - apply rmap_Ok_cons in H as (b & bs' & -> & Hb & H).
    destruct i as [|i]; simpl in *.
    + inversion Hi; subst. eauto.
    + eauto.
Qed.

Lemma rmap_In {A B} (f : A -> result B) l bs b :
  rmap f l = Ok bs -> In b bs -> exists a, In a l /\ f a = Ok b.
Proof.
  revert bs. induction l as [|a0 l IH]; intros bs H Hb.
  - inversion H; subst. destruct Hb.
  - apply rmap_Ok_cons in H as (b0 & bs' & -> & Hb0 & H).
    destruct Hb as [<-|Hb].
    + exists a0. split; [left; reflexivity | assumption].
    + destruct (IH _ H Hb) as (a & Ha & Hfa).
      exists a. split; [right; assumption | assumption].
Qed.

Lemma take_indices_In {A} (a : list A) indices xs x :
  take_indices a indices = Ok xs -> In x xs ->
  exists i, In i indices /\ nth_error a i = Some x.
Proof.
  intros H Hx. unfold take_indices in H.
  destruct (rmap_In _ _ _ _ H Hx) as (i & Hi & Hf).
  exists i. split; [assumption|].
  destruct (nth_error a i); [inversion Hf; reflexivity | discriminate].
Qed.

(** ** [np.unique] *)

Lemma np_unique_In v x : In x (np_unique v) -> In x v.
Proof.
  induction v as [|a v IH]; simpl; [tauto|].
  destruct (existsb (Qeq_bool a) v); simpl; intuition.
Qed.

Lemma np_unique_head v a rest :
  np_unique v = a :: rest -> forall b, In b rest -> ~ (a == b)%Q.
Proof.
  induction v as [|x v IH]; simpl; [discriminate|].
  destruct (existsb (Qeq_bool x) v) eqn:Hex.
  - exact IH.
  - intros Heq b Hb Hab. inversion Heq; subst.
    apply np_unique_In in Hb.
    assert (existsb (Qeq_bool a) v = true) as Habs.
    { apply existsb_exists. exists b. split; [assumption|].
      apply Qeq_bool_iff. assumption. }
    congruence.
Qed.

Lemma np_unique_two v :
  2 <= length (np_unique v) ->
  exists a b, In a v /\ In b v /\ ~ (a == b)%Q.
Proof.
  destruct (np_unique v) as [|a [|b rest]] eqn:Hu; simpl; try lia.
  intros _. exists a, b. repeat split.
  - apply np_unique_In. rewrite Hu. left. reflexivity.
  - apply np_unique_In. rewrite Hu. right. left. reflexivity.
  - eapply np_unique_head; [exact Hu | left; reflexivity].
Qed.

(** ** The resampler *)

Section ResamplerFacts.
Context {E : Externals}.

(** C10. Whenever [bootstrap] returns an index set, the outcome vector
    restricted to it holds two different values; nothing in the statement
    or the proof looks at the kind of outcome, so this is the case for
    class labels and for continuous outcomes alike. *)
Theorem bootstrap_returns_two_distinct_outcomes
    (depth : nat) (y : list Q) (n_subsamples : nat) (replace : bool)
    (rng rng' : generator) (sampled_indices : list nat) :
  bootstrap depth y n_subsamples replace rng = (Ok sampled_indices, rng') ->
  exists i j a b,
    In i sampled_indices /\ In j sampled_indices /\
    nth_error y i = Some a /\ nth_error y j = Some b /\ ~ (a == b)%Q.
Proof.
  revert rng. induction depth as [|depth IH]; intros rng H; simpl in H.
  - discriminate.
  - destruct ((length y <? n_subsamples) && negb replace); [discriminate|].
    destruct (choice rng (length y) n_subsamples replace) as [idx rng1].
    destruct (take_indices y idx) as [ys|e] eqn:Hys; [|discriminate].
    destruct (length (np_unique ys) <? 2) eqn:Hlen.
    + eapply IH. exact H.
    + inversion H; subst.
      apply Nat.ltb_ge in Hlen.
      destruct (np_unique_two ys Hlen) as (a & b & Ha & Hb & Hab).
      destruct (take_indices_In _ _ _ _ Hys Ha) as (i & Hi & Hia).
      destruct (take_indices_In _ _ _ _ Hys Hb) as (j & Hj & Hjb).
      exists i, j, a, b. auto.
Qed.

End ResamplerFacts.

Lemma bootstrap_returns_two_distinct_outcomes_witness :
  @bootstrap toy 3 [1 # 2; 1 # 2; 17 # 10]%Q 2 false 0 = (Ok [1; 2], 2) /\
  exists i j a b,
    In i [1; 2] /\ In j [1; 2] /\
    nth_error [1 # 2; 1 # 2; 17 # 10]%Q i = Some a /\
    nth_error [1 # 2; 1 # 2; 17 # 10]%Q j = Some b /\ ~ (a == b)%Q.
Proof.
  split; [reflexivity|].
  apply (@bootstrap_returns_two_distinct_outcomes
           toy 3 [1 # 2; 1 # 2; 17 # 10]%Q 2 false 0 2 [1; 2]).
  reflexivity.
Defined.

(** ** Inversion of method bodies *)

Section MonadFacts.
Context {E : Externals}.

Lemma bind_Ok {A B} (c : M A) (k : A -> M B) h b h' :
  bind c k h = (Ok b, h') ->
  exists a h1, c h = (Ok a, h1) /\ k a h1 = (Ok b, h').
Proof.
  unfold bind. destruct (c h) as [[a|e] h1]; [eauto | discriminate].
Qed.

Lemma lift_Ok {A} (r : result A) h a h' :
  lift r h = (Ok a, h') -> r = Ok a /\ h' = h.
Proof. unfold lift. intros H. inversion H. auto. Qed.

Lemma ret_Ok {A} (x : A) h a h' :
  ret x h = (Ok a, h') -> a = x /\ h' = h.
Proof. unfold ret. intros H. inversion H. auto. Qed.

Lemma getattr_Ok name h v h' :
  getattr name h = (Ok v, h') -> attrs h !! name = Some v /\ h' = h.
Proof.
  unfold getattr, lookup_attr. intros H.
  destruct (attrs h !! name); inversion H. auto.
Qed.

Lemma setattr_Ok name v h u h' :
  setattr name v h = (Ok u, h') ->
  h' = {| attrs := <[name := v]> (attrs h); glob := glob h |}.
Proof. unfold setattr. intros H. inversion H. reflexivity. Qed.

Lemma with_global_result_Ok {A} (f : global_state -> result A * global_state)
    h a h' :
  with_global_result f h = (Ok a, h') ->
  exists g, f (glob h) = (Ok a, g) /\ h' = {| attrs := attrs h; glob := g |}.
Proof.
  unfold with_global_result. destruct (f (glob h)) as [r g] eqn:Hf.
  intros H. inversion H; subst. eauto.
Qed.

Lemma with_global_Ok {A} (f : global_state -> A * global_state) h a h' :
  with_global f h = (Ok a, h') ->
  exists g, f (glob h) = (a, g) /\ h' = {| attrs := attrs h; glob := g |}.
Proof.
  unfold with_global. destruct (f (glob h)) as [r g] eqn:Hf.
  intros H. inversion H; subst. eauto.
Qed.

End MonadFacts.

Ltac inv_M :=
  repeat match goal with
    | H : bind _ _ _ = (Ok _, _) |- _ =>
        apply bind_Ok in H as (? & ? & ? & H); cbv beta in *
    | H : lift _ _ = (Ok _, _) |- _ => apply lift_Ok in H as [? ?]; subst
    | H : ret _ _ = (Ok _, _) |- _ => apply ret_Ok in H as [? ?]; subst
    | H : getattr _ _ = (Ok _, _) |- _ => apply getattr_Ok in H as [? ?]; subst
    | H : setattr _ _ _ = (Ok _, _) |- _ => apply setattr_Ok in H; subst
    | H : with_global_result _ _ = (Ok _, _) |- _ =>
        apply with_global_result_Ok in H as (? & ? & ?); subst
    | H : with_global _ _ = (Ok _, _) |- _ =>
        apply with_global_Ok in H as (? & ? & ?); subst
    end.

(** ** Column updates *)

Lemma set_column_Ok M idx v M' :
  set_column M idx v = Ok M' ->
  length v = length M /\
  Forall (fun row => idx < length row) M /\
  M' = map (fun rx => <[idx := snd rx]> (fst rx)) (combine M v).
Proof.
  unfold set_column.
  destruct (forallb (fun row => idx <? length row) M) eqn:Hall; simpl;
    [|discriminate].
  destruct (length v =? length M) eqn:Hlen; [|discriminate].
  intros H. inversion H; subst. apply Nat.eqb_eq in Hlen.
  repeat split; [assumption|].
  apply Forall_forall. intros row Hrow.
  rewrite forallb_forall in Hall. apply Nat.ltb_lt. apply Hall.
  apply list_elem_of_In. assumption.
Qed.

Lemma combine_map_seq_imap {A} (g : nat -> Q) (f : list A -> Q -> list A)
    (rows : list (list A)) s :
  map (fun rx => f (fst rx) (snd rx))
      (combine rows (map g (seq s (length rows))))
  = imap (fun j row => f row (g (s + j))) rows.
Proof.
  revert s. induction rows as [|row rows IH]; intros s; simpl; [reflexivity|].
  rewrite Nat.add_0_r. f_equal.
  rewrite IH. apply imap_ext. intros i x _. simpl. f_equal. f_equal. lia.
Qed.

Lemma mean_axis0_selection B :
  mean_axis0 B = map (selection_fraction B) (seq 0 (shape1 B)).
Proof. reflexivity. Qed.

Lemma selection_fraction_firstn masks n j :
  j < n ->
  selection_fraction (map (firstn n) masks) j = selection_fraction masks j.
Proof.
  intros Hj. unfold selection_fraction.
  rewrite length_map, map_map.
  do 4 f_equal. apply map_ext. intros m.
  revert j Hj m. induction n as [|n IH]; intros j Hj m; [lia|].
  destruct m as [|b m]; destruct j as [|j]; simpl; try reflexivity.
  apply IH. lia.
Qed.

Lemma selection_fraction_skipn masks n j :
  selection_fraction (map (skipn n) masks) j = selection_fraction masks (n + j).
Proof.
  unfold selection_fraction.
  rewrite length_map, map_map.
  do 4 f_equal. apply map_ext. intros m.
  revert m. induction n as [|n IH]; intros m; simpl; [reflexivity|].
  destruct m as [|b m]; simpl; [destruct j; reflexivity | apply IH].
Qed.

Section PathFacts.
Context {E : Externals}.

Lemma update_column_Ok name idx (g : nat -> Q) L h u h' :
  update_column name idx (map g (seq 0 L)) h = (Ok u, h') ->
  exists rows,
    attrs h !! name = Some (PyArray2 rows) /\
    L = length rows /\
    Forall (fun row => idx < length row) rows /\
    h' = {| attrs :=
              <[name := PyArray2 (imap (fun j row => <[idx := g j]> row) rows)]>
                (attrs h);
            glob := glob h |}.
Proof.
  unfold update_column. intros H. inv_M.
  match goal with
  | Ha : as_array2 ?x = Ok ?r, Hs : set_column _ _ _ = Ok _ |- _ =>
      destruct x; try discriminate Ha; inversion Ha; subst;
      apply set_column_Ok in Hs as (Hlen & Hall & ->)
  end.
  rewrite length_map, length_seq in Hlen. subst L.
  eexists. repeat split; try eassumption.
  do 3 f_equal.
  match goal with
  | |- _ = imap _ ?rows =>
      apply (combine_map_seq_imap g (fun row x => <[idx := x]> row) rows 0)
  end.
Qed.

Lemma draw_bootstraps_length n depth y n_subsamples replace rng batch :
  draw_bootstraps n depth y n_subsamples replace rng = Ok batch ->
  length batch = n.
Proof.
  revert rng batch. induction n as [|n IH]; intros rng batch H; simpl in H.
  - inversion H. reflexivity.
  - destruct (bootstrap depth y n_subsamples replace rng) as [[s|e] rng1];
      [|discriminate].
    apply rbind_Ok in H as (rest & Hrest & H). inversion H; subst.
    simpl. f_equal. eauto.
Qed.

Lemma vstack_Ok masks stacked :
  vstack masks = Ok stacked -> stacked = masks /\ masks <> [].
Proof.
  unfold vstack. destruct masks as [|m masks]; [discriminate|].
  destruct (forallb _ _); [|discriminate].
  intros H. inversion H. split; [reflexivity | discriminate].
Qed.

Lemma stacked_mean_Ok masks (slice : list bool -> list bool) v :
  rbind (vstack masks) (fun stacked => Ok (mean_axis0 (map slice stacked))) = Ok v ->
  masks <> [] /\
  v = map (selection_fraction (map slice masks))
          (seq 0 (shape1 (map slice masks))).
Proof.
  intros H. apply rbind_Ok in H as (stacked & Hst & Hv).
  apply vstack_Ok in Hst as [-> Hne]. inversion Hv. auto.
Qed.

(** What one iteration of the loop does. *)
Lemma fit_iteration_Ok self depth X y n_features n_subsamples idx lambda_value
    h batch masks h' :
  fit_iteration self depth X y n_features n_subsamples idx lambda_value h
    = (Ok (batch, masks), h') ->
  draw_bootstraps (Z.to_nat (n_bootstraps self)) depth y n_subsamples
    (replace self) (fst (default_rng (random_state self) (glob h))) = Ok batch /\
  glob h' = snd (default_rng (random_state self) (glob h)) /\
  length masks = length batch /\ masks <> [] /\
  (exists rows,
     attrs h !! "stability_scores_" = Some (PyArray2 rows) /\
     length rows <= n_features /\
     Forall (fun row => idx < length row) rows /\
     attrs h' !! "stability_scores_" =
       Some (PyArray2 (imap (fun j row => <[idx := selection_fraction masks j]> row)
                            rows))) /\
  match artificial_type self with
  | Some _ =>
      exists arows,
        attrs h !! "stability_scores_artificial_" = Some (PyArray2 arows) /\
        Forall (fun row => idx < length row) arows /\
        attrs h' !! "stability_scores_artificial_" =
          Some (PyArray2
                  (imap (fun j row =>
                           <[idx := selection_fraction masks (n_features + j)]> row)
                        arows))
  | None =>
      attrs h' !! "stability_scores_artificial_"
      = attrs h !! "stability_scores_artificial_"
  end /\
  (forall name, name <> "stability_scores_" ->
                name <> "stability_scores_artificial_" ->
                attrs h' !! name = attrs h !! name).
Proof.
  unfold fit_iteration, Parallel. intros H. inv_M.
  match goal with Hp : (batch, masks) = _ |- _ => inversion Hp; subst; clear Hp end.
  match goal with
  | Hg : _bootstraps_generator _ _ _ _ _ _ _ = _ |- _ =>
      unfold _bootstraps_generator in Hg;
      destruct (default_rng (random_state self) (glob h)) as [rng g1] eqn:Hrng;
      inversion Hg as [[Hdraw Hg1]]; subst; clear Hg
  end.
  match goal with Hm : rmap _ _ = Ok _ |- _ => apply rmap_length in Hm as Hlen end.
  match goal with
  | Hv : rbind (vstack _) _ = Ok _ |- _ =>
      apply stacked_mean_Ok in Hv as [Hne ->]
  end.
  match goal with
  | Hu : update_column "stability_scores_" _ _ _ = _ |- _ =>
      apply update_column_Ok in Hu as (rows & Hrows & HL & Hall & ->)
  end.
  simpl.
  assert (length rows <= n_features) as Hle.
  { rewrite <- HL. destruct x1 as [|m ms]; [congruence|]. simpl.
    rewrite length_firstn. lia. }
  assert (imap (fun j row =>
                  <[idx := selection_fraction (map (firstn n_features) x1) j]> row) rows
          = imap (fun j row => <[idx := selection_fraction x1 j]> row) rows)
    as ->.
  { apply imap_ext. intros j row Hj. simpl.
    rewrite selection_fraction_firstn; [reflexivity|].
    apply lookup_lt_Some in Hj. lia. }
  rewrite lookup_insert_eq.
  destruct (artificial_type self) as [ty|]; inv_M.
  - match goal with
    | Hv : rbind (vstack _) _ = Ok _ |- _ =>
        apply stacked_mean_Ok in Hv as [_ ->]
    end.
    match goal with
    | Hu : update_column _ _ _ _ = _ |- _ =>
        apply update_column_Ok in Hu as (arows & Harows & HLa & Halla & ->)
    end.
    simpl in *.
    assert (imap (fun j row =>
                    <[idx := selection_fraction (map (skipn n_features) x1) j]> row) arows
            = imap (fun j row =>
                      <[idx := selection_fraction x1 (n_features + j)]> row) arows)
      as Himap.
    { apply imap_ext. intros j row Hj. simpl.
      rewrite selection_fraction_skipn. reflexivity. }
    rewrite Himap in *. clear Himap.
    rewrite lookup_insert_ne in Hrows by discriminate.
    repeat split; try assumption.
    + exists rows. auto.
    + exists arows. repeat split; try assumption.
      rewrite lookup_insert_ne by discriminate. apply lookup_insert_eq.
    + intros name Hn1 Hn2.
      rewrite lookup_insert_ne by congruence.
      rewrite lookup_insert_ne by congruence. reflexivity.
  - simpl in *.
    repeat split; try assumption.
    + exists rows. auto.
    + rewrite lookup_insert_ne by discriminate. reflexivity.
    + intros name Hn1 Hn2.
      rewrite lookup_insert_ne by congruence. reflexivity.
Qed.

End PathFacts.

Lemma imap_imap_fuse {A B C} (f : nat -> B -> C) (g : nat -> A -> B) (l : list A) :
  imap f (imap g l) = imap (fun j x => f j (g j x)) l.
Proof.
  apply list_eq. intros i. rewrite !list_lookup_imap.
  destruct (l !! i); reflexivity.
Qed.

Lemma Forall_imap_insert (P : nat -> Prop) (g : nat -> Q) idx
    (rows : list (list Q)) :
  Forall (fun row => P (length row))
         (imap (fun j row => <[idx := g j]> row) rows) ->
  Forall (fun row => P (length row)) rows.
Proof.
  rewrite !Forall_lookup. intros H i row Hi.
  specialize (H i (<[idx := g i]> row)).
  rewrite list_lookup_imap, Hi in H. simpl in H.
  rewrite length_insert in H. auto.
Qed.

Lemma iter_shift {A} (f : A -> A) n x : Nat.iter n f (f x) = f (Nat.iter n f x).
Proof. symmetry. apply (Nat.iter_succ_r n f x). Qed.

Section LoopFacts.
Context {E : Externals}.
Variables (self : params) (depth : nat) (X : list (list Q)) (y : list Q).
Variables (n_features n_subsamples : nat).

#[local] Abbreviation next := (next_global (random_state self)).

Lemma fit_loop_Ok grid h trace h' :
  fit_loop self depth X y n_features n_subsamples grid h = (Ok trace, h') ->
  let ups := combine (map fst grid) (map snd trace) in
  length trace = length grid /\
  glob h' = Nat.iter (length grid) next (glob h) /\
  (forall k batch masks,
      trace !! k = Some (batch, masks) ->
      draw_bootstraps (Z.to_nat (n_bootstraps self)) depth y n_subsamples
        (replace self)
        (fst (default_rng (random_state self) (Nat.iter k next (glob h))))
      = Ok batch /\
      length masks = length batch /\ masks <> []) /\
  (forall rows,
      attrs h !! "stability_scores_" = Some (PyArray2 rows) ->
      Forall (fun idx => Forall (fun row => idx < length row) rows) (map fst grid) /\
      attrs h' !! "stability_scores_" =
        Some (PyArray2 (imap (fun j row => column_writes 0 j ups row) rows))) /\
  match artificial_type self with
  | Some _ =>
      forall arows,
        attrs h !! "stability_scores_artificial_" = Some (PyArray2 arows) ->
        Forall (fun idx => Forall (fun row => idx < length row) arows)
               (map fst grid) /\
        attrs h' !! "stability_scores_artificial_" =
          Some (PyArray2 (imap (fun j row => column_writes n_features j ups row)
                               arows))
  | None =>
      attrs h' !! "stability_scores_artificial_"
      = attrs h !! "stability_scores_artificial_"
  end /\
  (forall name, name <> "stability_scores_" ->
                name <> "stability_scores_artificial_" ->
                attrs h' !! name = attrs h !! name).
Proof.
  revert h trace h'. induction grid as [|[idx lambda_value] grid IH];
    intros h trace h' H; simpl in H.
  - inv_M. cbv zeta. cbn [map combine length Nat.iter].
    assert (forall off (l : list (list Q)),
               imap (fun j row => column_writes off j [] row) l = l) as Hid.
    { intros off l. apply list_eq. intros i. rewrite list_lookup_imap.
      destruct (l !! i); reflexivity. }
    split; [reflexivity|]. split; [reflexivity|].
    split; [intros k batch masks Hk; destruct k; discriminate|].
    split; [intros rows Hrows; rewrite Hid; split; [constructor | assumption]|].
    split; [|reflexivity].
    destruct (artificial_type self); [|reflexivity].
    intros arows Ha. rewrite Hid. split; [constructor | assumption].
  - inv_M.
    match goal with
    | Hi : fit_iteration _ _ _ _ _ _ _ _ _ = (Ok ?t, _) |- _ =>
        destruct t as [batch0 masks0];
        apply fit_iteration_Ok in Hi
          as (Hdraw & Hglob & Hlen & Hne & (rows0 & Hrows0 & _ & Hall0 & Hrows1)
              & Hart & Hframe)
    end.
    match goal with
    | Hl : fit_loop _ _ _ _ _ _ _ _ = _ |- _ =>
        apply IH in Hl as (IHlen & IHglob & IHtrace & IHrows & IHart & IHframe)
    end.
    change (snd (default_rng (random_state self) (glob h)))
      with (next (glob h)) in Hglob.
    cbv zeta. cbn [map combine length fst snd Nat.iter].
    split; [simpl; congruence|].
    split; [rewrite IHglob, Hglob, iter_shift; reflexivity|].
    split.
    { intros k batch masks Hk.
      destruct k as [|k]; simpl in Hk; [inversion Hk; subst; auto|].
      apply IHtrace in Hk as (Hd & Hl & Hn). rewrite Hglob in Hd.
      rewrite iter_shift in Hd. auto. }
    split.
    { intros rows Hrows. rewrite Hrows0 in Hrows. inversion Hrows; subst.
      destruct (IHrows _ Hrows1) as [Hb Hfin]. split.
      - constructor; [assumption|].
        eapply Forall_impl; [exact Hb|]. intros i Hi. simpl in Hi.
        apply (Forall_imap_insert (fun n => i < n)) in Hi. exact Hi.
      - rewrite Hfin. rewrite imap_imap_fuse. reflexivity. }
    split.
    { destruct (artificial_type self) as [ty|].
      - destruct Hart as (arows0 & Harows0 & Halla & Harows1).
        intros arows Ha. rewrite Harows0 in Ha. inversion Ha; subst.
        destruct (IHart _ Harows1) as [Hb Hfin]. split.
        + constructor; [assumption|].
          eapply Forall_impl; [exact Hb|]. intros i Hi. simpl in Hi.
          apply (Forall_imap_insert (fun n => i < n)) in Hi. exact Hi.
        + rewrite Hfin. rewrite imap_imap_fuse. reflexivity.
      - congruence. }
    intros name Hn1 Hn2. rewrite IHframe, Hframe by assumption. reflexivity.
Qed.

End LoopFacts.

(** ** The rows written by the loop *)

Lemma column_writes_length off j ups row :
  length (column_writes off j ups row) = length row.
Proof.
  unfold column_writes. revert row.
  induction ups as [|u ups IH]; intros row; simpl; [reflexivity|].
  rewrite IH. apply length_insert.
Qed.

Lemma column_writes_other off j ups row idx :
  ~ In idx (map fst ups) ->
  column_writes off j ups row !! idx = row !! idx.
Proof.
  unfold column_writes. revert row.
  induction ups as [|u ups IH]; intros row Hnot; simpl; [reflexivity|].
  rewrite IH by (intros Hin; apply Hnot; right; exact Hin).
  apply list_lookup_insert_ne. intros Heq. apply Hnot. left. exact Heq.
Qed.

Lemma column_writes_lookup off j ups row k idx masks :
  List.NoDup (map fst ups) ->
  ups !! k = Some (idx, masks) ->
  idx < length row ->
  column_writes off j ups row !! idx = Some (selection_fraction masks (off + j)).
Proof.
  revert row k. induction ups as [|u ups IH]; intros row k Hnd Hk Hlt.
  - destruct k; discriminate.
  - inversion Hnd as [|? ? Hnotin Hnd']; subst.
    destruct k as [|k]; simpl in Hk.
    + inversion Hk; subst.
      change (column_writes off j ((idx, masks) :: ups) row)
        with (column_writes off j ups
                (<[idx := selection_fraction masks (off + j)]> row)).
      rewrite column_writes_other by exact Hnotin.
      apply list_lookup_insert_eq. exact Hlt.
    + change (column_writes off j (u :: ups) row)
        with (column_writes off j ups
                (<[fst u := selection_fraction (snd u) (off + j)]> row)).
      eapply IH; [exact Hnd' | exact Hk |].
      rewrite length_insert. exact Hlt.
Qed.

Lemma zeros_lookup n m j row :
  zeros n m !! j = Some row -> row = repeat 0%Q m.
Proof.
  unfold zeros. intros H. apply list_elem_of_lookup_2 in H.
  apply list_elem_of_In in H. apply repeat_spec in H. exact H.
Qed.

Lemma length_zeros n m : length (zeros n m) = n.
Proof. apply repeat_length. Qed.

Lemma enumerate_fst {A} (l : list A) : map fst (enumerate l) = seq 0 (length l).
Proof.
  unfold enumerate. generalize 0.
  induction l as [|a l IH]; intros s; simpl; [reflexivity|].
  f_equal. apply IH.
Qed.

Lemma length_enumerate {A} (l : list A) : length (enumerate l) = length l.
Proof. unfold enumerate. rewrite length_combine, length_seq. lia. Qed.

Lemma combine_lookup {A B} (l1 : list A) (l2 : list B) k a b :
  l1 !! k = Some a -> l2 !! k = Some b -> combine l1 l2 !! k = Some (a, b).
Proof.
  revert l2 k. induction l1 as [|x l1 IH]; intros l2 k H1 H2.
  - destruct k; discriminate.
  - destruct l2 as [|z l2]; [destruct k; discriminate|].
    destruct k as [|k]; simpl in *.
    + inversion H1; inversion H2; reflexivity.
    + apply IH; assumption.
Qed.

Section FitPathFacts.
Context {E : Externals}.

Lemma _make_artificial_features_Ok X ty nb_noise rs h X' h' :
  _make_artificial_features X ty nb_noise rs h = (Ok X', h') ->
  exists X_artificial g,
    h' = {| attrs := <["X_artificial_" := PyArray2 X_artificial]> (attrs h);
            glob := g |}.
Proof.
  unfold _make_artificial_features. intros H. inv_M.
  destruct (String.eqb ty "random_permutation").
  - destruct (choice _ _ _ _) as [indices rng1]. inv_M.
    destruct (shuffle_columns _ _) as [cols rng2]. inv_M.
    simpl. eauto.
  - destruct (String.eqb ty "knockoff"); [|discriminate].
    inv_M. destruct (choice _ _ _ _) as [indices rng1]. inv_M.
    simpl. eauto.
Qed.

Lemma scores_of_trace_writes off grid_idx trace rows m :
  grid_idx = seq 0 (length trace) ->
  (forall j row, rows !! j = Some row -> row = repeat 0%Q m) ->
  m = length trace ->
  scores_of_trace off trace
    (imap (fun j row =>
             column_writes off j (combine grid_idx (map snd trace)) row) rows).
Proof.
  intros -> Hrows ->. intros j row Hj.
  rewrite list_lookup_imap in Hj.
  destruct (rows !! j) as [row0|] eqn:Hrow0; [|discriminate].
  simpl in Hj. inversion Hj; subst; clear Hj.
  apply Hrows in Hrow0. subst row0.
  rewrite column_writes_length, repeat_length. split; [reflexivity|].
  intros k batch masks Hk.
  assert (k < length trace) as Hlt by (eapply lookup_lt_Some; exact Hk).
  eapply column_writes_lookup with (k := k).
  - assert (length (combine (seq 0 (length trace)) (map snd trace))
            = length trace) as Hlen.
    { rewrite length_combine, length_seq, length_map. lia. }
    assert (map fst (combine (seq 0 (length trace)) (map snd trace))
            = seq 0 (length trace)) as ->.
    { generalize 0. clear. induction trace as [|t trace IH]; intros s; simpl;
        [reflexivity | f_equal; apply IH]. }
    apply seq_NoDup.
  - apply combine_lookup.
    + apply lookup_seq. auto.
    + rewrite list_lookup_fmap, Hk. reflexivity.
  - rewrite repeat_length. exact Hlt.
Qed.

(** What the stability path loop of [fit] leaves behind. *)
Lemma fit_path_Ok self depth X y h trace h1 :
  fit_path self depth X y h = (Ok trace, h1) ->
  _validate_input self = Ok tt /\
  length trace = length (lambda_grid self) /\
  (exists g0,
      forall k batch masks,
        trace !! k = Some (batch, masks) ->
        draw_bootstraps (Z.to_nat (n_bootstraps self)) depth y
          (Z.to_nat (Qfloor (sample_fraction self * inject_Z (Z.of_nat (length X)))))
          (replace self)
          (fst (default_rng (random_state self)
                  (Nat.iter k (next_global (random_state self)) g0)))
        = Ok batch /\
        length masks = length batch /\ masks <> []) /\
  (exists rows,
      attrs h1 !! "stability_scores_" = Some (PyArray2 rows) /\
      length rows = shape1 X /\
      scores_of_trace 0 trace rows) /\
  match artificial_type self with
  | Some _ =>
      exists arows,
        attrs h1 !! "stability_scores_artificial_" = Some (PyArray2 arows) /\
        scores_of_trace (shape1 X) trace arows
  | None =>
      attrs h1 !! "stability_scores_artificial_"
      = attrs h !! "stability_scores_artificial_"
  end.
Proof.
  unfold fit_path, _validate_data_fit. intros H. inv_M.
  destruct (well_shaped X && (length y =? length X)) eqn:Hshape; [|discriminate].
  inv_M.
  match goal with
  | Hl : fit_loop _ _ _ _ _ _ _ _ = _ |- _ =>
      apply fit_loop_Ok in Hl as (Hlen & Hglob & Htrace & Hrows & Hart & Hframe)
  end.
  rewrite length_enumerate in Hlen.
  rewrite enumerate_fst in *.
  split; [destruct (_validate_input self) as [[]|]; congruence|].
  split; [assumption|].
  split; [eexists; exact Htrace|].
  destruct (artificial_type self) as [ty|]; inv_M.
  - match goal with
    | Hm : _make_artificial_features _ _ _ _ _ = _ |- _ =>
        apply _make_artificial_features_Ok in Hm as (Xa & g & ->)
    end.
    simpl in *. split.
    + destruct (Hrows (zeros (shape1 X) (length (lambda_grid self))))
        as [_ Hfin].
      { rewrite lookup_insert_ne by discriminate.
        rewrite lookup_insert_ne by discriminate.
        apply lookup_insert_eq. }
      eexists. split; [exact Hfin|]. split.
      * rewrite length_imap. apply length_zeros.
      * rewrite <- Hlen. eapply scores_of_trace_writes;
          [reflexivity | intros j row Hj; eapply zeros_lookup; exact Hj | congruence].
    + destruct (Hart (zeros
                 (Z.to_nat (Qfloor (inject_Z (Z.of_nat (shape1 X))
                                    * artificial_proportion self)))
                 (length (lambda_grid self)))) as [_ Hfin].
      { rewrite lookup_insert_ne by discriminate.
        apply lookup_insert_eq. }
      eexists. split; [exact Hfin|].
      rewrite <- Hlen. eapply scores_of_trace_writes;
        [reflexivity | intros j row Hj; eapply zeros_lookup; exact Hj | congruence].
  - simpl in *. split.
    + destruct (Hrows (zeros (shape1 X) (length (lambda_grid self))))
        as [_ Hfin].
      { apply lookup_insert_eq. }
      eexists. split; [exact Hfin|]. split.
      * rewrite length_imap. apply length_zeros.
      * rewrite <- Hlen. eapply scores_of_trace_writes;
          [reflexivity | intros j row Hj; eapply zeros_lookup; exact Hj | congruence].
    + rewrite Hart. rewrite lookup_insert_ne by discriminate.
      rewrite lookup_insert_ne by discriminate. reflexivity.
Qed.

End FitPathFacts.

(** ** Fractions lie between 0 and 1 *)

Lemma count_true_le (mask : list bool) : count_true mask <= length mask.
Proof.
  induction mask as [|b mask IH]; simpl; [lia|]. destruct b; lia.
Qed.

Lemma selection_fraction_bounds masks j :
  (0 <= selection_fraction masks j /\ selection_fraction masks j <= 1)%Q.
Proof.
  unfold selection_fraction.
  pose proof (count_true_le (map (fun m => nth j m false) masks)) as Hle.
  rewrite length_map in Hle.
  set (c := count_true _) in *. set (n := length masks) in *.
  destruct n as [|n].
  - assert (c = 0) as -> by lia. split; compute; discriminate.
  - assert (0 < inject_Z (Z.of_nat (S n)))%Q as Hpos.
    { change 0%Q with (inject_Z 0). rewrite <- Zlt_Qlt. lia. }
    split.
    + apply Qle_shift_div_l; [exact Hpos|].
      rewrite Qmult_0_l. change 0%Q with (inject_Z 0).
      rewrite <- Zle_Qle. lia.
    + apply Qle_shift_div_r; [exact Hpos|].
      rewrite Qmult_1_l. rewrite <- Zle_Qle. lia.
Qed.

Lemma scores_of_trace_bounds off trace rows row s :
  scores_of_trace off trace rows ->
  In row rows -> In s row -> (0 <= s /\ s <= 1)%Q.
Proof.
  intros Hsc Hrow Hs.
  apply list_elem_of_In, list_elem_of_lookup in Hrow as [j Hj].
  apply list_elem_of_In, list_elem_of_lookup in Hs as [k Hk].
  destruct (Hsc j row Hj) as [Hlen Hval].
  assert (k < length trace) as Hlt.
  { rewrite <- Hlen. eapply lookup_lt_Some. exact Hk. }
  apply lookup_lt_is_Some in Hlt as [[batch masks] Ht].
  rewrite (Hval k batch masks Ht) in Hk. inversion Hk; subst.
  apply selection_fraction_bounds.
Qed.

(** ** Validation and the controller *)

Section FitFacts.
Context {E : Externals}.

Lemma _validate_input_Ok self u :
  _validate_input self = Ok u ->
  (0 < n_bootstraps self)%Z /\
  (forall t, threshold self = Some t -> in_unit_interval t = true) /\
  (threshold self = None -> artificial_type self <> None) /\
  (artificial_type self <> None ->
   in_unit_interval (artificial_proportion self) = true).
Proof.
  unfold _validate_input.
  destruct (n_bootstraps self <=? 0)%Z eqn:Hn; [discriminate|].
  destruct (negb (Qgtb (sample_fraction self) 0)); [discriminate|].
  destruct (threshold self) as [t|] eqn:Ht.
  - destruct (negb (in_unit_interval t)) eqn:Hin; [discriminate|].
    destruct (artificial_type self) as [ty|].
    + destruct (negb (in_unit_interval (artificial_proportion self))) eqn:Hap;
        [discriminate|].
      intros _. apply Z.leb_gt in Hn. apply negb_false_iff in Hin, Hap.
      repeat split; try assumption; try congruence.
    + intros _. apply Z.leb_gt in Hn. apply negb_false_iff in Hin.
      repeat split; try assumption; try congruence.
  - destruct (artificial_type self) as [ty|]; [|discriminate].
    destruct (negb (in_unit_interval (artificial_proportion self))) eqn:Hap;
      [discriminate|].
    intros _. apply Z.leb_gt in Hn. apply negb_false_iff in Hap.
    repeat split; try assumption; try congruence.
Qed.

Lemma _compute_FDRc_Ok self h u h' :
  _compute_FDRc self h = (Ok u, h') ->
  exists a s max_scores_artificial max_scores min_fdr final_cutoff,
    attrs h !! "stability_scores_artificial_" = Some a /\
    np_max_axis1 a = Ok max_scores_artificial /\
    attrs h !! "stability_scores_" = Some s /\
    np_max_axis1 s = Ok max_scores /\
    let FDPs :=
      map (FDP_at (artificial_proportion self) max_scores max_scores_artificial)
          (fdr_threshold_range self) in
    np_min FDPs = Ok min_fdr /\
    (if Qgtb min_fdr 1 then final_cutoff = 1%Q
     else exists i t,
         np_argmin FDPs = Ok i /\
         nth_error (fdr_threshold_range self) i = Some t /\
         final_cutoff = Qmin t 1) /\
    h' = {| attrs :=
              <["fdr_min_threshold_" := PyFloat final_cutoff]>
              (<["min_fdr_" := PyFloat min_fdr]>
              (<["FDRs_" := PyList FDPs]> (attrs h)));
            glob := glob h |}.
Proof.
  unfold _compute_FDRc. intros H. inv_M. simpl in *.
  do 6 eexists.
  split; [eassumption|]. split; [eassumption|].
  split; [eassumption|]. split; [eassumption|].
  split; [eassumption|].
  match goal with
  | Hc : (if Qgtb ?m 1 then _ else _) _ = (Ok ?c, _) |- _ =>
      destruct (Qgtb m 1); inv_M
  end.
  - split; reflexivity.
  - split; [|reflexivity].
    match goal with
    | Hn : match nth_error ?l ?i with _ => _ end = Ok ?t |- _ =>
        destruct (nth_error l i) as [t'|] eqn:Hnth; inversion Hn; subst
    end.
    eauto.
Qed.

Lemma fit_Ok self depth X y h u h' :
  fit self depth X y h = (Ok u, h') ->
  exists trace h1 rows max_scores,
    fit_path self depth X y h = (Ok trace, h1) /\
    attrs h1 !! "stability_scores_" = Some (PyArray2 rows) /\
    np_max_axis1 (PyArray2 rows) = Ok max_scores /\
    match artificial_type self with
    | Some _ => _compute_FDRc self h1 = (Ok u, h')
    | None => h' = h1
    end.
Proof.
  unfold fit. intros H. inv_M.
  match goal with
  | Hp : fit_path _ _ _ _ _ = (Ok ?t, ?h1) |- _ =>
      pose proof (fit_path_Ok _ _ _ _ _ _ _ Hp) as (_ & _ & _ & (rows & Hrows & _) & _);
      exists t, h1, rows
  end.
  match goal with
  | Hg : attrs _ !! "stability_scores_" = Some ?v, Hm : np_max_axis1 ?v = Ok ?ms |- _ =>
      rewrite Hrows in Hg; inversion Hg; subst; exists ms
  end.
  repeat split; try assumption.
  destruct (artificial_type self); inv_M; [assumption | reflexivity].
Qed.

End FitFacts.

(** ** Stability scores *)

Section ScoreFacts.
Context {E : Externals}.

(** C8. After a fit, the entry of the stability scores matrix for feature
    [j] at grid point [k] is the fraction, among the [n_bootstraps] masks
    obtained at grid point [k], of those that select column [j]; likewise
    the artificial matrix for the synthetic columns, which sit after the
    real ones; every entry of either matrix lies in [0, 1]. *)
Theorem stability_scores_are_bounded_fractions
    (self : params) (depth : nat) (X : list (list Q)) (y : list Q)
    (h h' : heap) :
  fit self depth X y h = (Ok tt, h') ->
  exists trace rows,
    fst (fit_path self depth X y h) = Ok trace /\
    (forall k batch masks,
        trace !! k = Some (batch, masks) ->
        length masks = Z.to_nat (n_bootstraps self) /\
        (0 < n_bootstraps self)%Z) /\
    attrs h' !! "stability_scores_" = Some (PyArray2 rows) /\
    length rows = shape1 X /\
    scores_of_trace 0 trace rows /\
    (forall row s, In row rows -> In s row -> (0 <= s /\ s <= 1)%Q) /\
    (artificial_type self <> None ->
     exists arows,
       attrs h' !! "stability_scores_artificial_" = Some (PyArray2 arows) /\
       scores_of_trace (shape1 X) trace arows /\
       (forall row s, In row arows -> In s row -> (0 <= s /\ s <= 1)%Q)).
Proof.
  intros Hfit.
  apply fit_Ok in Hfit as (trace & h1 & rows & ms & Hpath & Hrows & Hms & Hfdr).
  pose proof (fit_path_Ok _ _ _ _ _ _ _ Hpath)
    as (Hval & Hlen & (g0 & Hdraw) & (rows' & Hrows' & Hnrows & Hsc) & Hart).
  rewrite Hrows in Hrows'. inversion Hrows'; subst rows'; clear Hrows'.
  apply _validate_input_Ok in Hval as (Hn & _).
  exists trace, rows.
  split; [rewrite Hpath; reflexivity|].
  split.
  { intros k batch masks Hk. apply Hdraw in Hk as (Hd & Hl & _).
    apply draw_bootstraps_length in Hd. split; [congruence | assumption]. }
  destruct (artificial_type self) as [ty|].
  - apply _compute_FDRc_Ok in Hfdr
      as (a & s & msa & ms' & mf & fc & _ & _ & _ & _ & _ & _ & ->).
    simpl. rewrite !lookup_insert_ne by discriminate.
    split; [assumption|]. split; [assumption|]. split; [assumption|].
    split; [intros row s0; apply scores_of_trace_bounds with (1 := Hsc)|].
    intros _. destruct Hart as (arows & Harows & Hasc).
    exists arows. split; [assumption|]. split; [assumption|].
    intros row s0. apply scores_of_trace_bounds with (1 := Hasc).
  - subst h'.
    split; [assumption|]. split; [assumption|]. split; [assumption|].
    split; [intros row s0; apply scores_of_trace_bounds with (1 := Hsc)|].
    intros Hne. congruence.
Qed.

End ScoreFacts.

Lemma stability_scores_are_bounded_fractions_witness :
  @fit toy path_params 5 path_X path_y (fresh 0)
  = (Ok tt, snd (@fit toy path_params 5 path_X path_y (fresh 0))) /\
  exists trace rows,
    fst (@fit_path toy path_params 5 path_X path_y (fresh 0)) = Ok trace /\
    (forall k batch masks,
        trace !! k = Some (batch, masks) ->
        length masks = Z.to_nat (n_bootstraps path_params) /\
        (0 < n_bootstraps path_params)%Z) /\
    attrs (snd (@fit toy path_params 5 path_X path_y (fresh 0)))
      !! "stability_scores_" = Some (PyArray2 rows) /\
    length rows = shape1 path_X /\
    scores_of_trace 0 trace rows /\
    (forall row s, In row rows -> In s row -> (0 <= s /\ s <= 1)%Q) /\
    (artificial_type path_params <> None ->
     exists arows,
       attrs (snd (@fit toy path_params 5 path_X path_y (fresh 0)))
         !! "stability_scores_artificial_" = Some (PyArray2 arows) /\
       scores_of_trace (shape1 path_X) trace arows /\
       (forall row s, In row arows -> In s row -> (0 <= s /\ s <= 1)%Q)).
Proof.
  split; [vm_compute; reflexivity|].
  apply (@stability_scores_are_bounded_fractions toy path_params 5 path_X path_y
           (fresh 0)).
  vm_compute. reflexivity.
Defined.

(** ** The selection interface on a fitted object *)

Lemma Qgtb_true x t : Qgtb x t = true <-> (t < x)%Q.
Proof.
  unfold Qgtb. rewrite negb_true_iff. split.
  - intros H. apply Qnot_le_lt. intros Hle.
    apply Qle_bool_iff in Hle. congruence.
  - intros H. destruct (Qle_bool x t) eqn:Hb; [|reflexivity].
    apply Qle_bool_iff in Hb. exfalso. eapply Qlt_not_le; eassumption.
Qed.

Lemma Qgtb_false x t : Qgtb x t = false <-> (x <= t)%Q.
Proof.
  unfold Qgtb. rewrite negb_false_iff. apply Qle_bool_iff.
Qed.

Lemma Qgtb_antitone x t1 t2 :
  (t1 <= t2)%Q -> Qgtb x t2 = true -> Qgtb x t1 = true.
Proof.
  rewrite !Qgtb_true. intros Hle Hlt. eapply Qle_lt_trans; eassumption.
Qed.

Lemma count_true_map_mono {A} (f g : A -> bool) (l : list A) :
  (forall x, f x = true -> g x = true) ->
  count_true (map f l) <= count_true (map g l).
Proof.
  intros Himp. induction l as [|x l IH]; simpl; [lia|].
  specialize (Himp x). destruct (f x), (g x); try lia.
Qed.

Lemma threshold_masks_nested (scores : list Q) t1 t2 :
  (t1 <= t2)%Q ->
  mask_subset (map (fun s => Qgtb s t2) scores) (map (fun s => Qgtb s t1) scores).
Proof.
  intros Hle. split; [rewrite !length_map; reflexivity|].
  intros j. revert j. induction scores as [|s scores IH]; intros j; simpl.
  - destruct j; discriminate.
  - destruct j as [|j]; [apply Qgtb_antitone; exact Hle | apply IH].
Qed.

Lemma support_mask_with_override self dict rows max_scores t :
  dict !! "stability_scores_" = Some (PyArray2 rows) ->
  np_max_axis1 (PyArray2 rows) = Ok max_scores ->
  _get_support_mask self dict (Some t) = Ok (map (fun s => Qgtb s t) max_scores).
Proof.
  intros Hrows Hmax. unfold _get_support_mask, check_is_fitted, lookup_attr.
  rewrite Hrows. simpl. simpl in Hmax. rewrite Hmax. reflexivity.
Qed.

Section SelectionFacts.
Context {E : Externals}.

Lemma fitted_max_scores self depth X y h u h' :
  fit self depth X y h = (Ok u, h') ->
  exists rows max_scores,
    attrs h' !! "stability_scores_" = Some (PyArray2 rows) /\
    np_max_axis1 (PyArray2 rows) = Ok max_scores.
Proof.
  intros Hfit.
  apply fit_Ok in Hfit as (trace & h1 & rows & ms & Hpath & Hrows & Hms & Hfdr).
  exists rows, ms. split; [|assumption].
  destruct (artificial_type self).
  - apply _compute_FDRc_Ok in Hfdr
      as (? & ? & ? & ? & ? & ? & _ & _ & _ & _ & _ & _ & ->).
    simpl. rewrite !lookup_insert_ne by discriminate. assumption.
  - subst. assumption.
Qed.

(** On a fitted object an override threshold of any value, inside or
    outside (0, 1], yields a mask. *)
Lemma get_support_override_returns self depth X y h u h' t :
  fit self depth X y h = (Ok u, h') ->
  exists mask, get_support self (attrs h') false (Some t) = Ok (Mask mask).
Proof.
  intros Hfit. apply fitted_max_scores in Hfit as (rows & ms & Hrows & Hms).
  unfold get_support.
  rewrite (support_mask_with_override self _ rows ms t Hrows Hms).
  simpl. eauto.
Qed.

(** C6. On a fitted object, raising the override threshold can only
    remove features from the mask of [get_support]: for [t1 <= t2] (in
    particular for two thresholds of (0, 1]) the mask at [t2] is contained
    in the mask at [t1] and selects at most as many features. *)
Theorem get_support_monotone_in_threshold
    (self : params) (depth : nat) (X : list (list Q)) (y : list Q)
    (h h' : heap) (t1 t2 : Q) :
  fit self depth X y h = (Ok tt, h') ->
  (t1 <= t2)%Q ->
  exists m1 m2,
    get_support self (attrs h') false (Some t1) = Ok (Mask m1) /\
    get_support self (attrs h') false (Some t2) = Ok (Mask m2) /\
    mask_subset m2 m1 /\
    count_true m2 <= count_true m1.
Proof.
  intros Hfit Hle.
  apply fitted_max_scores in Hfit as (rows & ms & Hrows & Hms).
  exists (map (fun s => Qgtb s t1) ms), (map (fun s => Qgtb s t2) ms).
  unfold get_support.
  rewrite !(support_mask_with_override self _ rows ms _ Hrows Hms). simpl.
  split; [reflexivity|]. split; [reflexivity|].
  split; [apply threshold_masks_nested; exact Hle|].
  apply count_true_map_mono. intros s. apply Qgtb_antitone. exact Hle.
Qed.

End SelectionFacts.

Lemma get_support_monotone_in_threshold_witness :
  @fit toy path_params 5 path_X path_y (fresh 0)
  = (Ok tt, snd (@fit toy path_params 5 path_X path_y (fresh 0))) /\
  (3 # 10 <= 3 # 4)%Q /\
  exists m1 m2,
    get_support path_params
      (attrs (snd (@fit toy path_params 5 path_X path_y (fresh 0))))
      false (Some (3 # 10)%Q) = Ok (Mask m1) /\
    get_support path_params
      (attrs (snd (@fit toy path_params 5 path_X path_y (fresh 0))))
      false (Some (3 # 4)%Q) = Ok (Mask m2) /\
    mask_subset m2 m1 /\
    count_true m2 <= count_true m1.
Proof.
  split; [vm_compute; reflexivity|].
  split; [vm_compute; discriminate|].
  apply (@get_support_monotone_in_threshold toy path_params 5 path_X path_y
           (fresh 0)).
  - vm_compute. reflexivity.
  - vm_compute. discriminate.
Defined.

(** C5 (not met by the code): an override threshold outside (0, 1] is to
    be refused with an error. On the object fitted from [path_params],
    [get_support] with the override 3/2 returns the empty mask and with
    the override -1/5 the full mask, [transform] returns the reduced
    matrices, and no exception is raised; [plot_stabl_path] refuses the
    same two values with [ValueError] before it calls [get_support]. *)
Theorem get_support_accepts_override_outside_unit_interval :
  let run := @fit toy path_params 5 path_X path_y (fresh 0) in
  let dict := attrs (snd run) in
  fst run = Ok tt /\
  get_support path_params dict false (Some (3 # 2)%Q) = Ok (Mask [false; false]) /\
  get_support path_params dict false (Some (- 1 # 5)%Q) = Ok (Mask [true; true]) /\
  get_support path_params dict true (Some (- 1 # 5)%Q) = Ok (Indices [0; 1]) /\
  transform path_params dict path_X (Some (3 # 2)%Q) = Ok [[]; []; []] /\
  transform path_params dict path_X (Some (- 1 # 5)%Q) = Ok path_X /\
  plot_stabl_path path_params dict (Some (3 # 2)%Q) = Raise ValueError /\
  plot_stabl_path path_params dict (Some (- 1 # 5)%Q) = Raise ValueError.
Proof. vm_compute. repeat split; reflexivity. Qed.

(** C3 (not met by the code): every read accessor of an object that has
    not been fitted is to fail with [NotFittedError]. [__init__] already creates
    [stability_scores_] (holding [None]), so [check_is_fitted] passes on a
    new object: reading the attribute gives [None], and [get_support] and
    [transform] go on to [np.max(None, axis=1)] and fail with [AxisError].
    After a fit that raised in [_make_artificial_features] (unknown
    [artificial_type]) the zero matrix is in place and [get_support] with
    an override returns a mask. *)
Theorem accessors_before_fit_do_not_raise_NotFitted :
  check_is_fitted __init__ "stability_scores_" = Ok tt /\
  lookup_attr __init__ "stability_scores_" = Ok PyNone /\
  get_support toy_params __init__ false None = Raise AxisError /\
  get_support toy_params __init__ false (Some (1 # 2)%Q) = Raise AxisError /\
  transform toy_params __init__ toy_X None = Raise AxisError /\
  let self := set_artificial_type (Some "gaussian") toy_params in
  let run := @fit toy self 5 toy_X toy_y (fresh 0) in
  fst run = Raise ValueError /\
  get_support self (attrs (snd run)) false (Some (1 # 2)%Q) = Ok (Mask [false]) /\
  get_support self (attrs (snd run)) false None = Raise TypeError.
Proof. vm_compute. repeat split; reflexivity. Qed.

(** ** Maxima, minima and sums *)

Lemma Qmax_cases x a : Qmax x a = x \/ Qmax x a = a.
Proof.
  unfold Qmax, GenericMinMax.gmax. destruct (x ?= a)%Q; auto.
Qed.

Lemma Qmin_cases x a : Qmin x a = x \/ Qmin x a = a.
Proof.
  unfold Qmin, GenericMinMax.gmin. destruct (x ?= a)%Q; auto.
Qed.

Lemma fold_left_Qmax_spec (r : list Q) (x : Q) :
  is_maximum (fold_left Qmax r x) (x :: r).
Proof.
  revert x. induction r as [|a r IH]; intros x; simpl.
  - split; [left; reflexivity|]. intros s [<-|[]]. apply Qle_refl.
  - destruct (IH (Qmax x a)) as [Hin Hub]. split.
    + destruct Hin as [Heq|Hin]; [|right; right; exact Hin].
      rewrite <- Heq.
      destruct (Qmax_cases x a) as [Hm|Hm]; rewrite Hm; simpl; auto.
    + intros s [<-|[<-|Hs]].
      * eapply Qle_trans; [apply Q.le_max_l | apply Hub; left; reflexivity].
      * eapply Qle_trans; [apply Q.le_max_r | apply Hub; left; reflexivity].
      * apply Hub. right. exact Hs.
Qed.

Lemma fold_left_Qmin_spec (r : list Q) (x : Q) :
  is_minimum (fold_left Qmin r x) (x :: r).
Proof.
  revert x. induction r as [|a r IH]; intros x; simpl.
  - split; [left; reflexivity|]. intros s [<-|[]]. apply Qle_refl.
  - destruct (IH (Qmin x a)) as [Hin Hlb]. split.
    + destruct Hin as [Heq|Hin]; [|right; right; exact Hin].
      rewrite <- Heq.
      destruct (Qmin_cases x a) as [Hm|Hm]; rewrite Hm; simpl; auto.
    + intros s [<-|[<-|Hs]].
      * eapply Qle_trans; [apply Hlb; left; reflexivity | apply Q.le_min_l].
      * eapply Qle_trans; [apply Hlb; left; reflexivity | apply Q.le_min_r].
      * apply Hlb. right. exact Hs.
Qed.

Lemma vector_max_Ok v m : vector_max v = Ok m -> is_maximum m v.
Proof.
  destruct v as [|x r]; simpl; [discriminate|].
  intros H. inversion H. apply fold_left_Qmax_spec.
Qed.

Lemma np_min_Ok v m : np_min v = Ok m -> is_minimum m v.
Proof.
  destruct v as [|x r]; simpl; [discriminate|].
  intros H. inversion H. apply fold_left_Qmin_spec.
Qed.

Lemma np_max_axis1_Ok rows ms :
  np_max_axis1 (PyArray2 rows) = Ok ms -> Forall2 (fun row m => is_maximum m row) rows ms.
Proof.
  simpl. revert ms. induction rows as [|row rows IH]; intros ms H.
  - inversion H. constructor.
  - apply rmap_Ok_cons in H as (m & ms' & -> & Hm & H).
    constructor; [apply vector_max_Ok; exact Hm | apply IH; exact H].
Qed.

Lemma argmin_from_spec (v pre : list Q) best best_i i :
  i = length pre ->
  pre !! best_i = Some best ->
  (forall g, In g pre -> (best <= g)%Q) ->
  (forall i' g, i' < best_i -> pre !! i' = Some g -> (best < g)%Q) ->
  first_argmin (pre ++ v)%list (argmin_from best best_i i v).
Proof.
  revert pre best best_i i.
  induction v as [|x v IH]; intros pre best best_i i Hi Hbest Hlb Hfirst; simpl.
  - rewrite app_nil_r. exists best. auto.
  - assert ((pre ++ x :: v) = ((pre ++ [x]) ++ v))%list as ->
        by (rewrite <- app_assoc; reflexivity).
    destruct (Qgtb best x) eqn:Hgt.
    + apply Qgtb_true in Hgt. apply IH.
      * rewrite length_app. simpl. lia.
      * subst i. rewrite lookup_app_r by lia.
        rewrite Nat.sub_diag. reflexivity.
      * intros g Hg. apply in_app_or in Hg as [Hg|[<-|[]]].
        -- apply Qlt_le_weak. eapply Qlt_le_trans; [exact Hgt | apply Hlb; exact Hg].
        -- apply Qle_refl.
      * intros i' g Hlt Hg. subst i.
        rewrite lookup_app_l in Hg by lia.
        eapply Qlt_le_trans; [exact Hgt|]. apply Hlb.
        apply list_elem_of_In. eapply list_elem_of_lookup_2. exact Hg.
    + apply Qgtb_false in Hgt. apply IH.
      * rewrite length_app. simpl. lia.
      * apply lookup_app_l_Some. exact Hbest.
      * intros g Hg. apply in_app_or in Hg as [Hg|[<-|[]]]; auto.
      * intros i' g Hlt Hg.
        assert (best_i < length pre) by (eapply lookup_lt_Some; exact Hbest).
        rewrite lookup_app_l in Hg by lia. eapply Hfirst; eassumption.
Qed.

Lemma np_argmin_Ok v i : np_argmin v = Ok i -> first_argmin v i.
Proof.
  destruct v as [|x r]; simpl; [discriminate|].
  intros H. inversion H.
  apply (argmin_from_spec r [x] x 0 1); try reflexivity.
  - intros g [<-|[]]. apply Qle_refl.
  - intros i' g Hlt. lia.
Qed.

Lemma fold_left_Qplus_acc (l : list Q) (a : Q) :
  (fold_left Qplus l a == a + fold_left Qplus l 0)%Q.
Proof.
  revert a. induction l as [|x l IH]; intros a; simpl.
  - ring.
  - rewrite (IH (a + x)%Q), (IH (0 + x)%Q). ring.
Qed.

Lemma np_sum_indicator (c : Q) (t : Q) (scores : list Q) :
  (np_sum (map (fun s => c * bool_to_Q (Qgtb s t)) scores)
   == c * inject_Z (Z.of_nat (count_true (map (fun s => Qgtb s t) scores))))%Q.
Proof.
  unfold np_sum. induction scores as [|s scores IH].
  - simpl. ring.
  - cbn [map fold_left count_true]. rewrite fold_left_Qplus_acc, IH.
    rewrite Nat2Z.inj_add, inject_Z_plus.
    destruct (Qgtb s t); simpl bool_to_Q; simpl Z.of_nat; ring.
Qed.

(** The loop body of [_compute_FDRc] computes the closed formula. *)
Lemma FDP_at_formula ap real_max synthetic_max t :
  (FDP_at ap real_max synthetic_max t
   == FDP_formula ap real_max synthetic_max t)%Q.
Proof.
  unfold FDP_at, FDP_formula.
  rewrite np_sum_indicator. rewrite Nat2Z.inj_max. reflexivity.
Qed.

(** ** The FDR controller after a fit *)

Lemma nth_error_lookup {A} (l : list A) i : l !! i = nth_error l i.
Proof.
  revert i. induction l as [|a l IH]; intros [|i]; simpl; auto.
Qed.

Section ControllerFacts.
Context {E : Externals}.

(** What a fit with synthetic features leaves in the controller's
    attributes. *)
Lemma fit_controller_state self depth X y h u h' :
  fit self depth X y h = (Ok u, h') ->
  artificial_type self <> None ->
  exists rows arows real_max synthetic_max min_fdr final_cutoff,
    attrs h' !! "stability_scores_" = Some (PyArray2 rows) /\
    attrs h' !! "stability_scores_artificial_" = Some (PyArray2 arows) /\
    length rows = shape1 X /\
    (forall row s, In row rows -> In s row -> (0 <= s /\ s <= 1)%Q) /\
    np_max_axis1 (PyArray2 rows) = Ok real_max /\
    np_max_axis1 (PyArray2 arows) = Ok synthetic_max /\
    let FDPs :=
      map (FDP_at (artificial_proportion self) real_max synthetic_max)
          (fdr_threshold_range self) in
    attrs h' !! "FDRs_" = Some (PyList FDPs) /\
    attrs h' !! "min_fdr_" = Some (PyFloat min_fdr) /\
    attrs h' !! "fdr_min_threshold_" = Some (PyFloat final_cutoff) /\
    np_min FDPs = Ok min_fdr /\
    (if Qgtb min_fdr 1 then final_cutoff = 1%Q
     else exists i t,
         np_argmin FDPs = Ok i /\
         nth_error (fdr_threshold_range self) i = Some t /\
         final_cutoff = Qmin t 1).
Proof.
  intros Hfit Hart.
  apply fit_Ok in Hfit as (trace & h1 & rows & ms & Hpath & Hrows & Hms & Hfdr).
  pose proof (fit_path_Ok _ _ _ _ _ _ _ Hpath)
    as (_ & _ & _ & (rows' & Hrows' & Hnrows & Hsc) & Harows).
  rewrite Hrows in Hrows'. inversion Hrows'; subst rows'; clear Hrows'.
  destruct (artificial_type self) as [ty|]; [|congruence].
  destruct Harows as (arows & Harows & Hasc).
  apply _compute_FDRc_Ok in Hfdr
    as (a & s & msa & ms' & mf & fc & Ha & Hmsa & Hs & Hms' & Hmin & Hcut & ->).
  rewrite Harows in Ha. inversion Ha; subst a; clear Ha.
  rewrite Hrows in Hs. inversion Hs; subst s; clear Hs.
  rewrite Hms in Hms'. inversion Hms'; subst ms'; clear Hms'.
  exists rows, arows, ms, msa, mf, fc. cbn [attrs].
  split; [rewrite !lookup_insert_ne by discriminate; assumption|].
  split; [rewrite !lookup_insert_ne by discriminate; assumption|].
  split; [assumption|].
  split; [intros row s0; apply scores_of_trace_bounds with (1 := Hsc)|].
  split; [assumption|]. split; [assumption|].
  split; [rewrite !lookup_insert_ne by discriminate; apply lookup_insert_eq|].
  split; [rewrite lookup_insert_ne by discriminate; apply lookup_insert_eq|].
  split; [apply lookup_insert_eq|].
  split; assumption.
Qed.

(** C2, amended. After a fit with synthetic features, the entry of the FDR
    curve at each threshold [t] of [fdr_threshold_range] equals
    [((1 / artificial_proportion) * count(synthetic_max > t) + 1)
     / max(1, count(real_max > t))], the row maxima being taken over the
    regularization grid. When the smallest entry of the curve is at most 1
    the selected threshold is the grid point at the first position holding
    that smallest entry, clipped to at most 1; when the smallest entry
    exceeds 1 the selected threshold is 1 whatever the minimising grid
    point is. *)
Theorem FDR_curve_and_selected_threshold
    (self : params) (depth : nat) (X : list (list Q)) (y : list Q)
    (h h' : heap) :
  fit self depth X y h = (Ok tt, h') ->
  artificial_type self <> None ->
  exists rows arows real_max synthetic_max FDPs min_fdr,
    attrs h' !! "stability_scores_" = Some (PyArray2 rows) /\
    attrs h' !! "stability_scores_artificial_" = Some (PyArray2 arows) /\
    Forall2 (fun row m => is_maximum m row) rows real_max /\
    Forall2 (fun row m => is_maximum m row) arows synthetic_max /\
    attrs h' !! "FDRs_" = Some (PyList FDPs) /\
    length FDPs = length (fdr_threshold_range self) /\
    (forall i t,
        fdr_threshold_range self !! i = Some t ->
        exists f,
          FDPs !! i = Some f /\
          (f == FDP_formula (artificial_proportion self) real_max synthetic_max t)%Q) /\
    attrs h' !! "min_fdr_" = Some (PyFloat min_fdr) /\
    is_minimum min_fdr FDPs /\
    ((min_fdr <= 1)%Q ->
     exists i t,
       first_argmin FDPs i /\
       fdr_threshold_range self !! i = Some t /\
       attrs h' !! "fdr_min_threshold_" = Some (PyFloat (Qmin t 1))) /\
    ((1 < min_fdr)%Q ->
     attrs h' !! "fdr_min_threshold_" = Some (PyFloat 1)).
Proof.
  intros Hfit Hart.
  destruct (fit_controller_state _ _ _ _ _ _ _ Hfit Hart)
    as (rows & arows & ms & msa & mf & fc & Hrows & Harows & _ & _ & Hms & Hmsa
        & HF & Hmf & Hfc & Hmin & Hcut).
  exists rows, arows, ms, msa,
    (map (FDP_at (artificial_proportion self) ms msa) (fdr_threshold_range self)),
    mf.
  split; [assumption|]. split; [assumption|].
  split; [apply np_max_axis1_Ok; assumption|].
  split; [apply np_max_axis1_Ok; assumption|].
  split; [assumption|].
  split; [apply length_map|].
  split.
  { intros i t Hi. eexists. split.
    - rewrite list_lookup_fmap, Hi. reflexivity.
    - apply FDP_at_formula. }
  split; [assumption|].
  split; [apply np_min_Ok; assumption|].
  split.
  - intros Hle. destruct (Qgtb mf 1) eqn:Hgt.
    + apply Qgtb_true in Hgt. exfalso. eapply Qlt_not_le; eassumption.
    + destruct Hcut as (i & t & Harg & Hnth & ->).
      exists i, t. split; [apply np_argmin_Ok; assumption|].
      split; [|assumption].
      rewrite nth_error_lookup. assumption.
  - intros Hlt. apply Qgtb_true in Hlt. rewrite Hlt in Hcut. subst fc.
    assumption.
Qed.

End ControllerFacts.

Lemma FDR_curve_and_selected_threshold_witness :
  @fit toy path_params 5 path_X path_y (fresh 0)
  = (Ok tt, snd (@fit toy path_params 5 path_X path_y (fresh 0))) /\
  artificial_type path_params <> None /\
  exists rows arows real_max synthetic_max FDPs min_fdr,
    attrs (snd (@fit toy path_params 5 path_X path_y (fresh 0)))
      !! "stability_scores_" = Some (PyArray2 rows) /\
    attrs (snd (@fit toy path_params 5 path_X path_y (fresh 0)))
      !! "stability_scores_artificial_" = Some (PyArray2 arows) /\
    Forall2 (fun row m => is_maximum m row) rows real_max /\
    Forall2 (fun row m => is_maximum m row) arows synthetic_max /\
    attrs (snd (@fit toy path_params 5 path_X path_y (fresh 0)))
      !! "FDRs_" = Some (PyList FDPs) /\
    length FDPs = length (fdr_threshold_range path_params) /\
    (forall i t,
        fdr_threshold_range path_params !! i = Some t ->
        exists f,
          FDPs !! i = Some f /\
          (f == FDP_formula (artificial_proportion path_params)
                            real_max synthetic_max t)%Q) /\
    attrs (snd (@fit toy path_params 5 path_X path_y (fresh 0)))
      !! "min_fdr_" = Some (PyFloat min_fdr) /\
    is_minimum min_fdr FDPs /\
    ((min_fdr <= 1)%Q ->
     exists i t,
       first_argmin FDPs i /\
       fdr_threshold_range path_params !! i = Some t /\
       attrs (snd (@fit toy path_params 5 path_X path_y (fresh 0)))
         !! "fdr_min_threshold_" = Some (PyFloat (Qmin t 1))) /\
    ((1 < min_fdr)%Q ->
     attrs (snd (@fit toy path_params 5 path_X path_y (fresh 0)))
       !! "fdr_min_threshold_" = Some (PyFloat 1)).
Proof.
  split; [vm_compute; reflexivity|].
  split; [discriminate|].
  apply (@FDR_curve_and_selected_threshold toy path_params 5 path_X path_y
           (fresh 0)).
  - vm_compute. reflexivity.
  - discriminate.
Defined.

(** C2 as stated fails: in the fit of [path_params] the FDR curve is
    [3/2; 3/2; 3], its first minimum sits at the grid point 3/10, and the
    selected threshold is 1, not 3/10 clipped to at most 1. *)
Lemma selected_threshold_is_not_always_the_argmin :
  let dict := attrs (snd (@fit toy path_params 5 path_X path_y (fresh 0))) in
  fst (@fit toy path_params 5 path_X path_y (fresh 0)) = Ok tt /\
  dict !! "FDRs_" = Some (PyList [3 # 2; 3 # 2; 3]%Q) /\
  np_argmin [3 # 2; 3 # 2; 3]%Q = Ok 0 /\
  fdr_threshold_range path_params !! 0 = Some (3 # 10)%Q /\
  dict !! "fdr_min_threshold_" = Some (PyFloat 1) /\
  ~ (1 == Qmin (3 # 10) 1)%Q.
Proof.
  vm_compute. repeat split; try reflexivity. discriminate.
Qed.

Section DegenerateFacts.
Context {E : Externals}.

(** C1, amended. After a fit with synthetic features and no fixed
    threshold configured, if the smallest estimated FDP over
    [fdr_threshold_range] exceeds 1, the selected threshold is 1 and
    [get_support] without an override selects no feature. *)
Theorem degenerate_FDR_selects_nothing
    (self : params) (depth : nat) (X : list (list Q)) (y : list Q)
    (h h' : heap) (min_fdr : Q) :
  fit self depth X y h = (Ok tt, h') ->
  artificial_type self <> None ->
  threshold self = None ->
  attrs h' !! "min_fdr_" = Some (PyFloat min_fdr) ->
  (1 < min_fdr)%Q ->
  attrs h' !! "fdr_min_threshold_" = Some (PyFloat 1) /\
  get_support self (attrs h') false None = Ok (Mask (repeat false (shape1 X))).
Proof.
  intros Hfit Hart Hthr Hmin Hlt.
  destruct (fit_controller_state _ _ _ _ _ _ _ Hfit Hart)
    as (rows & arows & ms & msa & mf & fc & Hrows & Harows & Hnrows & Hbound
        & Hms & Hmsa & HF & Hmf & Hfc & _ & Hcut).
  rewrite Hmf in Hmin. inversion Hmin; subst mf; clear Hmin.
  apply Qgtb_true in Hlt. rewrite Hlt in Hcut. subst fc.
  split; [assumption|].
  unfold get_support, _get_support_mask, check_is_fitted, lookup_attr.
  rewrite Hthr, Hrows, Hfc. cbn [rbind]. rewrite Hms. cbn [rbind greater_than negb].
  do 2 f_equal. rewrite <- Hnrows.
  apply np_max_axis1_Ok in Hms.
  clear -Hms Hbound. induction Hms as [|row m rows ms [Hin _] Hrest IH].
  - reflexivity.
  - simpl. f_equal.
    + apply Qgtb_false. apply (Hbound row m); [left; reflexivity | exact Hin].
    + apply IH. intros row' s Hrow'. apply Hbound. right. exact Hrow'.
Qed.

End DegenerateFacts.

Lemma degenerate_FDR_selects_nothing_witness :
  @fit toy path_params 5 path_X path_y (fresh 0)
  = (Ok tt, snd (@fit toy path_params 5 path_X path_y (fresh 0))) /\
  artificial_type path_params <> None /\
  threshold path_params = None /\
  attrs (snd (@fit toy path_params 5 path_X path_y (fresh 0))) !! "min_fdr_"
  = Some (PyFloat (3 # 2)) /\
  (1 < 3 # 2)%Q /\
  attrs (snd (@fit toy path_params 5 path_X path_y (fresh 0)))
    !! "fdr_min_threshold_" = Some (PyFloat 1) /\
  get_support path_params
    (attrs (snd (@fit toy path_params 5 path_X path_y (fresh 0)))) false None
  = Ok (Mask (repeat false (shape1 path_X))).
Proof.
  split; [vm_compute; reflexivity|].
  split; [discriminate|].
  split; [reflexivity|].
  split; [vm_compute; reflexivity|].
  split; [reflexivity|].
  apply (@degenerate_FDR_selects_nothing toy path_params 5 path_X path_y
           (fresh 0) _ (3 # 2)%Q).
  - vm_compute. reflexivity.
  - discriminate.
  - reflexivity.
  - vm_compute. reflexivity.
  - reflexivity.
Defined.

(** C1 as stated fails twice. In the fit of [toy_params] the smallest
    estimated FDP is 1, above 0.5, yet the selected threshold is 3/10 and
    [get_support] selects the feature ([plot_fdr_graph] draws the same
    state as "No optimal threshold" at 1). In the fit of [path_params] with
    the fixed threshold 3/10 configured, the smallest estimated FDP is 3/2
    and the selected threshold is 1, yet [get_support] without an override
    uses the fixed threshold and selects both features. *)
Lemma min_FDR_above_half_still_selects :
  (let dict := attrs (snd (@fit toy toy_params 5 toy_X toy_y (fresh 0))) in
   fst (@fit toy toy_params 5 toy_X toy_y (fresh 0)) = Ok tt /\
   dict !! "min_fdr_" = Some (PyFloat 1) /\
   (1 # 2 < 1)%Q /\
   dict !! "fdr_min_threshold_" = Some (PyFloat (3 # 10)) /\
   get_support toy_params dict false None = Ok (Mask [true]) /\
   plot_fdr_graph toy_params dict = Ok (1%Q, true)) /\
  (let self := set_threshold (Some (3 # 10)%Q) path_params in
   let dict := attrs (snd (@fit toy self 5 path_X path_y (fresh 0))) in
   fst (@fit toy self 5 path_X path_y (fresh 0)) = Ok tt /\
   artificial_type self <> None /\
   dict !! "min_fdr_" = Some (PyFloat (3 # 2)) /\
   (1 # 2 < 3 # 2)%Q /\
   dict !! "fdr_min_threshold_" = Some (PyFloat 1) /\
   get_support self dict false None = Ok (Mask [true; true])).
Proof.
  split.
  - vm_compute. repeat split; reflexivity.
  - vm_compute. repeat split; try reflexivity. discriminate.
Qed.

(** ** What a method body depends on *)

Section Respect.
Context {E : Externals}.

Lemma agree_weaken G N N' h1 h2 :
  (forall name, In name N' -> In name N) -> agree G N h1 h2 -> agree G N' h1 h2.
Proof. intros Hsub [Hg Ha]. split; auto. Qed.

Lemma respects_weaken {A} G N N1 N' (c : M A) :
  (forall name, In name N' -> In name N1) ->
  respects G N N1 c -> respects G N N' c.
Proof.
  intros Hsub Hc h1 h2 Hag. destruct (Hc h1 h2 Hag) as [Hr Hpost].
  split; [exact Hr|]. intros a Ha. eapply agree_weaken; eauto.
Qed.

Lemma respects_ret {A} G N (a : A) : respects G N N (ret a).
Proof. intros h1 h2 Hag. split; [reflexivity|]. intros; exact Hag. Qed.

Lemma respects_raise {A} G N N' (e : exn) : respects G N N' (@raise _ A e).
Proof. intros h1 h2 Hag. split; [reflexivity|]. discriminate. Qed.

Lemma respects_lift {A} G N (r : result A) : respects G N N (lift r).
Proof. intros h1 h2 Hag. split; [reflexivity|]. intros; exact Hag. Qed.

Lemma respects_bind {A B} G N N1 N2 (c : M A) (k : A -> M B) :
  respects G N N1 c ->
  (forall a, respects G N1 N2 (k a)) ->
  respects G N N2 (bind c k).
Proof.
  intros Hc Hk h1 h2 Hag. destruct (Hc h1 h2 Hag) as [Hr Hpost].
  unfold bind.
  destruct (c h1) as [[a1|e1] h1'], (c h2) as [[a2|e2] h2']; simpl in *;
    try discriminate.
  - inversion Hr; subst. apply Hk. apply (Hpost a2). reflexivity.
  - split; [inversion Hr; reflexivity|]. discriminate.
Qed.

Lemma respects_setattr G N name v : respects G N (name :: N) (setattr name v).
Proof.
  intros h1 h2 [Hg Ha]. split; [reflexivity|]. intros _ _. split; [exact Hg|].
  simpl. intros n Hn.
  destruct (decide (name = n)) as [->|Hne].
  - rewrite !lookup_insert_eq. reflexivity.
  - rewrite !lookup_insert_ne by exact Hne.
    destruct Hn as [Heq|Hn]; [congruence | auto].
Qed.

Lemma respects_getattr G N name :
  In name N -> respects G N N (getattr name).
Proof.
  intros Hin h1 h2 [Hg Ha]. unfold getattr, lookup_attr. simpl.
  rewrite (Ha name Hin). split; [reflexivity|]. intros; split; assumption.
Qed.

Lemma respects_with_global {A} N (f : global_state -> A * global_state) :
  respects true N N (with_global f).
Proof.
  intros h1 h2 [Hg Ha]. unfold with_global. rewrite (Hg eq_refl).
  destruct (f (glob h2)) as [a g]. simpl. split; [reflexivity|].
  intros _ _. split; [reflexivity | exact Ha].
Qed.

Lemma respects_with_global_result {A} N
    (f : global_state -> result A * global_state) :
  respects true N N (with_global_result f).
Proof.
  intros h1 h2 [Hg Ha]. unfold with_global_result. rewrite (Hg eq_refl).
  destruct (f (glob h2)) as [a g]. simpl. split; [reflexivity|].
  intros _ _. split; [reflexivity | exact Ha].
Qed.

(** A generator built from an integer seed does not look at the
    process-wide state. *)
Lemma respects_default_rng_seeded G N seed :
  respects G N N (with_global (default_rng (Some seed))).
Proof.
  intros h1 h2 Hag. unfold with_global. simpl. split; [reflexivity|].
  intros _ _. destruct Hag as [Hg Ha]. split; assumption.
Qed.

Lemma respects_bootstraps_seeded G N n_bootstraps y n_subsamples replace seed depth :
  respects G N N
    (with_global_result
       (_bootstraps_generator n_bootstraps y n_subsamples replace (Some seed) depth)).
Proof.
  intros h1 h2 Hag. unfold with_global_result, _bootstraps_generator. simpl.
  split; [reflexivity|].
  intros _ _. destruct Hag as [Hg Ha]. split; assumption.
Qed.

Lemma respects_default_rng G N rs :
  pinned G rs -> respects G N N (with_global (default_rng rs)).
Proof.
  intros [->|[seed ->]];
    [apply respects_with_global | apply respects_default_rng_seeded].
Qed.

Lemma respects_bootstraps G N n_bootstraps y n_subsamples replace rs depth :
  pinned G rs ->
  respects G N N
    (with_global_result
       (_bootstraps_generator n_bootstraps y n_subsamples replace rs depth)).
Proof.
  intros [->|[seed ->]];
    [apply respects_with_global_result | apply respects_bootstraps_seeded].
Qed.

Lemma respects_update_column G N name idx v :
  In name N -> respects G N N (update_column name idx v).
Proof.
  intros Hin. unfold update_column.
  eapply respects_bind; [apply respects_getattr; exact Hin|]. intros a.
  eapply respects_bind; [apply respects_lift|]. intros rows.
  eapply respects_bind; [apply respects_lift|]. intros rows'.
  eapply respects_weaken; [|apply respects_setattr].
  intros n Hn. right. exact Hn.
Qed.

End Respect.

Section FitRespect.
Context {E : Externals}.

Ltac step := eapply respects_bind; [|intros ?].
Ltac member := simpl; tauto.

Lemma respects_fit_iteration G N self depth X y n_features n_subsamples idx lam :
  pinned G (random_state self) ->
  In "stability_scores_" N ->
  (artificial_type self <> None -> In "stability_scores_artificial_" N) ->
  respects G N N (fit_iteration self depth X y n_features n_subsamples idx lam).
Proof.
  intros Hpin Hs Ha. unfold fit_iteration.
  step; [apply respects_bootstraps; exact Hpin|].
  step; [apply respects_lift|].
  step.
  { destruct (artificial_type self) as [ty|].
    - step; [apply respects_lift|].
      apply respects_update_column. apply Ha. discriminate.
    - apply respects_ret. }
  step; [apply respects_lift|].
  step; [apply respects_update_column; exact Hs|].
  apply respects_ret.
Qed.

Lemma respects_fit_loop G N self depth X y n_features n_subsamples grid :
  pinned G (random_state self) ->
  In "stability_scores_" N ->
  (artificial_type self <> None -> In "stability_scores_artificial_" N) ->
  respects G N N (fit_loop self depth X y n_features n_subsamples grid).
Proof.
  intros Hpin Hs Ha. induction grid as [|[idx lam] grid IH]; simpl.
  - apply respects_ret.
  - step; [apply respects_fit_iteration; assumption|].
    step; [exact IH|].
    apply respects_ret.
Qed.

Lemma respects_make_artificial_features G N X ty nb_noise rs :
  pinned G rs ->
  (G = true \/ ty <> "knockoff") ->
  respects G N ("X_artificial_" :: N) (_make_artificial_features X ty nb_noise rs).
Proof.
  intros Hpin Hk. unfold _make_artificial_features.
  step; [apply respects_default_rng; exact Hpin|].
  destruct (String.eqb ty "random_permutation").
  - destruct (choice _ _ _ _) as [indices rng1].
    step; [apply respects_lift|].
    destruct (shuffle_columns _ _) as [cols rng2].
    step; [apply respects_setattr|].
    apply respects_lift.
  - destruct (String.eqb ty "knockoff") eqn:Hty; [|apply respects_raise].
    apply String.eqb_eq in Hty.
    destruct Hk as [->|Hk]; [|congruence].
    step; [apply respects_with_global_result|].
    destruct (choice _ _ _ _) as [indices rng1].
    step; [apply respects_lift|].
    step; [apply respects_setattr|].
    apply respects_lift.
Qed.

Lemma respects_compute_FDRc G N self :
  In "stability_scores_" N ->
  In "stability_scores_artificial_" N ->
  respects G N ("fdr_min_threshold_" :: "min_fdr_" :: "FDRs_" :: N)
           (_compute_FDRc self).
Proof.
  intros Hs Ha. unfold _compute_FDRc.
  step; [apply respects_getattr; exact Ha|].
  step; [apply respects_lift|].
  step; [apply respects_getattr; exact Hs|].
  step; [apply respects_lift|].
  step; [apply respects_setattr|].
  step; [apply respects_lift|].
  step; [apply respects_setattr|].
  step.
  { destruct (Qgtb _ 1).
    - apply respects_ret.
    - step; [apply respects_lift|]. step; [apply respects_lift|].
      apply respects_ret. }
  apply respects_setattr.
Qed.

(** A fit reads no attribute that it has not assigned itself: run from two
    heaps whose randomness is pinned down, whatever their attributes hold,
    it raises or returns the same and leaves the same values in the
    attributes it assigns. *)
Lemma respects_fit G self depth X y :
  pinned G (random_state self) ->
  (G = true \/ artificial_type self <> Some "knockoff") ->
  respects G [] (fitted_attributes self) (fit self depth X y).
Proof.
  intros Hpin Hk. unfold fit, fit_path, _validate_data_fit, fitted_attributes.
  assert (forall N, respects G N ("n_features_in_" :: N)
            (if well_shaped X && (length y =? length X)
             then setattr "n_features_in_" (PyInt (Z.of_nat (shape1 X)))
             else raise ValueError)) as Hdata.
  { intros N. destruct (well_shaped X && (length y =? length X));
      [apply respects_setattr | apply respects_raise]. }
  destruct (artificial_type self) as [ty|] eqn:Hty.
  - step.
    { step; [apply respects_lift|].
      step; [apply Hdata|].
      step; [apply respects_setattr|].
      step.
      { step; [apply respects_setattr|].
        apply respects_make_artificial_features; [exact Hpin|].
        destruct Hk as [Hk|Hk]; [left; exact Hk | right; congruence]. }
      apply respects_fit_loop; [exact Hpin | member | intros _; member]. }
    step; [apply respects_getattr; member|].
    step; [apply respects_lift|].
    step; [apply respects_getattr; member|].
    step; [apply respects_lift|].
    eapply respects_weaken; [|apply respects_compute_FDRc; member].
    member.
  - step.
    { step; [apply respects_lift|].
      step; [apply Hdata|].
      step; [apply respects_setattr|].
      step; [apply respects_ret|].
      apply respects_fit_loop; [exact Hpin | member | congruence]. }
    step; [apply respects_getattr; member|].
    step; [apply respects_lift|].
    eapply respects_weaken; [|apply respects_ret].
    member.
Qed.

End FitRespect.

(** ** What a method body leaves alone *)

Section Frame.
Context {E : Externals}.

Lemma preserves_ret {A} name (a : A) : preserves name (ret a).
Proof. intros h. reflexivity. Qed.

Lemma preserves_raise {A} name e : preserves name (@raise _ A e).
Proof. intros h. reflexivity. Qed.

Lemma preserves_lift {A} name (r : result A) : preserves name (lift r).
Proof. intros h. reflexivity. Qed.

Lemma preserves_getattr name n : preserves name (getattr n).
Proof. intros h. reflexivity. Qed.

Lemma preserves_setattr name n v : n <> name -> preserves name (setattr n v).
Proof. intros Hne h. simpl. apply lookup_insert_ne. exact Hne. Qed.

Lemma preserves_with_global_result {A} name
    (f : global_state -> result A * global_state) :
  preserves name (with_global_result f).
Proof.
  intros h. unfold with_global_result. destruct (f (glob h)). reflexivity.
Qed.

Lemma preserves_bind {A B} name (c : M A) (k : A -> M B) :
  preserves name c -> (forall a, preserves name (k a)) ->
  preserves name (bind c k).
Proof.
  intros Hc Hk h. unfold bind. specialize (Hc h).
  destruct (c h) as [[a|e] h1]; simpl in *.
  - rewrite (Hk a h1). exact Hc.
  - exact Hc.
Qed.

Lemma preserves_update_column name n idx v :
  n <> name -> preserves name (update_column n idx v).
Proof.
  intros Hne. unfold update_column.
  apply preserves_bind; [apply preserves_getattr|]. intros a.
  apply preserves_bind; [apply preserves_lift|]. intros rows.
  apply preserves_bind; [apply preserves_lift|]. intros rows'.
  apply preserves_setattr. exact Hne.
Qed.

Lemma preserves_fit_loop name self depth X y n_features n_subsamples grid :
  artificial_type self = None ->
  name <> "stability_scores_" ->
  preserves name (fit_loop self depth X y n_features n_subsamples grid).
Proof.
  intros Hty Hne. induction grid as [|[idx lam] grid IH]; simpl.
  - apply preserves_ret.
  - apply preserves_bind.
    + unfold fit_iteration. rewrite Hty.
      apply preserves_bind; [apply preserves_with_global_result|]. intros b.
      apply preserves_bind; [apply preserves_lift|]. intros m.
      apply preserves_bind; [apply preserves_ret|]. intros u.
      apply preserves_bind; [apply preserves_lift|]. intros v.
      apply preserves_bind; [apply preserves_update_column; congruence|].
      intros u'. apply preserves_ret.
    + intros t. apply preserves_bind; [exact IH|].
      intros ts. apply preserves_ret.
Qed.

(** A fit without synthetic features assigns [stability_scores_] and
    [n_features_in_] and nothing else. *)
Lemma preserves_fit_without_synthetic name self depth X y :
  artificial_type self = None ->
  name <> "stability_scores_" ->
  name <> "n_features_in_" ->
  preserves name (fit self depth X y).
Proof.
  intros Hty Hn1 Hn2. unfold fit, fit_path, _validate_data_fit. rewrite Hty.
  apply preserves_bind.
  - apply preserves_bind; [apply preserves_lift|]. intros u.
    apply preserves_bind.
    { destruct (well_shaped X && (length y =? length X));
        [apply preserves_setattr; congruence | apply preserves_raise]. }
    intros u0.
    apply preserves_bind; [apply preserves_setattr; congruence|]. intros u1.
    apply preserves_bind; [apply preserves_ret|]. intros X'.
    apply preserves_fit_loop; assumption.
  - intros trace.
    apply preserves_bind; [apply preserves_getattr|]. intros s.
    apply preserves_bind; [apply preserves_lift|]. intros ms.
    apply preserves_ret.
Qed.

(** C9, amended. A fit on an object that already holds fitted state
    returns what a fit on a newly constructed object returns and leaves,
    in every attribute it assigns, the value that the fit on the new
    object leaves: [stability_scores_] and [n_features_in_] always, and
    the artificial scores, the synthetic block, the FDR curve, the
    smallest FDP and the selected threshold when the configuration of this
    fit has synthetic features. When it has none, those five attributes
    keep the values they had before the call. *)
Theorem refit_replaces_exactly_what_it_assigns
    (self : params) (depth : nat) (X : list (list Q)) (y : list Q)
    (prior next : heap) :
  fit self depth X y prior = (Ok tt, next) ->
  let anew := fit self depth X y {| attrs := __init__; glob := glob prior |} in
  fst anew = Ok tt /\
  (forall name,
      In name (fitted_attributes self) ->
      attrs next !! name = attrs (snd anew) !! name) /\
  (artificial_type self = None ->
   forall name,
     In name synthetic_attributes ->
     attrs next !! name = attrs prior !! name).
Proof.
  intros Hfit anew.
  assert (agree true [] prior {| attrs := __init__; glob := glob prior |}) as Hag.
  { split; [reflexivity|]. intros name []. }
  destruct (respects_fit true self depth X y (or_introl eq_refl)
              (or_introl eq_refl) _ _ Hag) as [Hres Hpost].
  rewrite Hfit in Hres, Hpost. simpl in Hres, Hpost.
  split; [symmetry; exact Hres|].
  split.
  - intros name Hin. destruct (Hpost tt eq_refl) as [_ Ha]. apply Ha. exact Hin.
  - intros Hty name Hin.
    pose proof (preserves_fit_without_synthetic name self depth X y Hty) as Hp.
    unfold preserves in Hp. specialize (Hp ltac:(simpl in Hin; intuition congruence)
                                            ltac:(simpl in Hin; intuition congruence) prior).
    rewrite Hfit in Hp. exact Hp.
Qed.

End Frame.

Lemma refit_replaces_exactly_what_it_assigns_witness :
  let prior := snd (@fit toy path_params 5 path_X path_y (fresh 0)) in
  let self := set_threshold (Some (6 # 10)%Q) (set_artificial_type None toy_params) in
  let next := snd (@fit toy self 5 toy_X toy_y prior) in
  @fit toy self 5 toy_X toy_y prior = (Ok tt, next) /\
  let anew :=
    @fit toy self 5 toy_X toy_y (@Build_heap toy __init__ (glob prior)) in
  fst anew = Ok tt /\
  (forall name,
      In name (fitted_attributes self) ->
      attrs next !! name = attrs (snd anew) !! name) /\
  (artificial_type self = None ->
   forall name,
     In name synthetic_attributes ->
     attrs next !! name = attrs prior !! name).
Proof.
  intros prior self next.
  split; [vm_compute; reflexivity|].
  apply (@refit_replaces_exactly_what_it_assigns toy self 5 toy_X toy_y prior next).
  vm_compute. reflexivity.
Defined.

(** C9 as stated fails: an object fitted with synthetic features
    ([path_params]: three samples, two features, two grid points) and
    fitted again with [artificial_type=None] and the fixed threshold 0.6 on
    other data (two samples, one feature, one grid point) has the new
    stability scores, and still has the artificial scores, the synthetic
    block, the FDR curve, the smallest FDP and the selected threshold of
    the first fit. *)
Lemma refit_without_synthetic_keeps_first_fit_state :
  let first := @fit toy path_params 5 path_X path_y (fresh 0) in
  let self := set_threshold (Some (6 # 10)%Q) (set_artificial_type None toy_params) in
  let second := @fit toy self 5 toy_X toy_y (snd first) in
  fst first = Ok tt /\ fst second = Ok tt /\
  attrs (snd first) !! "stability_scores_"
    = Some (PyArray2 [[2 # 2; 0 # 2]; [1 # 2; 0 # 2]]%Q) /\
  attrs (snd second) !! "stability_scores_" = Some (PyArray2 [[1]]%Q) /\
  attrs (snd second) !! "stability_scores_artificial_"
    = Some (PyArray2 [[2 # 2; 0 # 2]]%Q) /\
  attrs (snd second) !! "X_artificial_" = Some (PyArray2 [[1]; [0]; [1]]%Q) /\
  attrs (snd second) !! "FDRs_" = Some (PyList [3 # 2; 3 # 2; 3]%Q) /\
  attrs (snd second) !! "min_fdr_" = Some (PyFloat (3 # 2)) /\
  attrs (snd second) !! "fdr_min_threshold_" = Some (PyFloat 1) /\
  plot_fdr_graph self (attrs (snd second)) = Ok (1%Q, true).
Proof. vm_compute. repeat split; reflexivity. Qed.

(** ** Reproducibility *)

Section Reproducibility.
Context {E : Externals}.





End Reproducibility.

(** C7 (not met by the code): two fits with the same inputs and the same
    integer seed are to give the same stability scores. With
    [artificial_type="knockoff"] the synthetic block is sampled by
    [GaussianSampler(...).sample_knockoffs()], which is given neither the
    seed nor the generator: two fits of the same configuration, seed 0,
    on the same data, started from two states of the process-wide random
    stream, give different synthetic blocks and different stability
    scores. *)
Theorem knockoff_fit_is_not_reproducible_from_seed :
  let self := set_artificial_type (Some "knockoff") toy_params in
  let run_a := @fit toy self 5 toy_X toy_y (fresh 0) in
  let run_b := @fit toy self 5 toy_X toy_y (fresh 4) in
  random_state self = Some 0%Z /\
  fst run_a = Ok tt /\ fst run_b = Ok tt /\
  attrs (snd run_a) !! "X_artificial_" = Some (PyArray2 [[0]; [0]]%Q) /\
  attrs (snd run_b) !! "X_artificial_" = Some (PyArray2 [[4]; [4]]%Q) /\
  attrs (snd run_a) !! "stability_scores_" = Some (PyArray2 [[1]]%Q) /\
  attrs (snd run_b) !! "stability_scores_" = Some (PyArray2 [[0]]%Q).
Proof. vm_compute. repeat split; reflexivity. Qed.

(** ** The batches of index sets *)

Section BatchFacts.
Context {E : Externals}.

Lemma draw_bootstraps_In n depth y n_subsamples replace rng batch indices :
  draw_bootstraps n depth y n_subsamples replace rng = Ok batch ->
  In indices batch ->
  exists rng0 rng1,
    bootstrap depth y n_subsamples replace rng0 = (Ok indices, rng1).
Proof.
  revert rng batch. induction n as [|n IH]; intros rng batch H Hin; simpl in H.
  - inversion H; subst. destruct Hin.
  - destruct (bootstrap depth y n_subsamples replace rng) as [[s|e] rng1] eqn:Hb;
      [|discriminate].
    apply rbind_Ok in H as (rest & Hrest & H). inversion H; subst.
    destruct Hin as [<-|Hin]; [eauto | eapply IH; eassumption].
Qed.

(** C4, amended. During a fit, every grid point creates a generator of its
    own from [random_state] and draws from it, through [bootstrap], a batch
    of [n_bootstraps] index sets. With [random_state=None] the generator of
    grid point [k] is created from the process-wide state left by the
    [k] earlier ones; with an integer [random_state] every grid point
    creates the same generator again, so all grid points receive the same
    batch of index sets. *)
Theorem bootstrap_batches_per_grid_point
    (self : params) (depth : nat) (X : list (list Q)) (y : list Q)
    (h h' : heap) :
  fit self depth X y h = (Ok tt, h') ->
  let n_subsamples :=
    Z.to_nat (Qfloor (sample_fraction self * inject_Z (Z.of_nat (length X)))) in
  exists trace g0,
    fst (fit_path self depth X y h) = Ok trace /\
    length trace = length (lambda_grid self) /\
    (forall k batch masks,
        trace !! k = Some (batch, masks) ->
        length batch = Z.to_nat (n_bootstraps self) /\
        (forall indices,
            In indices batch ->
            exists rng0 rng1,
              bootstrap depth y n_subsamples (replace self) rng0
              = (Ok indices, rng1)) /\
        draw_bootstraps (Z.to_nat (n_bootstraps self)) depth y n_subsamples
          (replace self)
          (fst (default_rng (random_state self)
                  (Nat.iter k (next_global (random_state self)) g0)))
        = Ok batch) /\
    (forall seed,
        random_state self = Some seed ->
        forall k1 k2 batch1 masks1 batch2 masks2,
          trace !! k1 = Some (batch1, masks1) ->
          trace !! k2 = Some (batch2, masks2) ->
          batch1 = batch2).
Proof.
  intros Hfit n_subsamples.
  apply fit_Ok in Hfit as (trace & h1 & rows & ms & Hpath & _).
  pose proof (fit_path_Ok _ _ _ _ _ _ _ Hpath) as (_ & Hlen & (g0 & Hdraw) & _).
  exists trace, g0.
  split; [rewrite Hpath; reflexivity|].
  split; [exact Hlen|].
  split.
  - intros k batch masks Hk. apply Hdraw in Hk as (Hd & _).
    split; [eapply draw_bootstraps_length; exact Hd|].
    split; [|exact Hd].
    intros indices Hin. eapply draw_bootstraps_In; eassumption.
  - intros seed Hseed k1 k2 b1 m1 b2 m2 Hk1 Hk2.
    apply Hdraw in Hk1 as (Hd1 & _). apply Hdraw in Hk2 as (Hd2 & _).
    rewrite Hseed in Hd1, Hd2. simpl in Hd1, Hd2. congruence.
Qed.

End BatchFacts.

Lemma bootstrap_batches_per_grid_point_witness :
  @fit toy path_params 5 path_X path_y (fresh 0)
  = (Ok tt, snd (@fit toy path_params 5 path_X path_y (fresh 0))) /\
  let n_subsamples :=
    Z.to_nat (Qfloor (sample_fraction path_params
                      * inject_Z (Z.of_nat (length path_X)))) in
  exists trace g0,
    fst (@fit_path toy path_params 5 path_X path_y (fresh 0)) = Ok trace /\
    length trace = length (lambda_grid path_params) /\
    (forall k batch masks,
        trace !! k = Some (batch, masks) ->
        length batch = Z.to_nat (n_bootstraps path_params) /\
        (forall indices,
            In indices batch ->
            exists rng0 rng1,
              @bootstrap toy 5 path_y n_subsamples (replace path_params) rng0
              = (Ok indices, rng1)) /\
        @draw_bootstraps toy (Z.to_nat (n_bootstraps path_params)) 5 path_y
          n_subsamples (replace path_params)
          (fst (@default_rng toy (random_state path_params)
                  (Nat.iter k (@next_global toy (random_state path_params)) g0)))
        = Ok batch) /\
    (forall seed,
        random_state path_params = Some seed ->
        forall k1 k2 batch1 masks1 batch2 masks2,
          trace !! k1 = Some (batch1, masks1) ->
          trace !! k2 = Some (batch2, masks2) ->
          batch1 = batch2).
Proof.
  split; [vm_compute; reflexivity|].
  apply (@bootstrap_batches_per_grid_point toy path_params 5 path_X path_y
           (fresh 0) (snd (@fit toy path_params 5 path_X path_y (fresh 0)))).
  vm_compute. reflexivity.
Defined.

(** C4 as stated fails: in the fit of [path_params] (seed 0, two grid
    points) the batch of index sets of the second grid point is the batch
    of the first one. *)
Lemma seeded_fit_reuses_the_batch_at_every_grid_point :
  random_state path_params = Some 0%Z /\
  exists trace,
    fst (@fit_path toy path_params 5 path_X path_y (fresh 0)) = Ok trace /\
    map fst trace = [[[0; 1]; [2; 0]]; [[0; 1]; [2; 0]]] /\
    ~ List.NoDup (map fst trace).
Proof.
  split; [reflexivity|].
  eexists. split; [vm_compute; reflexivity|].
  split; [reflexivity|].
  simpl. intros Hnd. inversion Hnd as [|? ? Hnotin _]; subst.
  apply Hnotin. left. reflexivity.
Qed.

(** * Further properties of the code *)

(** ** The synthetic feature block *)

Lemma concatenate1_Ok A B C :
  concatenate1 A B = Ok C ->
  length B = length A /\ length C = length A /\
  forall i row, A !! i = Some row ->
    exists rowb, B !! i = Some rowb /\ C !! i = Some (row ++ rowb)%list.
Proof.
  unfold concatenate1. destruct (length A =? length B) eqn:Hlen; [|discriminate].
  apply Nat.eqb_eq in Hlen. intros H. inversion H; subst; clear H.
  split; [lia|]. split; [rewrite length_map, length_combine; lia|].
  intros i row Hi.
  assert (i < length B) as Hlt by (rewrite <- Hlen; eapply lookup_lt_Some; exact Hi).
  apply lookup_lt_is_Some in Hlt as [rowb Hb].
  exists rowb. split; [exact Hb|].
  rewrite list_lookup_fmap, (combine_lookup A B i row rowb Hi Hb). reflexivity.
Qed.

Section SyntheticBlock.
Context {E : Externals}.

(** The synthetic block is appended to the right of the design matrix and
    is the block kept in [X_artificial_]: when
    [_make_artificial_features] returns, every row of its result is the
    row of [X] followed by the row of [X_artificial_], the block has one
    row per sample, and no other attribute has changed. *)
Theorem synthetic_block_is_appended_on_the_right
    (X : list (list Q)) (ty : string) (nb_noise : nat) (rs : option Z)
    (h h' : heap) (X' : list (list Q)) :
  _make_artificial_features X ty nb_noise rs h = (Ok X', h') ->
  exists X_artificial,
    attrs h' !! "X_artificial_" = Some (PyArray2 X_artificial) /\
    length X_artificial = length X /\
    length X' = length X /\
    (forall i row,
        X !! i = Some row ->
        exists synthetic_row,
          X_artificial !! i = Some synthetic_row /\
          X' !! i = Some (row ++ synthetic_row)%list) /\
    (forall name, name <> "X_artificial_" -> attrs h' !! name = attrs h !! name).
Proof.
  unfold _make_artificial_features. intros H. inv_M.
  destruct (String.eqb ty "random_permutation").
  - destruct (choice _ _ _ _) as [indices rng1]. inv_M.
    destruct (shuffle_columns _ _) as [cols rng2]. inv_M.
    match goal with
    | Hc : concatenate1 _ ?Xa = Ok _ |- _ =>
        exists Xa; apply concatenate1_Ok in Hc as (Hl1 & Hl2 & Hrows)
    end.
    cbn [attrs]. split; [apply lookup_insert_eq|].
    split; [exact Hl1|]. split; [exact Hl2|]. split; [exact Hrows|].
    intros name Hne. apply lookup_insert_ne. congruence.
  - destruct (String.eqb ty "knockoff"); [|discriminate].
    inv_M. destruct (choice _ _ _ _) as [indices rng1]. inv_M.
    match goal with
    | Hc : concatenate1 _ ?Xa = Ok _ |- _ =>
        exists Xa; apply concatenate1_Ok in Hc as (Hl1 & Hl2 & Hrows)
    end.
    cbn [attrs]. split; [apply lookup_insert_eq|].
    split; [exact Hl1|]. split; [exact Hl2|]. split; [exact Hrows|].
    intros name Hne. apply lookup_insert_ne. congruence.
Qed.

End SyntheticBlock.

Lemma synthetic_block_is_appended_on_the_right_witness :
  @_make_artificial_features toy path_X "random_permutation" 1 (Some 0%Z) (fresh 0)
  = (Ok [[1; 0; 1]; [0; 1; 0]; [1; 1; 1]]%Q,
     snd (@_make_artificial_features toy path_X "random_permutation" 1
            (Some 0%Z) (fresh 0))) /\
  exists X_artificial,
    attrs (snd (@_make_artificial_features toy path_X "random_permutation" 1
                  (Some 0%Z) (fresh 0)))
      !! "X_artificial_" = Some (PyArray2 X_artificial) /\
    length X_artificial = length path_X /\
    length [[1; 0; 1]; [0; 1; 0]; [1; 1; 1]]%Q = length path_X /\
    (forall i row,
        path_X !! i = Some row ->
        exists synthetic_row,
          X_artificial !! i = Some synthetic_row /\
          [[1; 0; 1]; [0; 1; 0]; [1; 1; 1]]%Q !! i
          = Some (row ++ synthetic_row)%list) /\
    (forall name,
        name <> "X_artificial_" ->
        attrs (snd (@_make_artificial_features toy path_X "random_permutation" 1
                      (Some 0%Z) (fresh 0))) !! name
        = attrs (fresh 0) !! name).
Proof.
  split; [vm_compute; reflexivity|].
  apply (@synthetic_block_is_appended_on_the_right toy path_X
           "random_permutation" 1 (Some 0%Z) (fresh 0)).
  vm_compute. reflexivity.
Defined.

Lemma take_indices_nth {A} (a : list A) indices xs i j d :
  take_indices a indices = Ok xs ->
  indices !! i = Some j ->
  j < length a /\ nth i xs d = nth j a d.
Proof.
  unfold take_indices. intros H Hi.
  destruct (rmap_lookup _ _ _ _ _ H Hi) as (x & Hx & Hf).
  destruct (nth_error a j) as [x'|] eqn:Hj; [|discriminate].
  inversion Hf; subst x'.
  split; [apply nth_error_Some; congruence|].
  rewrite (nth_error_nth a j d Hj).
  rewrite nth_error_lookup in Hx.
  apply (nth_error_nth xs i d Hx).
Qed.

Lemma take_columns_column (X X0 : list (list Q)) indices i j :
  take_columns X indices = Ok X0 ->
  indices !! i = Some j ->
  Forall (fun row => j < length row) X /\
  map (fun row => nth i row 0%Q) X0 = map (fun row => nth j row 0%Q) X.
Proof.
  unfold take_columns. revert X0.
  induction X as [|row X IH]; intros X0 H Hi.
  - inversion H. split; [constructor | reflexivity].
  - apply rmap_Ok_cons in H as (row' & X0' & -> & Hrow & H).
    destruct (IH _ H Hi) as [Hall Hcol].
    destruct (take_indices_nth row indices row' i j 0%Q Hrow Hi) as [Hlt Hnth].
    split; [constructor; assumption|].
    simpl. rewrite Hnth, Hcol. reflexivity.
Qed.

Lemma take_columns_shape {A} (X X0 : list (list A)) indices :
  take_columns X indices = Ok X0 ->
  length X0 = length X /\ Forall (fun row => length row = length indices) X0.
Proof.
  unfold take_columns. intros H. split; [eapply rmap_length; exact H|].
  apply Forall_forall. intros row' Hin. apply list_elem_of_In in Hin.
  destruct (rmap_In _ _ _ _ H Hin) as (row & _ & Hrow).
  unfold take_indices in Hrow. eapply rmap_length. exact Hrow.
Qed.

Lemma map_nth_seq_id {A} (l : list A) d :
  map (fun r => nth r l d) (seq 0 (length l)) = l.
Proof.
  apply nth_ext with (d := d) (d' := d).
  - rewrite length_map, length_seq. reflexivity.
  - intros n Hn. rewrite length_map, length_seq in Hn.
    rewrite (nth_indep _ d (nth 0 l d)) by (rewrite length_map, length_seq; exact Hn).
    rewrite (map_nth (fun r => nth r l d) (seq 0 (length l)) 0 n).
    rewrite seq_nth by exact Hn. reflexivity.
Qed.

Lemma rows_of_column (n : nat) (cols : list (list Q)) k col :
  cols !! k = Some col ->
  length col = n ->
  map (fun row => nth k row 0%Q) (rows_of n cols) = col.
Proof.
  intros Hk Hlen. unfold rows_of. rewrite map_map.
  transitivity (map (fun r => nth r col 0%Q) (seq 0 n)).
  - apply map_ext. intros r.
    assert (k < length cols) as Hlt by (eapply lookup_lt_Some; exact Hk).
    rewrite nth_error_lookup in Hk.
    rewrite (nth_indep _ 0%Q ((fun c : list Q => nth r c 0%Q) []))
      by (rewrite length_map; exact Hlt).
    rewrite (map_nth (fun c : list Q => nth r c 0%Q) cols [] k).
    f_equal. apply nth_error_nth. exact Hk.
  - subst n. apply map_nth_seq_id.
Qed.

Section PermutedColumns.
Context {E : Externals}.

Lemma shuffle_columns_permutes rng cols cols' rng' :
  (forall r v, Permutation (fst (shuffle r v)) v) ->
  shuffle_columns rng cols = (cols', rng') ->
  Forall2 (fun c' c => Permutation c' c) cols' cols.
Proof.
  intros Hperm. revert rng cols' rng'.
  induction cols as [|c cols IH]; intros rng cols' rng' H; simpl in H.
  - inversion H. constructor.
  - pose proof (Hperm rng c) as Hc.
    destruct (shuffle rng c) as [c1 rng1].
    destruct (shuffle_columns rng1 cols) as [rest rng2] eqn:Hrest.
    inversion H; subst. constructor; [exact Hc | eapply IH; exact Hrest].
Qed.

(** In "random_permutation" mode, provided [rng.shuffle] permutes the
    vector it is given, every column of the synthetic block holds the
    values of one column of the design matrix in another order: column [k]
    of [X_artificial_] is a permutation of the column of [X] whose index is
    the [k]-th one drawn by [rng.choice]. *)
Theorem random_permutation_columns_are_permuted_real_columns
    (X : list (list Q)) (nb_noise : nat) (rs : option Z)
    (h h' : heap) (X' : list (list Q)) :
  (forall r v, Permutation (fst (shuffle r v)) v) ->
  _make_artificial_features X "random_permutation" nb_noise rs h = (Ok X', h') ->
  let indices :=
    fst (choice (fst (default_rng rs (glob h))) (shape1 X) nb_noise false) in
  exists X_artificial,
    attrs h' !! "X_artificial_" = Some (PyArray2 X_artificial) /\
    forall k j,
      indices !! k = Some j ->
      Forall (fun row => j < length row) X /\
      Permutation (map (fun row => nth k row 0%Q) X_artificial)
                  (map (fun row => nth j row 0%Q) X).
Proof.
  intros Hperm H indices. subst indices.
  unfold _make_artificial_features in H. inv_M.
  match goal with Hd : default_rng rs (glob h) = _ |- _ => rewrite Hd end.
  cbn [fst]. simpl in H.
  destruct (choice _ _ _ _) as [indices rng1]. inv_M.
  destruct (shuffle_columns _ _) as [cols rng2] eqn:Hsh. inv_M.
  eexists. cbn [attrs fst]. split; [apply lookup_insert_eq|].
  intros k j Hk.
  match goal with
  | Ht : take_columns X indices = Ok ?X0 |- _ =>
      rename X0 into X_art0;
      destruct (take_columns_column X X_art0 indices k j Ht Hk) as [Hall Hcol];
      destruct (take_columns_shape X X_art0 indices Ht) as [Hrows Hwidth]
  end.
  split; [exact Hall|].
  apply shuffle_columns_permutes in Hsh; [|exact Hperm].
  destruct X_art0 as [|row0 X_art0].
  - destruct X; [|discriminate]. constructor.
  - assert (shape1 (row0 :: X_art0) = length indices) as Hshape.
    { inversion Hwidth; subst. assumption. }
    rewrite Hshape in Hsh.
    assert (k < length indices) as Hlt by (eapply lookup_lt_Some; exact Hk).
    unfold columns_of in Hsh.
    assert (map (fun i => map (fun row => nth i row 0%Q) (row0 :: X_art0))
                (seq 0 (length indices)) !! k
            = Some (map (fun row => nth k row 0%Q) (row0 :: X_art0))) as Hck.
    { rewrite list_lookup_fmap, lookup_seq_lt by exact Hlt. reflexivity. }
    destruct (Forall2_lookup_r _ _ _ _ _ Hsh Hck) as (col' & Hcol' & Hp).
    rewrite (rows_of_column _ cols k col' Hcol').
    + rewrite <- Hcol. exact Hp.
    + apply Permutation_length in Hp. rewrite Hp, length_map. reflexivity.
Qed.

End PermutedColumns.

Lemma random_permutation_columns_are_permuted_real_columns_witness :
  (forall r v, Permutation (fst (@shuffle toy r v)) v) /\
  @_make_artificial_features toy path_X "random_permutation" 1 (Some 0%Z) (fresh 0)
  = (Ok [[1; 0; 1]; [0; 1; 0]; [1; 1; 1]]%Q,
     snd (@_make_artificial_features toy path_X "random_permutation" 1
            (Some 0%Z) (fresh 0))) /\
  let indices :=
    fst (@choice toy (fst (@default_rng toy (Some 0%Z) (glob (fresh 0))))
           (shape1 path_X) 1 false) in
  exists X_artificial,
    attrs (snd (@_make_artificial_features toy path_X "random_permutation" 1
                  (Some 0%Z) (fresh 0)))
      !! "X_artificial_" = Some (PyArray2 X_artificial) /\
    forall k j,
      indices !! k = Some j ->
      Forall (fun row => j < length row) path_X /\
      Permutation (map (fun row => nth k row 0%Q) X_artificial)
                  (map (fun row => nth j row 0%Q) path_X).
Proof.
  split; [intros r v; simpl; symmetry; apply Permutation_rev|].
  split; [vm_compute; reflexivity|].
  apply (@random_permutation_columns_are_permuted_real_columns toy path_X 1
           (Some 0%Z) (fresh 0)
           (snd (@_make_artificial_features toy path_X "random_permutation" 1
                   (Some 0%Z) (fresh 0)))
           [[1; 0; 1]; [0; 1; 0]; [1; 1; 1]]%Q).
  - intros r v. simpl. symmetry. apply Permutation_rev.
  - vm_compute. reflexivity.
Defined.

(** ** More on the resampler *)

Lemma take_indices_in_range {A} (a : list A) indices xs :
  take_indices a indices = Ok xs -> Forall (fun i => i < length a) indices.
Proof.
  unfold take_indices. revert xs.
  induction indices as [|i indices IH]; intros xs H; [constructor|].
  apply rmap_Ok_cons in H as (x & xs' & -> & Hx & H).
  constructor; [|eapply IH; exact H].
  destruct (nth_error a i) eqn:Hi; [|discriminate].
  apply nth_error_Some. congruence.
Qed.

Lemma take_indices_total {A} (a : list A) indices :
  Forall (fun i => i < length a) indices ->
  exists xs, take_indices a indices = Ok xs /\ forall x, In x xs -> In x a.
Proof.
  unfold take_indices. induction 1 as [|i indices Hi _ IH].
  - exists []. split; [reflexivity | intros x []].
  - destruct IH as (xs & Hxs & Hin).
    apply nth_error_Some in Hi.
    destruct (nth_error a i) as [x|] eqn:Hx; [|congruence].
    exists (x :: xs). simpl. rewrite Hx. simpl. rewrite Hxs. simpl.
    split; [reflexivity|].
    intros x' [<-|Hx']; [eapply nth_error_In; exact Hx | auto].
Qed.

Lemma np_unique_single_valued (v : list Q) :
  (forall a b, In a v -> In b v -> (a == b)%Q) ->
  length (np_unique v) <= 1.
Proof.
  induction v as [|x v IH]; intros Hall; simpl; [lia|].
  destruct (existsb (Qeq_bool x) v) eqn:Hex.
  - apply IH. intros a b Ha Hb. apply Hall; right; assumption.
  - destruct v as [|x' v]; [simpl; lia|].
    exfalso. simpl in Hex. apply orb_false_elim in Hex as [Hx _].
    assert (x == x')%Q as Heq by (apply Hall; [left | right; left]; reflexivity).
    apply Qeq_bool_iff in Heq. congruence.
Qed.

Section ResamplerEdges.
Context {E : Externals}.

Lemma bootstrap_Ok_inv depth y n_subsamples replace rng indices rng' :
  bootstrap depth y n_subsamples replace rng = (Ok indices, rng') ->
  (length y <? n_subsamples) && negb replace = false /\
  exists ys, take_indices y indices = Ok ys /\ 2 <= length (np_unique ys).
Proof.
  revert rng. induction depth as [|depth IH]; intros rng H; simpl in H.
  - discriminate.
  - destruct ((length y <? n_subsamples) && negb replace) eqn:Hg; [discriminate|].
    destruct (choice rng (length y) n_subsamples replace) as [idx rng1].
    destruct (take_indices y idx) as [ys|e] eqn:Hys; [|discriminate].
    destruct (length (np_unique ys) <? 2) eqn:Hlen.
    + destruct (IH _ H) as [_ Hrest]. split; [reflexivity | exact Hrest].
    + inversion H; subst. apply Nat.ltb_ge in Hlen. eauto.
Qed.

(** When [_bootstraps_generator] has yielded all its index sets, there are
    [n_bootstraps] of them, every index in them is a valid sample index,
    and each set reaches two samples with different outcomes. *)
Theorem bootstraps_generator_yields_valid_index_sets
    (n_bootstraps : Z) (y : list Q) (n_subsamples : nat) (replace : bool)
    (random_state : option Z) (depth : nat) (g g' : global_state)
    (batch : list (list nat)) :
  _bootstraps_generator n_bootstraps y n_subsamples replace random_state depth g
  = (Ok batch, g') ->
  length batch = Z.to_nat n_bootstraps /\
  forall indices,
    In indices batch ->
    Forall (fun i => i < length y) indices /\
    exists i j a b,
      In i indices /\ In j indices /\
      nth_error y i = Some a /\ nth_error y j = Some b /\ ~ (a == b)%Q.
Proof.
  unfold _bootstraps_generator.
  destruct (default_rng random_state g) as [rng g1]. intros H.
  inversion H as [[Hdraw Hg]]. clear H.
  split; [eapply draw_bootstraps_length; exact Hdraw|].
  intros indices Hin.
  destruct (draw_bootstraps_In _ _ _ _ _ _ _ _ Hdraw Hin) as (rng0 & rng1 & Hb).
  apply bootstrap_Ok_inv in Hb as (_ & ys & Hys & Hlen).
  split; [eapply take_indices_in_range; exact Hys|].
  destruct (np_unique_two ys Hlen) as (a & b & Ha & Hb & Hab).
  destruct (take_indices_In _ _ _ _ Hys Ha) as (i & Hi & Hia).
  destruct (take_indices_In _ _ _ _ Hys Hb) as (j & Hj & Hjb).
  exists i, j, a, b. auto.
Qed.

(** On an outcome vector with a single distinct value, with a subsample
    size that passes the size test and a [rng.choice] that returns sample
    indices, [bootstrap] redraws until the frames are used up: it raises
    [RecursionError], whatever the number of frames. *)
Theorem bootstrap_on_single_class_exhausts_recursion
    (depth : nat) (y : list Q) (n_subsamples : nat) (replace : bool)
    (rng : generator) :
  (forall a b, In a y -> In b y -> (a == b)%Q) ->
  (length y <? n_subsamples) && negb replace = false ->
  (forall r, Forall (fun i => i < length y)
                    (fst (choice r (length y) n_subsamples replace))) ->
  fst (bootstrap depth y n_subsamples replace rng) = Raise RecursionError.
Proof.
  intros Hall Hguard Hrange. revert rng.
  induction depth as [|depth IH]; intros rng; simpl; [reflexivity|].
  rewrite Hguard. pose proof (Hrange rng) as Hr.
  destruct (choice rng (length y) n_subsamples replace) as [idx rng1].
  simpl in Hr. destruct (take_indices_total y idx Hr) as (ys & Hys & Hin).
  rewrite Hys.
  assert (length (np_unique ys) <= 1) as Hle.
  { apply np_unique_single_valued. intros a b Ha Hb. apply Hall; auto. }
  replace (length (np_unique ys) <? 2) with true
    by (symmetry; apply Nat.ltb_lt; lia).
  apply IH.
Qed.

End ResamplerEdges.

Lemma toy_choice_in_range a size replace r :
  0 < a -> Forall (fun i => i < a) (fst (toy_choice r a size replace)).
Proof.
  intros Ha. unfold toy_choice. simpl. apply Forall_forall. intros i Hi.
  apply list_elem_of_In, in_map_iff in Hi as (k & <- & _).
  apply Nat.mod_upper_bound. lia.
Qed.

Lemma bootstraps_generator_yields_valid_index_sets_witness :
  @_bootstraps_generator toy 2 path_y 2 false (Some 0%Z) 5 0
  = (Ok [[0; 1]; [2; 0]], 0) /\
  length [[0; 1]; [2; 0]] = Z.to_nat 2 /\
  forall indices,
    In indices [[0; 1]; [2; 0]] ->
    Forall (fun i => i < length path_y) indices /\
    exists i j a b,
      In i indices /\ In j indices /\
      nth_error path_y i = Some a /\ nth_error path_y j = Some b /\ ~ (a == b)%Q.
Proof.
  split; [vm_compute; reflexivity|].
  apply (@bootstraps_generator_yields_valid_index_sets toy 2 path_y 2 false
           (Some 0%Z) 5 0 0).
  vm_compute. reflexivity.
Defined.

Lemma bootstrap_on_single_class_exhausts_recursion_witness :
  (forall a b, In a [1; 1; 1]%Q -> In b [1; 1; 1]%Q -> (a == b)%Q) /\
  (length [1; 1; 1]%Q <? 2) && negb false = false /\
  (forall r, Forall (fun i => i < length [1; 1; 1]%Q)
                    (fst (@choice toy r (length [1; 1; 1]%Q) 2 false))) /\
  fst (@bootstrap toy 7 [1; 1; 1]%Q 2 false 0) = Raise RecursionError.
Proof.
  assert (forall a b, In a [1; 1; 1]%Q -> In b [1; 1; 1]%Q -> (a == b)%Q) as Hall.
  { intros a b Ha Hb. simpl in Ha, Hb.
    destruct Ha as [<-|[<-|[<-|[]]]]; destruct Hb as [<-|[<-|[<-|[]]]];
      reflexivity. }
  assert (forall r, Forall (fun i => i < length [1; 1; 1]%Q)
                           (fst (@choice toy r (length [1; 1; 1]%Q) 2 false)))
    as Hrange.
  { intros r. apply toy_choice_in_range. simpl. lia. }
  split; [exact Hall|]. split; [reflexivity|]. split; [exact Hrange|].
  apply (@bootstrap_on_single_class_exhausts_recursion toy 7 [1; 1; 1]%Q 2 false 0);
    [exact Hall | reflexivity | exact Hrange].
Defined.

(** ** Edge cases of [fit] *)

Section FitEdges.
Context {E : Externals}.

Lemma _validate_input_cases self :
  _validate_input self = Ok tt \/ _validate_input self = Raise ValueError.
Proof.
  unfold _validate_input.
  repeat match goal with
         | |- context [if ?c then _ else _] => destruct c; auto
         end.
Qed.

Ltac finish_validation :=
  repeat match goal with
         | |- _ /\ _ => split
         end;
  try assumption; try tauto; try congruence;
  try (let t := fresh in let Ht := fresh in
       intros t Ht; inversion Ht; subst; tauto).

Lemma _validate_input_Ok_iff self :
  _validate_input self = Ok tt <->
  (0 < n_bootstraps self)%Z /\
  (0 < sample_fraction self)%Q /\
  (forall t, threshold self = Some t -> (0 < t)%Q /\ (t <= 1)%Q) /\
  (threshold self = None -> artificial_type self <> None) /\
  (artificial_type self <> None ->
   (0 < artificial_proportion self)%Q /\ (artificial_proportion self <= 1)%Q) /\
  In (lambda_name self) (get_params_keys base_estimator).
Proof.
  assert (forall t, in_unit_interval t = true <-> (0 < t)%Q /\ (t <= 1)%Q) as Hunit.
  { intros t. unfold in_unit_interval.
    rewrite andb_true_iff, Qgtb_true, Qle_bool_iff. reflexivity. }
  assert (existsb (String.eqb (lambda_name self)) (get_params_keys base_estimator)
          = true
          <-> In (lambda_name self) (get_params_keys base_estimator)) as Hkeys.
  { rewrite existsb_exists. split.
    - intros (k & Hk & Heq). apply String.eqb_eq in Heq. congruence.
    - intros Hin. exists (lambda_name self). split; [exact Hin|].
      apply String.eqb_refl. }
  unfold _validate_input. split.
  - destruct (n_bootstraps self <=? 0)%Z eqn:Hn; [discriminate|].
    destruct (Qgtb (sample_fraction self) 0) eqn:Hsf; [|discriminate]. simpl.
    apply Z.leb_gt in Hn. apply Qgtb_true in Hsf.
    destruct (threshold self) as [t|] eqn:Ht.
    + destruct (in_unit_interval t) eqn:Hin; [|discriminate]. simpl.
      apply Hunit in Hin.
      destruct (artificial_type self) as [ty|].
      * destruct (in_unit_interval (artificial_proportion self)) eqn:Hap;
          [|discriminate]. simpl. apply Hunit in Hap.
        destruct (existsb _ _) eqn:Hk; [|discriminate]. simpl. intros _.
        pose proof (proj1 Hkeys eq_refl) as HIn.
        finish_validation.
      * destruct (existsb _ _) eqn:Hk; [|discriminate]. simpl. intros _.
        pose proof (proj1 Hkeys eq_refl) as HIn.
        finish_validation.
    + destruct (artificial_type self) as [ty|]; [|discriminate].
      destruct (in_unit_interval (artificial_proportion self)) eqn:Hap;
        [|discriminate]. simpl. apply Hunit in Hap.
      destruct (existsb _ _) eqn:Hk; [|discriminate]. simpl. intros _.
      pose proof (proj1 Hkeys eq_refl) as HIn.
      finish_validation.
  - intros (Hn & Hsf & Ht & Hnone & Hap & Hk).
    apply Z.leb_gt in Hn. rewrite Hn.
    apply Qgtb_true in Hsf. rewrite Hsf. simpl.
    apply Hkeys in Hk. rewrite Hk. simpl.
    destruct (threshold self) as [t|].
    + destruct (Ht t eq_refl) as [H0 H1].
      assert (in_unit_interval t = true) as -> by (apply Hunit; auto). simpl.
      destruct (artificial_type self) as [ty|]; [|reflexivity].
      assert (in_unit_interval (artificial_proportion self) = true) as ->
          by (apply Hunit; apply Hap; discriminate).
      reflexivity.
    + destruct (artificial_type self) as [ty|]; [|exfalso; apply Hnone; reflexivity].
      assert (in_unit_interval (artificial_proportion self) = true) as ->
          by (apply Hunit; apply Hap; discriminate).
      reflexivity.
Qed.

(** A configuration that [_validate_input] refuses makes [fit] raise
    [ValueError] before anything else happens: no attribute is assigned
    and no random state is consumed. The configuration is refused exactly
    when [n_bootstraps <= 0], or [sample_fraction <= 0], or a fixed
    threshold lies outside (0, 1], or neither a threshold nor synthetic
    features are configured, or synthetic features are configured with a
    proportion outside (0, 1], or the base estimator has no parameter
    named [lambda_name]. *)
Theorem fit_refuses_invalid_configuration_untouched
    (self : params) (depth : nat) (X : list (list Q)) (y : list Q) (h : heap) :
  ~ ((0 < n_bootstraps self)%Z /\
     (0 < sample_fraction self)%Q /\
     (forall t, threshold self = Some t -> (0 < t)%Q /\ (t <= 1)%Q) /\
     (threshold self = None -> artificial_type self <> None) /\
     (artificial_type self <> None ->
      (0 < artificial_proportion self)%Q /\ (artificial_proportion self <= 1)%Q) /\
     In (lambda_name self) (get_params_keys base_estimator)) ->
  fit self depth X y h = (Raise ValueError, h).
Proof.
  intros Hbad. rewrite <- _validate_input_Ok_iff in Hbad.
  destruct (_validate_input_cases self) as [Hok|Hraise]; [contradiction|].
  unfold fit, fit_path, bind, lift. rewrite Hraise. reflexivity.
Qed.

End FitEdges.

Lemma fit_refuses_invalid_configuration_untouched_witness :
  let self := set_threshold (Some (3 # 2)%Q) path_params in
  ~ ((0 < n_bootstraps self)%Z /\
     (0 < sample_fraction self)%Q /\
     (forall t, threshold self = Some t -> (0 < t)%Q /\ (t <= 1)%Q) /\
     (threshold self = None -> artificial_type self <> None) /\
     (artificial_type self <> None ->
      (0 < artificial_proportion self)%Q /\ (artificial_proportion self <= 1)%Q) /\
     In (lambda_name self) (@get_params_keys toy (@base_estimator toy))) /\
  @fit toy self 5 path_X path_y (fresh 0) = (Raise ValueError, fresh 0).
Proof.
  intros self.
  assert (~ ((0 < n_bootstraps self)%Z /\
     (0 < sample_fraction self)%Q /\
     (forall t, threshold self = Some t -> (0 < t)%Q /\ (t <= 1)%Q) /\
     (threshold self = None -> artificial_type self <> None) /\
     (artificial_type self <> None ->
      (0 < artificial_proportion self)%Q /\ (artificial_proportion self <= 1)%Q) /\
     In (lambda_name self) (@get_params_keys toy (@base_estimator toy)))) as Hbad.
  { intros (_ & _ & Ht & _). destruct (Ht (3 # 2)%Q eq_refl) as [_ Hle].
    apply Hle. reflexivity. }
  split; [exact Hbad|].
  apply (@fit_refuses_invalid_configuration_untouched toy self 5 path_X path_y
           (fresh 0) Hbad).
Defined.

Section FitNeverReturns.
Context {E : Externals}.

Lemma fit_path_validated self depth X y h trace h1 :
  fit_path self depth X y h = (Ok trace, h1) ->
  well_shaped X = true /\ length y = length X.
Proof.
  unfold fit_path, _validate_data_fit. intros H. inv_M.
  destruct (well_shaped X && (length y =? length X)) eqn:Hshape; [|discriminate].
  apply andb_true_iff in Hshape as [Hw Hl]. apply Nat.eqb_eq in Hl. auto.
Qed.

Lemma well_shaped_width X : well_shaped X = true -> 1 <= shape1 X /\ X <> [].
Proof.
  destruct X as [|row X]; [discriminate|].
  unfold well_shaped, shape1.
  intros H. apply andb_true_iff in H as [H _]. apply Nat.leb_le in H.
  split; [exact H | discriminate].
Qed.

Lemma fit_Ok_grid_nonempty self depth X y h u h' :
  fit self depth X y h = (Ok u, h') -> lambda_grid self <> [].
Proof.
  intros Hfit Hgrid.
  apply fit_Ok in Hfit as (trace & h1 & rows & ms & Hpath & Hrows & Hms & _).
  pose proof (fit_path_validated _ _ _ _ _ _ _ Hpath) as [Hw _].
  apply well_shaped_width in Hw as [Hw _].
  pose proof (fit_path_Ok _ _ _ _ _ _ _ Hpath)
    as (_ & Hlen & _ & (rows' & Hrows' & Hn & Hsc) & _).
  rewrite Hrows in Hrows'. inversion Hrows'; subst rows'; clear Hrows'.
  rewrite Hgrid in Hlen. simpl in Hlen.
  destruct rows as [|row rows]; [simpl in Hn; lia|].
  destruct (Hsc 0 row eq_refl) as [Hrow _]. rewrite Hlen in Hrow.
  destruct row; [|discriminate]. simpl in Hms. discriminate.
Qed.

(** With an empty [lambda_grid] a fit never returns: the score matrix has
    no column, and the maximum over the grid does not exist. *)
Theorem fit_never_returns_with_empty_lambda_grid
    (self : params) (depth : nat) (X : list (list Q)) (y : list Q) (h : heap) :
  lambda_grid self = [] ->
  fst (fit self depth X y h) <> Ok tt.
Proof.
  intros Hgrid Hok.
  destruct (fit self depth X y h) as [r h'] eqn:Hfit. simpl in Hok. subst r.
  exact (fit_Ok_grid_nonempty _ _ _ _ _ _ _ Hfit Hgrid).
Qed.

(** With synthetic features and an empty [fdr_threshold_range] a fit never
    returns: the FDR curve is empty and has no minimum. *)
Theorem fit_never_returns_with_empty_fdr_threshold_range
    (self : params) (depth : nat) (X : list (list Q)) (y : list Q) (h : heap) :
  artificial_type self <> None ->
  fdr_threshold_range self = [] ->
  fst (fit self depth X y h) <> Ok tt.
Proof.
  intros Hart Hrange Hok.
  destruct (fit self depth X y h) as [r h'] eqn:Hfit. simpl in Hok. subst r.
  destruct (fit_controller_state _ _ _ _ _ _ _ Hfit Hart)
    as (rows & arows & ms & msa & mf & fc & _ & _ & _ & _ & _ & _ & _ & _ & _
        & Hmin & _).
  rewrite Hrange in Hmin. discriminate.
Qed.

(** On an outcome vector with a single distinct value a fit never
    returns, whatever the generators draw: no index set can reach two
    different outcomes. *)
Theorem fit_never_returns_on_single_class_outcome
    (self : params) (depth : nat) (X : list (list Q)) (y : list Q) (h : heap) :
  (forall a b, In a y -> In b y -> (a == b)%Q) ->
  fst (fit self depth X y h) <> Ok tt.
Proof.
  intros Hall Hok.
  destruct (fit self depth X y h) as [r h'] eqn:Hfit. simpl in Hok. subst r.
  pose proof (fit_Ok_grid_nonempty _ _ _ _ _ _ _ Hfit) as Hgrid.
  apply fit_Ok in Hfit as (trace & h1 & rows & ms & Hpath & _).
  pose proof (fit_path_Ok _ _ _ _ _ _ _ Hpath)
    as (Hval & Hlen & (g0 & Hdraw) & _).
  apply _validate_input_Ok in Hval as (Hn & _).
  destruct trace as [|[batch masks] trace].
  { destruct (lambda_grid self); [congruence | discriminate]. }
  destruct (Hdraw 0 batch masks eq_refl) as (Hd & _).
  pose proof (draw_bootstraps_length _ _ _ _ _ _ _ Hd) as Hb.
  destruct batch as [|indices batch]; [simpl in Hb; lia|].
  destruct (draw_bootstraps_In _ _ _ _ _ _ _ indices Hd (or_introl eq_refl))
    as (rng0 & rng1 & Hboot).
  apply bootstrap_Ok_inv in Hboot as (_ & ys & Hys & Hlen2).
  assert (length (np_unique ys) <= 1); [|lia].
  apply np_unique_single_valued. intros a b Ha Hb'.
  destruct (take_indices_In _ _ _ _ Hys Ha) as (i & _ & Hi).
  destruct (take_indices_In _ _ _ _ Hys Hb') as (j & _ & Hj).
  apply Hall; eapply nth_error_In; eassumption.
Qed.

End FitNeverReturns.

Lemma fit_never_returns_with_empty_lambda_grid_witness :
  let self := {|
    lambda_name := "C"; lambda_grid := []; n_bootstraps := 2;
    artificial_type := None; artificial_proportion := 1;
    sample_fraction := 2 # 3; replace := false; threshold := Some (6 # 10)%Q;
    fdr_threshold_range := []; bootstrap_threshold := 1 # 100000;
    verbose := 0; n_jobs := 1; random_state := Some 0%Z |} in
  lambda_grid self = [] /\
  fst (@fit toy self 5 path_X path_y (fresh 0)) <> Ok tt.
Proof.
  intros self. split; [reflexivity|].
  apply (@fit_never_returns_with_empty_lambda_grid toy self 5 path_X path_y
           (fresh 0)).
  reflexivity.
Defined.

Lemma fit_never_returns_with_empty_fdr_threshold_range_witness :
  let self := {|
    lambda_name := "C"; lambda_grid := [1 # 4; 1 # 2]%Q; n_bootstraps := 2;
    artificial_type := Some "random_permutation"; artificial_proportion := 1 # 2;
    sample_fraction := 2 # 3; replace := false; threshold := None;
    fdr_threshold_range := []; bootstrap_threshold := 1 # 100000;
    verbose := 0; n_jobs := 1; random_state := Some 0%Z |} in
  artificial_type self <> None /\
  fdr_threshold_range self = [] /\
  fst (@fit toy self 5 path_X path_y (fresh 0)) <> Ok tt.
Proof.
  intros self. split; [discriminate|]. split; [reflexivity|].
  apply (@fit_never_returns_with_empty_fdr_threshold_range toy self 5 path_X
           path_y (fresh 0)).
  - discriminate.
  - reflexivity.
Defined.

Lemma fit_never_returns_on_single_class_outcome_witness :
  (forall a b, In a [1; 1; 1]%Q -> In b [1; 1; 1]%Q -> (a == b)%Q) /\
  fst (@fit toy path_params 5 path_X [1; 1; 1]%Q (fresh 0)) <> Ok tt.
Proof.
  assert (forall a b, In a [1; 1; 1]%Q -> In b [1; 1; 1]%Q -> (a == b)%Q) as Hall.
  { intros a b Ha Hb. simpl in Ha, Hb.
    destruct Ha as [<-|[<-|[<-|[]]]]; destruct Hb as [<-|[<-|[<-|[]]]];
      reflexivity. }
  split; [exact Hall|].
  apply (@fit_never_returns_on_single_class_outcome toy path_params 5 path_X
           [1; 1; 1]%Q (fresh 0) Hall).
Defined.

Section SubsampleSize.
Context {E : Externals}.

(** Without synthetic features, without replacement and with a subsample
    size [floor(sample_fraction * n_samples)] above the number of samples,
    a fit of an otherwise valid configuration on well-formed data raises
    [ValueError] at the first grid point, from [bootstrap], before any
    index is drawn; by then [n_features_in_] and the zero score matrix
    have been assigned and one generator has been created. *)
Theorem fit_oversized_subsample_raises_inside_the_loop
    (self : params) (depth : nat) (X : list (list Q)) (y : list Q) (h : heap) :
  _validate_input self = Ok tt ->
  well_shaped X = true ->
  length y = length X ->
  artificial_type self = None ->
  replace self = false ->
  lambda_grid self <> [] ->
  length y <
    Z.to_nat (Qfloor (sample_fraction self * inject_Z (Z.of_nat (length X)))) ->
  fit self (S depth) X y h
  = (Raise ValueError,
     {| attrs :=
          <["stability_scores_" :=
              PyArray2 (zeros (shape1 X) (length (lambda_grid self)))]>
          (<["n_features_in_" := PyInt (Z.of_nat (shape1 X))]> (attrs h));
        glob := next_global (random_state self) (glob h) |}).
Proof.
  intros Hval Hw Hlen Hart Hrep Hgrid Hbig.
  pose proof (_validate_input_Ok _ _ Hval) as (Hn & _).
  unfold fit, fit_path, _validate_data_fit.
  rewrite Hval, Hw, Hlen, Nat.eqb_refl, Hart. simpl andb. cbv iota.
  destruct (lambda_grid self) as [|lam grid] eqn:Hg; [congruence|].
  unfold enumerate. cbn [length seq combine fit_loop].
  unfold bind at 1. unfold bind at 1. unfold bind at 1. unfold lift at 1.
  unfold bind at 1. unfold setattr at 1.
  unfold bind at 1. unfold bind at 1. unfold setattr at 1.
  unfold bind at 1. unfold ret at 1.
  unfold bind at 1. unfold fit_iteration. unfold bind at 1.
  unfold with_global_result, _bootstraps_generator, next_global.
  cbn [glob attrs].
  destruct (default_rng (random_state self) (glob h)) as [rng g1]. cbn [snd].
  destruct (Z.to_nat (n_bootstraps self)) as [|n] eqn:Hnb; [lia|].
  cbn [draw_bootstraps bootstrap]. rewrite Hrep.
  apply Nat.ltb_lt in Hbig. rewrite Hbig. reflexivity.
Qed.

End SubsampleSize.

Lemma fit_oversized_subsample_raises_inside_the_loop_witness :
  let self := {|
    lambda_name := "C"; lambda_grid := [1 # 4; 1 # 2]%Q; n_bootstraps := 2;
    artificial_type := None; artificial_proportion := 1;
    sample_fraction := 3 # 2; replace := false; threshold := Some (6 # 10)%Q;
    fdr_threshold_range := []; bootstrap_threshold := 1 # 100000;
    verbose := 0; n_jobs := 1; random_state := Some 0%Z |} in
  @_validate_input toy self = Ok tt /\
  well_shaped path_X = true /\
  length path_y = length path_X /\
  artificial_type self = None /\
  replace self = false /\
  lambda_grid self <> [] /\
  length path_y <
    Z.to_nat (Qfloor (sample_fraction self * inject_Z (Z.of_nat (length path_X)))) /\
  @fit toy self 1 path_X path_y (fresh 0)
  = (Raise ValueError,
     @Build_heap toy
       (<["stability_scores_" :=
            PyArray2 (zeros (shape1 path_X) (length (lambda_grid self)))]>
        (<["n_features_in_" := PyInt (Z.of_nat (shape1 path_X))]>
           (attrs (fresh 0))))
       (@next_global toy (random_state self) (glob (fresh 0)))).
Proof.
  intros self.
  split; [reflexivity|]. split; [reflexivity|]. split; [reflexivity|].
  split; [reflexivity|]. split; [reflexivity|]. split; [discriminate|].
  split; [vm_compute; lia|].
  apply (@fit_oversized_subsample_raises_inside_the_loop toy self 0 path_X
           path_y (fresh 0)).
  - reflexivity.
  - reflexivity.
  - reflexivity.
  - reflexivity.
  - reflexivity.
  - discriminate.
  - vm_compute. lia.
Defined.

(** ** Masks, indices and column selection *)

Lemma where_true_In s mask i :
  In i (where_true s mask) <->
  exists k, i = s + k /\ mask !! k = Some true.
Proof.
  revert s. induction mask as [|b mask IH]; intros s; simpl.
  - split; [intros [] | intros (k & _ & Hk); destruct k; discriminate].
  - destruct b; simpl; rewrite ?IH; split.
    + intros [<-|(k & -> & Hk)].
      * exists 0. split; [lia | reflexivity].
      * exists (S k). split; [lia | exact Hk].
    + intros ([|k] & -> & Hk).
      * left. lia.
      * right. exists k. split; [lia | exact Hk].
    + intros (k & -> & Hk). exists (S k). split; [lia | exact Hk].
    + intros ([|k] & -> & Hk); [discriminate|].
      exists k. split; [lia | exact Hk].
Qed.

Lemma where_true_sorted s mask : StronglySorted lt (where_true s mask).
Proof.
  revert s. induction mask as [|b mask IH]; intros s; simpl; [constructor|].
  destruct b; [|apply IH].
  constructor; [apply IH|].
  apply Forall_forall. intros i Hi. apply list_elem_of_In in Hi.
  apply where_true_In in Hi as (k & -> & _). lia.
Qed.

Lemma where_true_length s mask : length (where_true s mask) = count_true mask.
Proof.
  revert s. induction mask as [|b mask IH]; intros s; simpl; [reflexivity|].
  destruct b; simpl; rewrite IH; reflexivity.
Qed.

Lemma select_by_mask_length {A} mask (row : list A) :
  length row = length mask ->
  length (select_by_mask mask row) = count_true mask.
Proof.
  revert row. induction mask as [|b mask IH]; intros [|x row] Hlen;
    simpl in *; try discriminate; try reflexivity.
  destruct b; simpl; rewrite IH by lia; reflexivity.
Qed.

Lemma select_by_mask_none {A} mask (row : list A) :
  existsb (fun b => b) mask = false -> select_by_mask mask row = [].
Proof.
  revert row. induction mask as [|b mask IH]; intros row H; [reflexivity|].
  simpl in H. apply orb_false_elim in H as [-> H].
  destruct row; simpl; [reflexivity | apply IH; exact H].
Qed.

Lemma select_by_mask_lookup_from {A} mask (row : list A) s k :
  length row = length mask ->
  select_by_mask mask row !! k
  = match where_true s mask !! k with
    | Some i => row !! (i - s)
    | None => None
    end.
Proof.
  revert row s k. induction mask as [|b mask IH]; intros [|x row] s k Hlen;
    simpl in Hlen; try discriminate.
  - destruct k; reflexivity.
  - assert (forall k',
               select_by_mask mask row !! k'
               = match where_true (S s) mask !! k' with
                 | Some i => (x :: row) !! (i - s)
                 | None => None
                 end) as Hrest.
    { intros k'. rewrite (IH row (S s) k') by lia.
      destruct (where_true (S s) mask !! k') as [i|] eqn:Hi; [|reflexivity].
      assert (In i (where_true (S s) mask)) as Hin.
      { apply list_elem_of_In. eapply list_elem_of_lookup_2. exact Hi. }
      apply where_true_In in Hin as (j & -> & _).
      replace (S s + j - s) with (S (S s + j - S s)) by lia. reflexivity. }
    simpl. destruct b.
    + destruct k as [|k]; simpl.
      * rewrite Nat.sub_diag. reflexivity.
      * apply Hrest.
    + apply Hrest.
Qed.

Lemma select_by_mask_lookup {A} mask (row : list A) k :
  length row = length mask ->
  select_by_mask mask row !! k
  = match where_true 0 mask !! k with
    | Some i => row !! i
    | None => None
    end.
Proof.
  intros Hlen. rewrite (select_by_mask_lookup_from mask row 0 k Hlen).
  destruct (where_true 0 mask !! k); [rewrite Nat.sub_0_r|]; reflexivity.
Qed.

(** [get_support(indices=True)] lists, in increasing order and without
    repetition, exactly the positions at which the mask returned by
    [get_support(indices=False)] is [True]; it raises whenever the mask
    call raises. *)
Theorem get_support_indices_are_the_true_positions
    (self : params) (dict : gmap string pyval) (new_threshold : option Q)
    (mask : list bool) :
  get_support self dict false new_threshold = Ok (Mask mask) ->
  exists indices,
    get_support self dict true new_threshold = Ok (Indices indices) /\
    (forall i, In i indices <-> mask !! i = Some true) /\
    StronglySorted lt indices /\
    length indices = count_true mask.
Proof.
  unfold get_support. intros H.
  apply rbind_Ok in H as (m & Hm & H). inversion H; subst m; clear H.
  rewrite Hm. simpl. eexists. split; [reflexivity|].
  split; [|split; [apply where_true_sorted | apply where_true_length]].
  intros i. rewrite where_true_In. split.
  - intros (k & -> & Hk). exact Hk.
  - intros Hi. exists i. split; [reflexivity | exact Hi].
Qed.

Lemma get_support_indices_are_the_true_positions_witness :
  let dict := attrs (snd (@fit toy path_params 5 path_X path_y (fresh 0))) in
  get_support path_params dict false (Some (6 # 10)%Q) = Ok (Mask [true; false]) /\
  exists indices,
    get_support path_params dict true (Some (6 # 10)%Q) = Ok (Indices indices) /\
    (forall i, In i indices <-> [true; false] !! i = Some true) /\
    StronglySorted lt indices /\
    length indices = count_true [true; false].
Proof.
  intros dict. split; [vm_compute; reflexivity|].
  apply (get_support_indices_are_the_true_positions path_params dict
           (Some (6 # 10)%Q) [true; false]).
  vm_compute. reflexivity.
Defined.

(** ** The shape of the fitted state *)

Section FittedShape.
Context {E : Externals}.

Lemma _make_artificial_features_rows X ty nb_noise rs h X' h' :
  _make_artificial_features X ty nb_noise rs h = (Ok X', h') ->
  exists X_artificial g,
    length X_artificial = length X /\
    h' = {| attrs := <["X_artificial_" := PyArray2 X_artificial]> (attrs h);
            glob := g |}.
Proof.
  unfold _make_artificial_features. intros H. inv_M.
  destruct (String.eqb ty "random_permutation").
  - destruct (choice _ _ _ _) as [indices rng1]. inv_M.
    destruct (shuffle_columns _ _) as [cols rng2]. inv_M.
    match goal with
    | Hc : concatenate1 _ _ = Ok _ |- _ => apply concatenate1_Ok in Hc as (Hl & _)
    end.
    eauto.
  - destruct (String.eqb ty "knockoff"); [|discriminate].
    inv_M. destruct (choice _ _ _ _) as [indices rng1]. inv_M.
    match goal with
    | Hc : concatenate1 _ _ = Ok _ |- _ => apply concatenate1_Ok in Hc as (Hl & _)
    end.
    eauto.
Qed.

Lemma fit_path_attributes self depth X y h trace h1 :
  fit_path self depth X y h = (Ok trace, h1) ->
  attrs h1 !! "n_features_in_" = Some (PyInt (Z.of_nat (shape1 X))) /\
  match artificial_type self with
  | Some _ =>
      exists arows X_artificial,
        attrs h1 !! "stability_scores_artificial_" = Some (PyArray2 arows) /\
        length arows =
          Z.to_nat (Qfloor (inject_Z (Z.of_nat (shape1 X))
                            * artificial_proportion self)) /\
        attrs h1 !! "X_artificial_" = Some (PyArray2 X_artificial) /\
        length X_artificial = length X
  | None => True
  end.
Proof.
  unfold fit_path, _validate_data_fit. intros H. inv_M.
  destruct (well_shaped X && (length y =? length X)) eqn:Hshape; [|discriminate].
  inv_M.
  match goal with
  | Hl : fit_loop _ _ _ _ _ _ _ _ = _ |- _ =>
      apply fit_loop_Ok in Hl as (_ & _ & _ & _ & Hart & Hframe)
  end.
  destruct (artificial_type self) as [ty|]; inv_M.
  - match goal with
    | Hm : _make_artificial_features _ _ _ _ _ = _ |- _ =>
        apply _make_artificial_features_rows in Hm as (Xa & g & HXa & ->)
    end.
    cbn [attrs] in *. split.
    + rewrite Hframe by discriminate.
      rewrite !lookup_insert_ne by discriminate. apply lookup_insert_eq.
    + destruct (Hart (zeros
                 (Z.to_nat (Qfloor (inject_Z (Z.of_nat (shape1 X))
                                    * artificial_proportion self)))
                 (length (lambda_grid self)))) as [_ Hfin].
      { rewrite lookup_insert_ne by discriminate. apply lookup_insert_eq. }
      eexists _, Xa. split; [exact Hfin|].
      split; [rewrite length_imap; apply length_zeros|].
      split; [|exact HXa].
      rewrite Hframe by discriminate. apply lookup_insert_eq.
  - cbn [attrs] in *. split; [|exact I].
    rewrite Hframe by discriminate.
    rewrite lookup_insert_ne by discriminate. apply lookup_insert_eq.
Qed.

Lemma fit_Ok_shapes
    (self : params) (depth : nat) (X : list (list Q)) (y : list Q)
    (h h' : heap) :
  fit self depth X y h = (Ok tt, h') ->
  exists rows max_scores,
    attrs h' !! "stability_scores_" = Some (PyArray2 rows) /\
    length rows = shape1 X /\
    Forall (fun row => length row = length (lambda_grid self)) rows /\
    np_max_axis1 (PyArray2 rows) = Ok max_scores /\
    length max_scores = shape1 X /\
    attrs h' !! "n_features_in_" = Some (PyInt (Z.of_nat (shape1 X))) /\
    (artificial_type self <> None ->
     exists arows X_artificial,
       attrs h' !! "stability_scores_artificial_" = Some (PyArray2 arows) /\
       length arows =
         Z.to_nat (Qfloor (inject_Z (Z.of_nat (shape1 X))
                           * artificial_proportion self)) /\
       Forall (fun row => length row = length (lambda_grid self)) arows /\
       attrs h' !! "X_artificial_" = Some (PyArray2 X_artificial) /\
       length X_artificial = length X).
Proof.
  intros Hfit.
  apply fit_Ok in Hfit as (trace & h1 & rows & ms & Hpath & Hrows & Hms & Hfdr).
  pose proof (fit_path_Ok _ _ _ _ _ _ _ Hpath)
    as (_ & Hlen & _ & (rows' & Hrows' & Hnrows & Hsc) & Hart).
  rewrite Hrows in Hrows'. inversion Hrows'; subst rows'; clear Hrows'.
  pose proof (fit_path_attributes _ _ _ _ _ _ _ Hpath) as [Hnf Hshape].
  assert (forall off rs, scores_of_trace off trace rs ->
            Forall (fun row => length row = length (lambda_grid self)) rs)
    as Hwidth.
  { intros off rs Hs. apply Forall_lookup. intros j row Hj.
    destruct (Hs j row Hj) as [Hl _]. congruence. }
  assert (length ms = shape1 X) as Hlms.
  { simpl in Hms. apply rmap_length in Hms. congruence. }
  exists rows, ms.
  destruct (artificial_type self) as [ty|].
  - apply _compute_FDRc_Ok in Hfdr
      as (? & ? & ? & ? & ? & ? & _ & _ & _ & _ & _ & _ & ->).
    cbn [attrs]. rewrite !lookup_insert_ne by discriminate.
    split; [assumption|]. split; [assumption|].
    split; [eapply Hwidth; exact Hsc|].
    split; [assumption|]. split; [assumption|]. split; [assumption|].
    intros _.
    destruct Hart as (arows & Harows & Hasc).
    destruct Hshape as (arows' & Xa & Harows' & Hlen' & HXa & HlXa).
    rewrite Harows in Harows'. inversion Harows'; subst arows'.
    exists arows, Xa.
    split; [assumption|]. split; [assumption|].
    split; [eapply Hwidth; exact Hasc|]. split; assumption.
  - subst h'.
    split; [assumption|]. split; [assumption|].
    split; [eapply Hwidth; exact Hsc|].
    split; [assumption|]. split; [assumption|]. split; [assumption|].
    intros Hne. congruence.
Qed.

(** After a fit, [stability_scores_] has one row per column of [X] and one
    column per grid point, the maximum over the grid exists for every
    feature, and [n_features_in_] is the number of columns of [X]; with
    synthetic features, [stability_scores_artificial_] has
    [int(n_features * artificial_proportion)] rows and one column per grid
    point, and [X_artificial_] has one row per sample. *)
Theorem fitted_state_shapes
    (self : params) (depth : nat) (X : list (list Q)) (y : list Q)
    (h h' : heap) :
  fit self depth X y h = (Ok tt, h') ->
  exists rows max_scores,
    attrs h' !! "stability_scores_" = Some (PyArray2 rows) /\
    length rows = shape1 X /\
    Forall (fun row => length row = length (lambda_grid self)) rows /\
    np_max_axis1 (PyArray2 rows) = Ok max_scores /\
    length max_scores = shape1 X /\
    attrs h' !! "n_features_in_" = Some (PyInt (Z.of_nat (shape1 X))) /\
    (artificial_type self <> None ->
     exists arows X_artificial,
       attrs h' !! "stability_scores_artificial_" = Some (PyArray2 arows) /\
       length arows =
         Z.to_nat (Qfloor (inject_Z (Z.of_nat (shape1 X))
                           * artificial_proportion self)) /\
       Forall (fun row => length row = length (lambda_grid self)) arows /\
       attrs h' !! "X_artificial_" = Some (PyArray2 X_artificial) /\
       length X_artificial = length X).
Proof. apply fit_Ok_shapes. Qed.

End FittedShape.

Lemma fitted_state_shapes_witness :
  let run := @fit toy path_params 5 path_X path_y (fresh 0) in
  run = (Ok tt, snd run) /\
  exists rows max_scores,
    attrs (snd run) !! "stability_scores_" = Some (PyArray2 rows) /\
    length rows = shape1 path_X /\
    Forall (fun row => length row = length (lambda_grid path_params)) rows /\
    np_max_axis1 (PyArray2 rows) = Ok max_scores /\
    length max_scores = shape1 path_X /\
    attrs (snd run) !! "n_features_in_"
      = Some (PyInt (Z.of_nat (shape1 path_X))) /\
    (artificial_type path_params <> None ->
     exists arows X_artificial,
       attrs (snd run) !! "stability_scores_artificial_" = Some (PyArray2 arows) /\
       length arows =
         Z.to_nat (Qfloor (inject_Z (Z.of_nat (shape1 path_X))
                           * artificial_proportion path_params)) /\
       Forall (fun row => length row = length (lambda_grid path_params)) arows /\
       attrs (snd run) !! "X_artificial_" = Some (PyArray2 X_artificial) /\
       length X_artificial = length path_X).
Proof.
  intros run. split; [vm_compute; reflexivity|].
  apply (@fitted_state_shapes toy path_params 5 path_X path_y (fresh 0)).
  vm_compute. reflexivity.
Defined.

(** ** [transform] and [get_feature_names_out] on a fitted object *)

Lemma well_shaped_rows X row :
  well_shaped X = true -> In row X -> length row = shape1 X.
Proof.
  destruct X as [|row0 X]; [discriminate|]. unfold well_shaped, shape1.
  intros H Hin. apply andb_true_iff in H as [_ H].
  rewrite forallb_forall in H. apply Nat.eqb_eq. apply H. exact Hin.
Qed.

Lemma greater_than_length scores cutoff mask :
  greater_than scores cutoff = Ok mask -> length mask = length scores.
Proof.
  destruct cutoff; simpl; try discriminate;
    intros H; inversion H; apply length_map.
Qed.

Section TransformFacts.
Context {E : Externals}.

Lemma fitted_mask_length self depth X y h h' new_threshold mask :
  fit self depth X y h = (Ok tt, h') ->
  _get_support_mask self (attrs h') new_threshold = Ok mask ->
  length mask = shape1 X.
Proof.
  intros Hfit Hmask.
  destruct (fit_Ok_shapes _ _ _ _ _ _ Hfit)
    as (rows & ms & Hrows & _ & _ & Hms & Hlms & _).
  unfold _get_support_mask in Hmask.
  apply rbind_Ok in Hmask as (_ & _ & Hmask).
  apply rbind_Ok in Hmask as (cutoff & _ & Hmask).
  apply rbind_Ok in Hmask as (s & Hs & Hmask).
  apply rbind_Ok in Hmask as (ms' & Hms' & Hmask).
  unfold lookup_attr in Hs. rewrite Hrows in Hs. inversion Hs; subst s.
  rewrite Hms in Hms'. inversion Hms'; subst ms'.
  apply greater_than_length in Hmask. congruence.
Qed.

(** On a fitted object, the mask of [get_support] has one entry per
    feature seen by [fit]. [transform] of a well-formed matrix with another
    number of columns raises [ValueError]; with the same number of columns
    it returns, for every row, the entries at the selected positions in
    their order, hence a matrix with as many rows and with as many columns
    as features are selected, which has no column (and is no error) when
    nothing is selected. *)
Theorem transform_keeps_the_selected_columns
    (self : params) (depth : nat) (X : list (list Q)) (y : list Q)
    (h h' : heap) (X2 : list (list Q)) (new_threshold : option Q)
    (mask : list bool) :
  fit self depth X y h = (Ok tt, h') ->
  well_shaped X2 = true ->
  get_support self (attrs h') false new_threshold = Ok (Mask mask) ->
  length mask = shape1 X /\
  (shape1 X2 <> shape1 X ->
   transform self (attrs h') X2 new_threshold = Raise ValueError) /\
  (shape1 X2 = shape1 X ->
   transform self (attrs h') X2 new_threshold
     = Ok (map (select_by_mask mask) X2) /\
   Forall (fun row => length row = count_true mask)
          (map (select_by_mask mask) X2)).
Proof.
  intros Hfit Hw Hsup.
  unfold get_support in Hsup.
  apply rbind_Ok in Hsup as (m & Hmask & Hm). inversion Hm; subst m; clear Hm.
  pose proof (fitted_mask_length _ _ _ _ _ _ _ _ Hfit Hmask) as Hlen.
  destruct (fit_Ok_shapes _ _ _ _ _ _ Hfit)
    as (rows & ms & _ & _ & _ & _ & _ & Hnf & _).
  split; [exact Hlen|].
  unfold transform, _validate_data_transform. rewrite Hw, Hnf. simpl negb.
  cbv iota. split.
  - intros Hne.
    destruct (Z.of_nat (shape1 X) =? Z.of_nat (shape1 X2))%Z eqn:Heq.
    + apply Z.eqb_eq in Heq. lia.
    + reflexivity.
  - intros Heq. rewrite Heq, Z.eqb_refl. cbn [rbind]. rewrite Hmask.
    cbn [rbind]. rewrite Hlen, Nat.eqb_refl. simpl negb. cbv iota.
    split.
    + destruct (existsb (fun b => b) mask) eqn:Hany; simpl negb; cbv iota.
      * reflexivity.
      * f_equal. apply map_ext. intros row.
        symmetry. apply select_by_mask_none. exact Hany.
    + apply Forall_forall. intros row' Hin.
      apply list_elem_of_In, in_map_iff in Hin as (row & <- & Hrow).
      apply select_by_mask_length.
      rewrite (well_shaped_rows X2 row Hw Hrow). congruence.
Qed.

(** On a fitted object, [get_feature_names_out] with one name per feature
    returns the names at the selected positions, and with names of another
    length raises [ValueError]. Names and columns go together: position
    [k] of the returned names and position [k] of every row returned by
    [transform] both come from the same original position, the [k]-th
    index of [get_support(indices=True)]. *)
Theorem feature_names_match_transformed_columns
    (self : params) (depth : nat) (X : list (list Q)) (y : list Q)
    (h h' : heap) (names : list string) (new_threshold : option Q)
    (mask : list bool) :
  fit self depth X y h = (Ok tt, h') ->
  get_support self (attrs h') false new_threshold = Ok (Mask mask) ->
  (length names <> shape1 X ->
   get_feature_names_out self (attrs h') (Some names) new_threshold
     = Raise ValueError) /\
  (length names = shape1 X ->
   get_feature_names_out self (attrs h') (Some names) new_threshold
     = Ok (select_by_mask mask names) /\
   forall k i,
     where_true 0 mask !! k = Some i ->
     select_by_mask mask names !! k = names !! i /\
     forall row : list Q,
       length row = shape1 X ->
       select_by_mask mask row !! k = row !! i).
Proof.
  intros Hfit Hsup.
  unfold get_support in Hsup.
  apply rbind_Ok in Hsup as (m & Hmask & Hm). inversion Hm; subst m; clear Hm.
  pose proof (fitted_mask_length _ _ _ _ _ _ _ _ Hfit Hmask) as Hlen.
  destruct (fit_Ok_shapes _ _ _ _ _ _ Hfit)
    as (rows & ms & _ & _ & _ & _ & _ & Hnf & _).
  unfold get_feature_names_out, _check_feature_names_in. rewrite Hnf. split.
  - intros Hne.
    destruct (Z.of_nat (length names) =? Z.of_nat (shape1 X))%Z eqn:Heq.
    + apply Z.eqb_eq in Heq. lia.
    + reflexivity.
  - intros Heq. rewrite Heq, Z.eqb_refl. cbn [rbind]. rewrite Hmask.
    cbn [rbind]. unfold index_by_mask. rewrite Hlen, Heq, Nat.eqb_refl.
    split; [reflexivity|].
    intros k i Hk. split.
    + rewrite select_by_mask_lookup by congruence. rewrite Hk. reflexivity.
    + intros row Hrow.
      rewrite select_by_mask_lookup by congruence. rewrite Hk. reflexivity.
Qed.

End TransformFacts.

Lemma transform_keeps_the_selected_columns_witness :
  let run := @fit toy path_params 5 path_X path_y (fresh 0) in
  run = (Ok tt, snd run) /\
  well_shaped [[5; 6]; [7; 8]]%Q = true /\
  get_support path_params (attrs (snd run)) false (Some (6 # 10)%Q)
    = Ok (Mask [true; false]) /\
  length [true; false] = shape1 path_X /\
  (shape1 [[5; 6]; [7; 8]]%Q <> shape1 path_X ->
   transform path_params (attrs (snd run)) [[5; 6]; [7; 8]]%Q (Some (6 # 10)%Q)
     = Raise ValueError) /\
  (shape1 [[5; 6]; [7; 8]]%Q = shape1 path_X ->
   transform path_params (attrs (snd run)) [[5; 6]; [7; 8]]%Q (Some (6 # 10)%Q)
     = Ok (map (select_by_mask [true; false]) [[5; 6]; [7; 8]]%Q) /\
   Forall (fun row => length row = count_true [true; false])
          (map (select_by_mask [true; false]) [[5; 6]; [7; 8]]%Q)).
Proof.
  intros run. split; [vm_compute; reflexivity|].
  split; [reflexivity|]. split; [vm_compute; reflexivity|].
  apply (@transform_keeps_the_selected_columns toy path_params 5 path_X path_y
           (fresh 0) (snd run)).
  - vm_compute. reflexivity.
  - reflexivity.
  - vm_compute. reflexivity.
Defined.

Lemma feature_names_match_transformed_columns_witness :
  let run := @fit toy path_params 5 path_X path_y (fresh 0) in
  run = (Ok tt, snd run) /\
  get_support path_params (attrs (snd run)) false (Some (6 # 10)%Q)
    = Ok (Mask [true; false]) /\
  (length ["CD4"; "CD8"] <> shape1 path_X ->
   get_feature_names_out path_params (attrs (snd run)) (Some ["CD4"; "CD8"])
     (Some (6 # 10)%Q) = Raise ValueError) /\
  (length ["CD4"; "CD8"] = shape1 path_X ->
   get_feature_names_out path_params (attrs (snd run)) (Some ["CD4"; "CD8"])
     (Some (6 # 10)%Q) = Ok (select_by_mask [true; false] ["CD4"; "CD8"]) /\
   forall k i,
     where_true 0 [true; false] !! k = Some i ->
     select_by_mask [true; false] ["CD4"; "CD8"] !! k = ["CD4"; "CD8"] !! i /\
     forall row : list Q,
       length row = shape1 path_X ->
       select_by_mask [true; false] row !! k = row !! i).
Proof.
  intros run. split; [vm_compute; reflexivity|].
  split; [vm_compute; reflexivity|].
  apply (@feature_names_match_transformed_columns toy path_params 5 path_X
           path_y (fresh 0) (snd run)).
  - vm_compute. reflexivity.
  - vm_compute. reflexivity.
Defined.

(** ** More on the FDR controller *)

Lemma np_sum_indicator_nonneg (c t : Q) (scores : list Q) :
  (0 <= c)%Q ->
  (0 <= np_sum (map (fun s => c * bool_to_Q (Qgtb s t)) scores))%Q.
Proof.
  intros Hc. rewrite np_sum_indicator.
  apply Qmult_le_0_compat; [exact Hc|].
  change 0%Q with (inject_Z 0). rewrite <- Zle_Qle. lia.
Qed.

Lemma count_true_map_le {A} (f : A -> bool) (l : list A) :
  count_true (map f l) <= length l.
Proof.
  pose proof (count_true_le (map f l)) as H. rewrite length_map in H. exact H.
Qed.

Lemma FDP_at_lower_bound ap real_max synthetic_max t n :
  (0 < ap)%Q ->
  1 <= n ->
  length real_max <= n ->
  (1 / inject_Z (Z.of_nat n) <= FDP_at ap real_max synthetic_max t)%Q.
Proof.
  intros Hap Hn Hlen. unfold FDP_at.
  set (num := (np_sum _ + 1)%Q).
  set (d := Nat.max 1 (count_true (map (fun s => Qgtb s t) real_max))).
  assert (1 <= num)%Q as Hnum.
  { unfold num. rewrite <- (Qplus_0_l 1) at 1.
    apply Qplus_le_compat; [|apply Qle_refl].
    apply np_sum_indicator_nonneg.
    apply Qlt_le_weak. apply Qlt_shift_div_l; [exact Hap|].
    rewrite Qmult_0_l. reflexivity. }
  assert (1 <= d <= n) as Hd.
  { unfold d. pose proof (count_true_map_le (fun s => Qgtb s t) real_max). lia. }
  assert (0 < inject_Z (Z.of_nat d))%Q as Hdpos.
  { change 0%Q with (inject_Z 0). rewrite <- Zlt_Qlt. lia. }
  assert (0 < inject_Z (Z.of_nat n))%Q as Hnpos.
  { change 0%Q with (inject_Z 0). rewrite <- Zlt_Qlt. lia. }
  apply Qle_shift_div_l; [exact Hdpos|].
  apply Qle_trans with (1 / inject_Z (Z.of_nat n) * inject_Z (Z.of_nat n))%Q.
  - apply Qmult_le_l.
    + apply Qlt_shift_div_l; [exact Hnpos|]. rewrite Qmult_0_l. reflexivity.
    + rewrite <- Zle_Qle. lia.
  - unfold Qdiv. rewrite Qmult_1_l, Qmult_comm, Qmult_inv_r; [exact Hnum|].
    intros Heq. rewrite Heq in Hnpos. apply (Qlt_irrefl 0). exact Hnpos.
Qed.

Section ControllerBounds.
Context {E : Externals}.

(** After a fit with synthetic features, the FDR curve has one entry per
    threshold of [fdr_threshold_range], and every entry, hence the
    smallest one kept in [min_fdr_], is at least [1 / n_features] and so
    positive. *)
Theorem FDR_curve_is_bounded_below
    (self : params) (depth : nat) (X : list (list Q)) (y : list Q)
    (h h' : heap) :
  fit self depth X y h = (Ok tt, h') ->
  artificial_type self <> None ->
  exists FDPs min_fdr,
    attrs h' !! "FDRs_" = Some (PyList FDPs) /\
    attrs h' !! "min_fdr_" = Some (PyFloat min_fdr) /\
    length FDPs = length (fdr_threshold_range self) /\
    In min_fdr FDPs /\
    forall f, In f FDPs ->
              (0 < f)%Q /\ (1 / inject_Z (Z.of_nat (shape1 X)) <= f)%Q.
Proof.
  intros Hfit Hart.
  destruct (fit_controller_state _ _ _ _ _ _ _ Hfit Hart)
    as (rows & arows & ms & msa & mf & fc & _ & _ & Hnrows & _ & Hms & _
        & HF & Hmf & _ & Hmin & _).
  apply fit_Ok in Hfit as (trace & h1 & _ & _ & Hpath & _).
  pose proof (fit_path_Ok _ _ _ _ _ _ _ Hpath) as (Hval & _).
  pose proof (fit_path_validated _ _ _ _ _ _ _ Hpath) as [Hw _].
  apply well_shaped_width in Hw as [Hw _].
  apply _validate_input_Ok_iff in Hval as (_ & _ & _ & _ & Hap & _).
  destruct (Hap Hart) as [Hap0 _].
  assert (length ms = shape1 X) as Hlms.
  { simpl in Hms. apply rmap_length in Hms. congruence. }
  eexists _, mf. split; [exact HF|]. split; [exact Hmf|].
  split; [apply length_map|].
  split; [apply np_min_Ok in Hmin; apply Hmin|].
  intros f Hf. apply in_map_iff in Hf as (t & <- & _).
  assert (1 / inject_Z (Z.of_nat (shape1 X))
          <= FDP_at (artificial_proportion self) ms msa t)%Q as Hlow.
  { apply FDP_at_lower_bound; [exact Hap0 | exact Hw | lia]. }
  split; [|exact Hlow].
  eapply Qlt_le_trans; [|exact Hlow].
  apply Qlt_shift_div_l.
  - change 0%Q with (inject_Z 0). rewrite <- Zlt_Qlt. lia.
  - rewrite Qmult_0_l. reflexivity.
Qed.

(** After a fit with synthetic features, the selected threshold is at most
    1, and it is either 1 or one of the thresholds of
    [fdr_threshold_range]. *)
Theorem selected_threshold_is_a_grid_point_or_one
    (self : params) (depth : nat) (X : list (list Q)) (y : list Q)
    (h h' : heap) :
  fit self depth X y h = (Ok tt, h') ->
  artificial_type self <> None ->
  exists cutoff,
    attrs h' !! "fdr_min_threshold_" = Some (PyFloat cutoff) /\
    (cutoff <= 1)%Q /\
    (cutoff = 1%Q \/ In cutoff (fdr_threshold_range self)).
Proof.
  intros Hfit Hart.
  destruct (fit_controller_state _ _ _ _ _ _ _ Hfit Hart)
    as (rows & arows & ms & msa & mf & fc & _ & _ & _ & _ & _ & _
        & _ & _ & Hfc & _ & Hcut).
  exists fc. split; [exact Hfc|].
  destruct (Qgtb mf 1).
  - subst fc. split; [apply Qle_refl | left; reflexivity].
  - destruct Hcut as (i & t & _ & Hnth & ->).
    split; [apply Q.le_min_r|].
    destruct (Qmin_cases t 1) as [->| ->]; [right | left; reflexivity].
    eapply nth_error_In. exact Hnth.
Qed.

End ControllerBounds.

Lemma FDR_curve_is_bounded_below_witness :
  let run := @fit toy path_params 5 path_X path_y (fresh 0) in
  run = (Ok tt, snd run) /\
  artificial_type path_params <> None /\
  exists FDPs min_fdr,
    attrs (snd run) !! "FDRs_" = Some (PyList FDPs) /\
    attrs (snd run) !! "min_fdr_" = Some (PyFloat min_fdr) /\
    length FDPs = length (fdr_threshold_range path_params) /\
    In min_fdr FDPs /\
    forall f, In f FDPs ->
              (0 < f)%Q /\ (1 / inject_Z (Z.of_nat (shape1 path_X)) <= f)%Q.
Proof.
  intros run. split; [vm_compute; reflexivity|]. split; [discriminate|].
  apply (@FDR_curve_is_bounded_below toy path_params 5 path_X path_y (fresh 0)).
  - vm_compute. reflexivity.
  - discriminate.
Defined.

Lemma selected_threshold_is_a_grid_point_or_one_witness :
  let run := @fit toy toy_params 5 toy_X toy_y (fresh 0) in
  run = (Ok tt, snd run) /\
  artificial_type toy_params <> None /\
  exists cutoff,
    attrs (snd run) !! "fdr_min_threshold_" = Some (PyFloat cutoff) /\
    (cutoff <= 1)%Q /\
    (cutoff = 1%Q \/ In cutoff (fdr_threshold_range toy_params)).
Proof.
  intros run. split; [vm_compute; reflexivity|]. split; [discriminate|].
  apply (@selected_threshold_is_a_grid_point_or_one toy toy_params 5 toy_X toy_y
           (fresh 0)).
  - vm_compute. reflexivity.
  - discriminate.
Defined.

(** ** The selection interface and the plots after a fit *)

Lemma Qmin_le_one t : (t <= 1)%Q -> Qmin t 1 = t.
Proof.
  intros Hle. unfold Qmin, GenericMinMax.gmin.
  destruct (t ?= 1)%Q eqn:Hc; try reflexivity.
  exfalso. apply Qgt_alt in Hc. eapply Qlt_not_le; eassumption.
Qed.

Section AfterFit.
Context {E : Externals}.

(** After a fit, [get_support] without an override returns a mask and
    never raises: the cutoff is the fixed threshold when one is
    configured, and otherwise the selected threshold of the FDR
    controller, which validation guarantees to exist. *)
Theorem get_support_without_override_returns_after_fit
    (self : params) (depth : nat) (X : list (list Q)) (y : list Q)
    (h h' : heap) :
  fit self depth X y h = (Ok tt, h') ->
  exists max_scores cutoff,
    get_support self (attrs h') false None
      = Ok (Mask (map (fun s => Qgtb s cutoff) max_scores)) /\
    length max_scores = shape1 X /\
    match threshold self with
    | Some t => cutoff = t
    | None => attrs h' !! "fdr_min_threshold_" = Some (PyFloat cutoff)
    end.
Proof.
  intros Hfit.
  destruct (fit_Ok_shapes _ _ _ _ _ _ Hfit)
    as (rows & ms & Hrows & _ & _ & Hms & Hlms & _).
  destruct (threshold self) as [t|] eqn:Ht.
  - exists ms, t. split; [|split; [exact Hlms | reflexivity]].
    unfold get_support, _get_support_mask, check_is_fitted, lookup_attr.
    rewrite Ht, Hrows. cbn [rbind]. rewrite Hms. reflexivity.
  - assert (artificial_type self <> None) as Hart.
    { pose proof Hfit as Hfit'.
      apply fit_Ok in Hfit' as (trace & h1 & _ & _ & Hpath & _).
      pose proof (fit_path_Ok _ _ _ _ _ _ _ Hpath) as (Hval & _).
      apply _validate_input_Ok in Hval as (_ & _ & Hnone & _). auto. }
    destruct (fit_controller_state _ _ _ _ _ _ _ Hfit Hart)
      as (rows' & arows & ms' & msa & mf & fc & _ & _ & _ & _ & _ & _
          & _ & _ & Hfc & _).
    exists ms, fc. split; [|split; [exact Hlms | exact Hfc]].
    unfold get_support, _get_support_mask, check_is_fitted, lookup_attr.
    rewrite Ht, Hrows, Hfc. cbn [rbind]. rewrite Hms. reflexivity.
Qed.

(** After a fit with synthetic features and no fixed threshold, when the
    smallest estimated FDP is at most 1 and its grid point [t] is at most
    1, [get_support] selects the features whose maximal score exceeds [t],
    and [min_fdr_] is the estimate built from what is selected:
    [min_fdr_ * max(1, number selected)]
    [= (1 / artificial_proportion) * (synthetic features above t) + 1]. *)
Theorem min_fdr_counts_the_selected_features
    (self : params) (depth : nat) (X : list (list Q)) (y : list Q)
    (h h' : heap) (min_fdr : Q) :
  fit self depth X y h = (Ok tt, h') ->
  artificial_type self <> None ->
  threshold self = None ->
  attrs h' !! "min_fdr_" = Some (PyFloat min_fdr) ->
  (min_fdr <= 1)%Q ->
  Forall (fun t => t <= 1)%Q (fdr_threshold_range self) ->
  exists t mask arows synthetic_max,
    In t (fdr_threshold_range self) /\
    attrs h' !! "fdr_min_threshold_" = Some (PyFloat t) /\
    get_support self (attrs h') false None = Ok (Mask mask) /\
    attrs h' !! "stability_scores_artificial_" = Some (PyArray2 arows) /\
    np_max_axis1 (PyArray2 arows) = Ok synthetic_max /\
    (min_fdr * inject_Z (Z.max 1 (Z.of_nat (count_true mask)))
     == (1 / artificial_proportion self)
        * inject_Z (Z.of_nat (count_true (map (fun s => Qgtb s t) synthetic_max)))
        + 1)%Q.
Proof.
  intros Hfit Hart Hthr Hmf' Hle Hgrid.
  destruct (fit_controller_state _ _ _ _ _ _ _ Hfit Hart)
    as (rows & arows & ms & msa & mf & fc & Hrows & Harows & _ & _ & Hms & Hmsa
        & _ & Hmf & Hfc & Hmin & Hcut).
  rewrite Hmf in Hmf'. inversion Hmf'; subst mf; clear Hmf'.
  destruct (Qgtb min_fdr 1) eqn:Hgt.
  { apply Qgtb_true in Hgt. exfalso. eapply Qlt_not_le; eassumption. }
  destruct Hcut as (i & t & Harg & Hnth & ->).
  assert (In t (fdr_threshold_range self)) as Hin
      by (eapply nth_error_In; exact Hnth).
  assert (t <= 1)%Q as Ht1.
  { rewrite Forall_forall in Hgrid. apply Hgrid. apply list_elem_of_In. exact Hin. }
  rewrite (Qmin_le_one t Ht1) in Hfc.
  exists t, (map (fun s => Qgtb s t) ms), arows, msa.
  split; [exact Hin|]. split; [exact Hfc|].
  split.
  { unfold get_support, _get_support_mask, check_is_fitted, lookup_attr.
    rewrite Hthr, Hrows, Hfc. cbn [rbind]. rewrite Hms. reflexivity. }
  split; [exact Harows|]. split; [exact Hmsa|].
  (* the minimum is the entry at the argmin *)
  apply np_argmin_Ok in Harg as (f & Hf & Hlow & _).
  apply np_min_Ok in Hmin as [Hmin_in Hmin_low].
  assert (f == min_fdr)%Q as Hfm.
  { apply Qle_antisym.
    - apply Hlow. exact Hmin_in.
    - apply Hmin_low. apply list_elem_of_In. eapply list_elem_of_lookup_2. exact Hf. }
  rewrite list_lookup_fmap in Hf. rewrite nth_error_lookup in Hf.
  rewrite Hnth in Hf. simpl in Hf. inversion Hf as [Hfeq]. clear Hf.
  rewrite <- Hfm, <- Hfeq, FDP_at_formula. unfold FDP_formula.
  set (d := inject_Z (Z.max 1 (Z.of_nat (count_true (map (fun s => Qgtb s t) ms))))).
  assert (~ d == 0)%Q as Hd.
  { unfold d. intros Heq.
    assert (0 < inject_Z (Z.max 1 (Z.of_nat (count_true (map (fun s => Qgtb s t) ms)))))%Q
      as Hpos by (change 0%Q with (inject_Z 0); rewrite <- Zlt_Qlt; lia).
    rewrite Heq in Hpos. apply (Qlt_irrefl 0). exact Hpos. }
  assert (~ artificial_proportion self == 0)%Q as Hap.
  { pose proof Hfit as Hfit'.
    apply fit_Ok in Hfit' as (trace & h1 & _ & _ & Hpath & _).
    pose proof (fit_path_Ok _ _ _ _ _ _ _ Hpath) as (Hval & _).
    apply _validate_input_Ok_iff in Hval as (_ & _ & _ & _ & Hap & _).
    destruct (Hap Hart) as [Hap0 _]. intros Heq. rewrite Heq in Hap0.
    apply (Qlt_irrefl 0). exact Hap0. }
  field. split; assumption.
Qed.

(** On an object fitted with synthetic features, [plot_fdr_graph] returns.
    When the smallest estimated FDP is at most 0.5 its vertical line is at
    the minimising grid point, of which the selected threshold is the
    value clipped at 1; when it exceeds 0.5 the line is at 1 with the label
    "No optimal threshold", which is the selected threshold only when the
    smallest estimated FDP exceeds 1. *)
Theorem plot_fdr_graph_line_and_selected_threshold
    (self : params) (depth : nat) (X : list (list Q)) (y : list Q)
    (h h' : heap) :
  fit self depth X y h = (Ok tt, h') ->
  artificial_type self <> None ->
  exists min_fdr cutoff line label,
    attrs h' !! "min_fdr_" = Some (PyFloat min_fdr) /\
    attrs h' !! "fdr_min_threshold_" = Some (PyFloat cutoff) /\
    plot_fdr_graph self (attrs h') = Ok (line, label) /\
    ((min_fdr <= 1 # 2)%Q -> label = false /\ cutoff = Qmin line 1) /\
    ((1 # 2 < min_fdr)%Q -> label = true /\ line = 1%Q) /\
    ((1 < min_fdr)%Q -> cutoff = line).
Proof.
  intros Hfit Hart.
  destruct (fit_controller_state _ _ _ _ _ _ _ Hfit Hart)
    as (rows & arows & ms & msa & mf & fc & Hrows & _ & _ & _ & _ & _
        & HF & Hmf & Hfc & Hmin & Hcut).
  unfold plot_fdr_graph, check_is_fitted, lookup_attr.
  rewrite Hrows, Hmf. cbn [rbind].
  destruct (Qgtb mf (1 # 2)) eqn:Hhalf.
  - apply Qgtb_true in Hhalf.
    exists mf, fc, 1%Q, true.
    split; [reflexivity|]. split; [exact Hfc|]. split; [reflexivity|].
    split; [intros Hle; exfalso; eapply Qlt_not_le; eassumption|].
    split; [auto|].
    intros Hgt. apply Qgtb_true in Hgt. rewrite Hgt in Hcut. exact Hcut.
  - apply Qgtb_false in Hhalf.
    assert (Qgtb mf 1 = false) as Hone.
    { apply Qgtb_false. eapply Qle_trans; [exact Hhalf|]. discriminate. }
    rewrite Hone in Hcut. destruct Hcut as (i & t & Harg & Hnth & ->).
    rewrite HF. cbn [rbind]. rewrite Harg. cbn [rbind]. rewrite Hnth.
    exists mf, (Qmin t 1), t, false.
    split; [reflexivity|]. split; [exact Hfc|]. split; [reflexivity|].
    split; [auto|].
    split; [intros Hlt; exfalso; eapply Qlt_not_le; eassumption|].
    intros Hlt. exfalso. apply (Qlt_not_le _ _ Hlt).
    eapply Qle_trans; [exact Hhalf|]. discriminate.
Qed.


(** On a fitted object, [plot_stabl_path] without an override highlights
    the mask of [get_support()] and never fails its range test; with an
    override it raises [ValueError] outside (0, 1] and highlights the mask
    of [get_support] at that override inside. *)
Theorem plot_stabl_path_highlights_the_support
    (self : params) (depth : nat) (X : list (list Q)) (y : list Q)
    (h h' : heap) :
  fit self depth X y h = (Ok tt, h') ->
  plot_stabl_path self (attrs h') None = get_support self (attrs h') false None /\
  forall t,
    ((0 < t)%Q /\ (t <= 1)%Q ->
     plot_stabl_path self (attrs h') (Some t)
     = get_support self (attrs h') false (Some t)) /\
    (~ ((0 < t)%Q /\ (t <= 1)%Q) ->
     plot_stabl_path self (attrs h') (Some t) = Raise ValueError).
Proof.
  intros Hfit.
  assert (forall t, in_unit_interval t = true <-> (0 < t)%Q /\ (t <= 1)%Q) as Hunit.
  { intros t. unfold in_unit_interval.
    rewrite andb_true_iff, Qgtb_true, Qle_bool_iff. reflexivity. }
  destruct (fit_Ok_shapes _ _ _ _ _ _ Hfit) as (rows & ms & Hrows & _).
  pose proof Hfit as Hfit'.
  apply fit_Ok in Hfit' as (trace & h1 & _ & _ & Hpath & _).
  pose proof (fit_path_Ok _ _ _ _ _ _ _ Hpath) as (Hval & _).
  apply _validate_input_Ok in Hval as (_ & Hthr & _).
  unfold plot_stabl_path, check_is_fitted. rewrite Hrows. cbn [rbind].
  split.
  - destruct (threshold self) as [t|] eqn:Ht; [|reflexivity].
    rewrite (Hthr t eq_refl). simpl negb. cbv iota.
    unfold get_support, _get_support_mask. rewrite Ht. reflexivity.
  - intros t. split.
    + intros Hin. apply Hunit in Hin. rewrite Hin. reflexivity.
    + intros Hout. destruct (in_unit_interval t) eqn:Hin; [|reflexivity].
      exfalso. apply Hout. apply Hunit. exact Hin.
Qed.

End AfterFit.

Lemma get_support_without_override_returns_after_fit_witness :
  let run := @fit toy toy_params 5 toy_X toy_y (fresh 0) in
  run = (Ok tt, snd run) /\
  exists max_scores cutoff,
    get_support toy_params (attrs (snd run)) false None
      = Ok (Mask (map (fun s => Qgtb s cutoff) max_scores)) /\
    length max_scores = shape1 toy_X /\
    match threshold toy_params with
    | Some t => cutoff = t
    | None => attrs (snd run) !! "fdr_min_threshold_" = Some (PyFloat cutoff)
    end.
Proof.
  intros run. split; [vm_compute; reflexivity|].
  apply (@get_support_without_override_returns_after_fit toy toy_params 5 toy_X
           toy_y (fresh 0)).
  vm_compute. reflexivity.
Defined.

Lemma min_fdr_counts_the_selected_features_witness :
  let run := @fit toy toy_params 5 toy_X toy_y (fresh 0) in
  run = (Ok tt, snd run) /\
  artificial_type toy_params <> None /\
  threshold toy_params = None /\
  attrs (snd run) !! "min_fdr_" = Some (PyFloat 1) /\
  (1 <= 1)%Q /\
  Forall (fun t => t <= 1)%Q (fdr_threshold_range toy_params) /\
  exists t mask arows synthetic_max,
    In t (fdr_threshold_range toy_params) /\
    attrs (snd run) !! "fdr_min_threshold_" = Some (PyFloat t) /\
    get_support toy_params (attrs (snd run)) false None = Ok (Mask mask) /\
    attrs (snd run) !! "stability_scores_artificial_" = Some (PyArray2 arows) /\
    np_max_axis1 (PyArray2 arows) = Ok synthetic_max /\
    (1 * inject_Z (Z.max 1 (Z.of_nat (count_true mask)))
     == (1 / artificial_proportion toy_params)
        * inject_Z (Z.of_nat (count_true (map (fun s => Qgtb s t) synthetic_max)))
        + 1)%Q.
Proof.
  intros run.
  assert (Forall (fun t => t <= 1)%Q (fdr_threshold_range toy_params)) as Hgrid.
  { repeat constructor. discriminate. }
  split; [vm_compute; reflexivity|]. split; [discriminate|].
  split; [reflexivity|]. split; [vm_compute; reflexivity|].
  split; [discriminate|]. split; [exact Hgrid|].
  apply (@min_fdr_counts_the_selected_features toy toy_params 5 toy_X toy_y
           (fresh 0) (snd run) 1%Q).
  - vm_compute. reflexivity.
  - discriminate.
  - reflexivity.
  - vm_compute. reflexivity.
  - discriminate.
  - exact Hgrid.
Defined.

Lemma plot_fdr_graph_line_and_selected_threshold_witness :
  let run := @fit toy toy_params 5 toy_X toy_y (fresh 0) in
  run = (Ok tt, snd run) /\
  artificial_type toy_params <> None /\
  exists min_fdr cutoff line label,
    attrs (snd run) !! "min_fdr_" = Some (PyFloat min_fdr) /\
    attrs (snd run) !! "fdr_min_threshold_" = Some (PyFloat cutoff) /\
    plot_fdr_graph toy_params (attrs (snd run)) = Ok (line, label) /\
    ((min_fdr <= 1 # 2)%Q -> label = false /\ cutoff = Qmin line 1) /\
    ((1 # 2 < min_fdr)%Q -> label = true /\ line = 1%Q) /\
    ((1 < min_fdr)%Q -> cutoff = line).
Proof.
  intros run. split; [vm_compute; reflexivity|]. split; [discriminate|].
  apply (@plot_fdr_graph_line_and_selected_threshold toy toy_params 5 toy_X
           toy_y (fresh 0)).
  - vm_compute. reflexivity.
  - discriminate.
Defined.


Lemma plot_stabl_path_highlights_the_support_witness :
  let run := @fit toy path_params 5 path_X path_y (fresh 0) in
  run = (Ok tt, snd run) /\
  plot_stabl_path path_params (attrs (snd run)) None
  = get_support path_params (attrs (snd run)) false None /\
  forall t,
    ((0 < t)%Q /\ (t <= 1)%Q ->
     plot_stabl_path path_params (attrs (snd run)) (Some t)
     = get_support path_params (attrs (snd run)) false (Some t)) /\
    (~ ((0 < t)%Q /\ (t <= 1)%Q) ->
     plot_stabl_path path_params (attrs (snd run)) (Some t) = Raise ValueError).
Proof.
  intros run. split; [vm_compute; reflexivity|].
  apply (@plot_stabl_path_highlights_the_support toy path_params 5 path_X path_y
           (fresh 0)).
  vm_compute. reflexivity.
Defined.


(** ** One mask per index set *)

Lemma rmap_Forall2 {A B} (f : A -> result B) l bs :
  rmap f l = Ok bs -> Forall2 (fun a b => f a = Ok b) l bs.
Proof.
  revert bs. induction l as [|a l IH]; intros bs H.
  - inversion H. constructor.
  - apply rmap_Ok_cons in H as (b & bs' & -> & Hb & H).
    constructor; [exact Hb | apply IH; exact H].
Qed.

Section Tasks.
Context {E : Externals}.

Lemma fit_iteration_tasks self depth X y n_features n_subsamples idx lam
    h batch masks h' :
  fit_iteration self depth X y n_features n_subsamples idx lam h
    = (Ok (batch, masks), h') ->
  Forall2
    (fun subsample_indices mask =>
       exists X_sub y_sub,
         take_indices X subsample_indices = Ok X_sub /\
         take_indices y subsample_indices = Ok y_sub /\
         fit_bootstrapped_sample (clone (clone base_estimator)) X_sub y_sub
           (lambda_name self) lam (bootstrap_threshold self) = Ok mask)
    batch masks.
Proof.
  unfold fit_iteration, Parallel. intros H. inv_M.
  match goal with Hp : (batch, masks) = _ |- _ => inversion Hp; subst; clear Hp end.
  match goal with Hm : rmap _ _ = Ok _ |- _ => apply rmap_Forall2 in Hm as HF end.
  eapply Forall2_impl; [exact HF|].
  intros indices mask Ht. cbv beta in Ht.
  apply rbind_Ok in Ht as (X_sub & HX & Ht).
  apply rbind_Ok in Ht as (y_sub & Hy & Ht).
  eauto.
Qed.

Lemma fit_loop_tasks self depth X y n_features n_subsamples grid h trace h' :
  fit_loop self depth X y n_features n_subsamples grid h = (Ok trace, h') ->
  forall k idx lam batch masks,
    grid !! k = Some (idx, lam) ->
    trace !! k = Some (batch, masks) ->
    Forall2
      (fun subsample_indices mask =>
         exists X_sub y_sub,
           take_indices X subsample_indices = Ok X_sub /\
           take_indices y subsample_indices = Ok y_sub /\
           fit_bootstrapped_sample (clone (clone base_estimator)) X_sub y_sub
             (lambda_name self) lam (bootstrap_threshold self) = Ok mask)
      batch masks.
Proof.
  revert h trace h'. induction grid as [|[idx0 lam0] grid IH];
    intros h trace h' H k idx lam batch masks Hg Ht; simpl in H.
  - destruct k; discriminate.
  - inv_M.
    destruct k as [|k]; simpl in Hg, Ht.
    + inversion Hg; subst. inversion Ht; subst.
      eapply fit_iteration_tasks. eassumption.
    + eapply IH; eassumption.
Qed.

Lemma enumerate_lookup {A} (l : list A) k a :
  l !! k = Some a -> enumerate l !! k = Some (k, a).
Proof.
  intros Hk. unfold enumerate. apply combine_lookup; [|exact Hk].
  apply lookup_seq. split; [reflexivity|]. eapply lookup_lt_Some. exact Hk.
Qed.

(** Every index set drawn during a fit that returns has contributed
    exactly one mask, in the order of drawing: at grid point [k] the
    [i]-th mask is what [fit_bootstrapped_sample] returned on a clone of
    the base estimator, for the [k]-th value of [lambda_grid], on the rows
    of the design matrix (each row extended on the right by its synthetic
    entries when synthetic features are requested) and the outcomes at the [i]-th index set. No resample is skipped
    and none fails. *)
Theorem every_resample_contributes_one_mask
    (self : params) (depth : nat) (X : list (list Q)) (y : list Q)
    (h h' : heap) :
  fit self depth X y h = (Ok tt, h') ->
  exists trace X_fit,
    fst (fit_path self depth X y h) = Ok trace /\
    match artificial_type self with
    | None => X_fit = X
    | Some _ =>
        length X_fit = length X /\
        forall i row,
          X !! i = Some row ->
          exists synthetic_row, X_fit !! i = Some (row ++ synthetic_row)%list
    end /\
    forall k lam batch masks,
      lambda_grid self !! k = Some lam ->
      trace !! k = Some (batch, masks) ->
      Forall2
        (fun subsample_indices mask =>
           exists X_sub y_sub,
             take_indices X_fit subsample_indices = Ok X_sub /\
             take_indices y subsample_indices = Ok y_sub /\
             fit_bootstrapped_sample (clone (clone base_estimator)) X_sub y_sub
               (lambda_name self) lam (bootstrap_threshold self) = Ok mask)
        batch masks.
Proof.
  intros Hfit.
  apply fit_Ok in Hfit as (trace & h1 & rows & ms & Hpath & _ & _ & _).
  exists trace. rewrite Hpath. cbn [fst].
  unfold fit_path, _validate_data_fit in Hpath. inv_M.
  destruct (well_shaped X && (length y =? length X)); [|discriminate].
  inv_M.
  match goal with
  | Hl : fit_loop _ _ ?Xf _ _ _ _ _ = _ |- _ =>
      exists Xf; pose proof (fit_loop_tasks _ _ _ _ _ _ _ _ _ _ Hl) as Htasks
  end.
  split; [reflexivity|]. split.
  - destruct (artificial_type self) as [ty|]; inv_M; [|reflexivity].
    unfold _make_artificial_features in *. inv_M.
    destruct (String.eqb ty "random_permutation").
    + destruct (choice _ _ _ _) as [indices rng1]. inv_M.
      destruct (shuffle_columns _ _) as [cols rng2]. inv_M.
      match goal with
      | Hc : concatenate1 _ _ = Ok _ |- _ =>
          apply concatenate1_Ok in Hc as (Hl1 & Hl2 & Hrows)
      end.
      split; [exact Hl2|]. intros i row Hi.
      destruct (Hrows i row Hi) as (srow & _ & Hr). eauto.
    + destruct (String.eqb ty "knockoff"); [|discriminate].
      inv_M. destruct (choice _ _ _ _) as [indices rng1]. inv_M.
      match goal with
      | Hc : concatenate1 _ _ = Ok _ |- _ =>
          apply concatenate1_Ok in Hc as (Hl1 & Hl2 & Hrows)
      end.
      split; [exact Hl2|]. intros i row Hi.
      destruct (Hrows i row Hi) as (srow & _ & Hr). eauto.
  - intros k lam batch masks Hk Ht.
    eapply Htasks; [apply enumerate_lookup; exact Hk | exact Ht].
Qed.

End Tasks.

Lemma every_resample_contributes_one_mask_witness :
  let run := @fit toy path_params 5 path_X path_y (fresh 0) in
  run = (Ok tt, snd run) /\
  exists trace X_fit,
    fst (@fit_path toy path_params 5 path_X path_y (fresh 0)) = Ok trace /\
    match artificial_type path_params with
    | None => X_fit = path_X
    | Some _ =>
        length X_fit = length path_X /\
        forall i row,
          path_X !! i = Some row ->
          exists synthetic_row, X_fit !! i = Some (row ++ synthetic_row)%list
    end /\
    forall k lam batch masks,
      lambda_grid path_params !! k = Some lam ->
      trace !! k = Some (batch, masks) ->
      Forall2
        (fun subsample_indices mask =>
           exists X_sub y_sub,
             take_indices X_fit subsample_indices = Ok X_sub /\
             take_indices path_y subsample_indices = Ok y_sub /\
             @fit_bootstrapped_sample toy
               (@clone toy (@clone toy (@base_estimator toy))) X_sub y_sub
               (lambda_name path_params) lam (bootstrap_threshold path_params)
             = Ok mask)
        batch masks.
Proof.
  intros run. split; [vm_compute; reflexivity|].
  apply (@every_resample_contributes_one_mask toy path_params 5 path_X path_y
           (fresh 0) (snd run)).
  vm_compute. reflexivity.
Defined.
